(** * Order placement of the BookStore backend

    A shallow embedding of the order workflow of the repository:

    - [db/Sample_Quries.sql]: the schema (tables [Books], [Customers],
      [Orders], [OrderDetails], [Payments], [OrderLog]) and the stored
      procedure [PlaceOrder];
    - the MySQL server script (the Express handlers [POST /api/orders] and
      [PUT /api/orders/:id/status], which talk to the database through
      [pool.query]).

    Around the order workflow, from the same two sources:

    - the two middlewares of the server script, which put the strings of
      a POST or PUT body in lower case and the strings of a GET answer
      in title case ([toTitleCase], [transformDataForTitleCasing]);
    - the procedure [UpdateBookStock] and [PUT /api/books/:id/stock];
    - [GET /api/kpis];
    - [DELETE /api/books/:id] and [DELETE /api/customers/:id];
    - the notifications file ([readNotificationsFile],
      [writeNotificationsFile]) with [POST /api/notifications] and
      [DELETE /api/notifications/:id].

    [server.js] is the same server written for SQL Server: its handlers
    validate and answer in the same way, and call a procedure
    [dbo.PlaceOrder] that is not among the sources.  The embedding follows
    the MySQL script, whose procedure is.

    Conventions of the embedding.

    - SQL [INT] values are [Z]; what the server does with a value outside
      the 32-bit range is written out ([coerce_INT]), for the
      AUTO_INCREMENT keys as for the other columns.
    - [DECIMAL(10,2)] values are [Z] numbers of hundredths (900.00 is
      [90000]); a nullable column is an [option].
    - A string is the list of the bytes of its UTF-8 text.  White space
      is recognised in all its encodings.  The change of letter case is
      written out for the ASCII letters only: a theorem that depends on
      the case of other letters has a hypothesis [is_ascii].
    - The schema uses expression defaults ([DEFAULT (CURRENT_DATE)]), so it
      needs MySQL 8.0.13 or later.  The embedding follows the defaults of
      that server line: strict SQL mode (a value that does not fit its
      column or routine parameter is an error, not a silent truncation),
      enforced [CHECK] constraints, InnoDB foreign keys, statement-level
      atomicity (a failing statement undoes only itself), and a default
      collation that compares strings without regard to letter case.
    - A stored procedure without a handler stops at the first failing
      statement; the transaction it opened stays open on the connection.
    - Requests are handled one after the other on one pooled connection,
      which mysql2 creates on first use and hands out again afterwards.
    - An INSERT takes the AUTO_INCREMENT key of its row before the
      storage engine tests the foreign keys of the row, and a key that
      was taken is not given again ([exec_insert]).
    - A request body is what [JSON.parse] gives ([JSON]): the members
      that a handler reads can hold any value or be missing, and the
      conversions that JavaScript applies to them ([ToString],
      [ToNumber], [parseInt]) are written out with the errors they
      throw.  The path parameter of a request is a string; [parseInt]
      gives a double for it ([JS.number]).
    - A write of the notifications file succeeds, and the file is read
      back as it was written. *)

From Stdlib Require Import ZArith List String Ascii Bool Lia.
From Stdlib Require Import DecimalString DecimalN.
Import ListNotations.
Open Scope string_scope.
Open Scope list_scope.
Open Scope Z_scope.

(* ===================================================================== *)
(** ** JavaScript helpers used by the handlers *)
(* ===================================================================== *)

Module JS.

(** [c.toLowerCase()] on one ASCII character. *)
Definition lower_ascii (c : ascii) : ascii :=
  let n := nat_of_ascii c in
  if ((65 <=? n) && (n <=? 90))%nat then ascii_of_nat (n + 32) else c.

(** [s.toLowerCase()] on the ASCII letters of [s]. *)
Fixpoint toLowerCase (s : string) : string :=
  match s with
  | EmptyString => EmptyString
  | String c rest => String (lower_ascii c) (toLowerCase rest)
  end.

(** [hay.includes(needle)]: [needle] occurs somewhere in [hay]. *)
Fixpoint includes (hay needle : string) : bool :=
  String.prefix needle hay ||
  match hay with
  | EmptyString => false
  | String _ rest => includes rest needle
  end.

(** [arr.includes(x)] on an array of strings, compared with [===]. *)
Definition array_includes (arr : list string) (x : string) : bool :=
  existsb (String.eqb x) arr.

(** [arr.join(sep)]. *)
Definition join (sep : string) (arr : list string) : string :=
  String.concat sep arr.

(** [!x] for a value that is a string or [undefined]:
    [undefined] and the empty string are falsy. *)
Definition not_str (x : option string) : bool :=
  match x with
  | None => true
  | Some s => String.eqb s ""
  end.

(** White space of one byte: TAB, LF, VT, FF, CR and the space. *)
Definition is_space (c : ascii) : bool :=
  let n := nat_of_ascii c in
  ((n =? 32) || ((9 <=? n) && (n <=? 13)))%nat.

(** White space of two bytes: U+00A0. *)
Definition is_space2 (c1 c2 : ascii) : bool :=
  ((nat_of_ascii c1 =? 194) && (nat_of_ascii c2 =? 160))%nat.

(** White space of three bytes: U+1680, U+2000 to U+200A, U+2028,
    U+2029, U+202F, U+205F, U+3000 and U+FEFF. *)
Definition is_space3 (c1 c2 c3 : ascii) : bool :=
  let a := nat_of_ascii c1 in
  let b := nat_of_ascii c2 in
  let c := nat_of_ascii c3 in
  (((a =? 225) && (b =? 154) && (c =? 128)) ||
   ((a =? 226) && (b =? 128) &&
    (((128 <=? c) && (c <=? 138)) || (c =? 168) || (c =? 169) ||
     (c =? 175))) ||
   ((a =? 226) && (b =? 129) && (c =? 159)) ||
   ((a =? 227) && (b =? 128) && (c =? 128)) ||
   ((a =? 239) && (b =? 187) && (c =? 191)))%nat.

(** The string without the white space and line terminators at its
    head. *)
Fixpoint skip_spaces (s : string) : string :=
  match s with
  | String c1 rest1 =>
      if is_space c1 then skip_spaces rest1
      else
        match rest1 with
        | String c2 rest2 =>
            if is_space2 c1 c2 then skip_spaces rest2
            else
              match rest2 with
              | String c3 rest3 =>
                  if is_space3 c1 c2 c3 then skip_spaces rest3 else s
              | EmptyString => s
              end
        | EmptyString => s
        end
  | EmptyString => s
  end.

(** Value of a digit in a radix up to 16. *)
Definition digit_value (radix : Z) (c : ascii) : option Z :=
  let n := Z.of_nat (nat_of_ascii c) in
  let v :=
    if (48 <=? n) && (n <=? 57) then Some (n - 48)
    else if (97 <=? n) && (n <=? 102) then Some (n - 87)
    else if (65 <=? n) && (n <=? 70) then Some (n - 55)
    else None in
  match v with
  | Some d => if d <? radix then Some d else None
  | None => None
  end.

(** Longest prefix of digits, accumulated from the left; [None] when
    there is no digit at all. *)
Fixpoint digits (radix : Z) (acc : option Z) (s : string) : option Z :=
  match s with
  | EmptyString => acc
  | String c rest =>
      match digit_value radix c with
      | Some d =>
          digits radix
            (Some (match acc with Some a => a * radix + d | None => d end))
            rest
      | None => acc
      end
  end.

Definition strip_hex_prefix (s : string) : option string :=
  match s with
  | String "0" (String "x" rest) => Some rest
  | String "0" (String "X" rest) => Some rest
  | _ => None
  end.

(** A number as [parseInt] gives it.  An integer of magnitude at most
    2^53 is a double as it stands ([Int]).  A larger one is rounded to a
    double; of that double only the sign is kept ([Huge]): it is printed
    into a statement with digits of its own, and it is beyond the range
    of every INT column and parameter it is sent to.  From
    2^1024 - 2^970 on the rounding gives [Infinity]. *)
Inductive number :=
| NaN
| Int (z : Z)
| Huge (negative : bool)
| Infinity (negative : bool).

Definition EXACT : Z := 9007199254740992.

Definition OVERFLOW : Z := Eval vm_compute in 2 ^ 1024 - 2 ^ 970.

(** The double for a sign and the integer that the digits spell. *)
Definition of_digits (negative : bool) (magnitude : Z) : number :=
  if magnitude <=? EXACT
  then Int (if negative then - magnitude else magnitude)
  else if magnitude <? OVERFLOW then Huge negative
  else Infinity negative.

(** [parseInt(s)] on a string with no radix argument. *)
Definition parseInt (s : string) : number :=
  let s := skip_spaces s in
  let '(negative, s) :=
    match s with
    | String "-" rest => (true, rest)
    | String "+" rest => (false, rest)
    | _ => (false, s)
    end in
  let '(radix, s) :=
    match strip_hex_prefix s with
    | Some rest => (16, rest)
    | None => (10, s)
    end in
  match digits radix None s with
  | Some magnitude => of_digits negative magnitude
  | None => NaN
  end.

(** [isNaN(x)] on a number. *)
Definition isNaN (x : number) : bool :=
  match x with
  | NaN => true
  | _ => false
  end.


End JS.

(* ===================================================================== *)
(** ** The values of a request body or of an answer *)
(* ===================================================================== *)

(** What [JSON.parse] gives, and the [Date] objects that the database
    driver puts into rows (a [Date] is an object that is not an array
    and has no enumerable property).  A number is an integer that a
    double holds and prints with all its digits ([JNumber], of magnitude
    below 10^21), or any other double, given by the text that [String]
    prints for it ([JReal]: [0.5], [1e+21], [5e-7], [Infinity]).  An
    object is the list of its members in the order of [for ... in]; the
    members of a parsed object have distinct names. *)
#[warnings="-register-all"]
Inductive JSON :=
| JNull
| JBool (b : bool)
| JNumber (n : Z)
| JReal (text : string)
| JString (s : string)
| JArray (elements : list JSON)
| JObject (members : list (string * JSON))
| JDate (time : Z).

(** An own member of an object. *)
Fixpoint own_member (key : string) (members : list (string * JSON))
  : option JSON :=
  match members with
  | [] => None
  | (k, v) :: rest => if String.eqb k key then Some v else own_member key rest
  end.

(** The message of the [TypeError] for a member of [null]. *)
Definition null_property (key : string) : string :=
  String.append "Cannot read properties of null (reading '"
                (String.append key "')").

(** [value.key] for one of the names the handlers read ([bookId],
    [quantity], [id], [headline], [message], [timestamp], [read],
    [unread]): an own member of an object, [undefined] ([None]) in an
    array, a string, a number or a boolean, and a [TypeError] in
    [null]. *)
Definition property (value : JSON) (key : string) : string + option JSON :=
  match value with
  | JNull => inl (null_property key)
  | JObject members => inr (own_member key members)
  | _ => inr None
  end.

(** [\d]. *)
Definition is_digit (c : ascii) : bool :=
  let n := nat_of_ascii c in ((48 <=? n) && (n <=? 57))%nat.

(** The characters at the head of [s] that satisfy [p], and what follows
    them. *)
Fixpoint span (p : ascii -> bool) (s : string) : string * string :=
  match s with
  | String c rest =>
      if p c then let (head, tail) := span p rest in (String c head, tail)
      else (EmptyString, s)
  | EmptyString => (EmptyString, EmptyString)
  end.

(** The sign of a number, which is all that a test against zero
    reads. *)
Inductive Sign :=
| Not_a_number
| Negative
| Zero
| Positive.

Definition nonzero (negative : bool) : Sign :=
  if negative then Negative else Positive.

(** Whether the decimal [m * 10^k], with [m] positive, is read as the
    double zero: it is at most 2^-1075, half of the least double. *)
Definition rounds_to_zero (m k : Z) : bool :=
  (k <? 0) && (m * 2 ^ 1075 <=? 10 ^ (- k)).

(** The sign of the decimal with the digits [int] before the point, the
    digits [frac] after it and the exponent [exponent]. *)
Definition decimal_sign (negative : bool) (int frac : string) (exponent : Z)
  : Sign :=
  match JS.digits 10 None (String.append int frac) with
  | None => Not_a_number
  | Some m =>
      if m =? 0 then Zero
      else if rounds_to_zero m (exponent - Z.of_nat (String.length frac))
      then Zero
      else nonzero negative
  end.

Definition split_sign (s : string) : bool * string :=
  match s with
  | String "-" rest => (true, rest)
  | String "+" rest => (false, rest)
  | _ => (false, s)
  end.

Definition only_spaces (s : string) : bool :=
  String.eqb (JS.skip_spaces s) "".

(** What follows [prefix] at the head of [s]. *)
Fixpoint after_prefix (prefix s : string) : option string :=
  match prefix, s with
  | EmptyString, _ => Some s
  | String a p, String b rest =>
      if Ascii.eqb a b then after_prefix p rest else None
  | String _ _, EmptyString => None
  end.

(** The exponent part [e], [E] with a signed integer at the head of [s],
    and what follows it; no exponent part is the exponent 0. *)
Definition exponent_part (s : string) : Z * string :=
  match s with
  | String c rest =>
      if Ascii.eqb c "e" || Ascii.eqb c "E" then
        let (negative, rest) := split_sign rest in
        let (ds, rest) := span is_digit rest in
        match JS.digits 10 None ds with
        | Some e => (if negative then - e else e, rest)
        | None => (0, s)
        end
      else (0, s)
  | EmptyString => (0, s)
  end.

(** An unsigned decimal literal, or [Infinity], up to the end of the
    string, white space apart. *)
Definition unsigned_decimal (negative : bool) (s : string) : Sign :=
  match after_prefix "Infinity" s with
  | Some rest => if only_spaces rest then nonzero negative else Not_a_number
  | None =>
      let (int, rest) := span is_digit s in
      let (frac, rest) :=
        match rest with
        | String "." rest => span is_digit rest
        | _ => (EmptyString, rest)
        end in
      let (exponent, rest) := exponent_part rest in
      if only_spaces rest then decimal_sign negative int frac exponent
      else Not_a_number
  end.

(** The radix of a literal that starts with [0x], [0o] or [0b], and what
    follows the prefix. *)
Definition radix_prefix (s : string) : option (Z * string) :=
  match s with
  | String "0" (String c rest) =>
      if Ascii.eqb c "x" || Ascii.eqb c "X" then Some (16, rest)
      else if Ascii.eqb c "o" || Ascii.eqb c "O" then Some (8, rest)
      else if Ascii.eqb c "b" || Ascii.eqb c "B" then Some (2, rest)
      else None
  | _ => None
  end.

(** The sign of [Number(s)] for a string: white space around a literal
    is skipped, the empty string is zero, and what is no literal is
    NaN. *)
Definition StringToNumber (s : string) : Sign :=
  let s := JS.skip_spaces s in
  if String.eqb s "" then Zero
  else
    match radix_prefix s with
    | Some (radix, rest) =>
        let (ds, rest) :=
          span (fun c => match JS.digit_value radix c with
                         | Some _ => true
                         | None => false
                         end) rest in
        match JS.digits radix None ds with
        | Some v =>
            if only_spaces rest then (if v =? 0 then Zero else Positive)
            else Not_a_number
        | None => Not_a_number
        end
    | None =>
        let (negative, rest) := split_sign s in
        unsigned_decimal negative rest
    end.

(** The decimal digits of a natural number. *)
Definition digits_text (n : Z) : string :=
  NilZero.string_of_uint (N.to_uint (Z.to_N n)).

(** The integers that a double prints with all their digits: those of
    magnitude below 10^21.  [JNumber] stands for no other. *)
Definition prints_digits (n : Z) : bool :=
  Z.abs n <? 1000000000000000000000.

(** [String(n)] for an integer that prints with all its digits. *)
Definition integer_text (n : Z) : string :=
  String.append (if n <? 0 then "-" else "") (digits_text (Z.abs n)).

(** The number that the digits of [u] spell after the digits of
    [acc]. *)
Fixpoint uint_value (acc : Z) (u : Decimal.uint) : Z :=
  match u with
  | Decimal.Nil => acc
  | Decimal.D0 l => uint_value (acc * 10 + 0) l
  | Decimal.D1 l => uint_value (acc * 10 + 1) l
  | Decimal.D2 l => uint_value (acc * 10 + 2) l
  | Decimal.D3 l => uint_value (acc * 10 + 3) l
  | Decimal.D4 l => uint_value (acc * 10 + 4) l
  | Decimal.D5 l => uint_value (acc * 10 + 5) l
  | Decimal.D6 l => uint_value (acc * 10 + 6) l
  | Decimal.D7 l => uint_value (acc * 10 + 7) l
  | Decimal.D8 l => uint_value (acc * 10 + 8) l
  | Decimal.D9 l => uint_value (acc * 10 + 9) l
  end.

(** The message of the [TypeError] for an object that has no usable
    [toString]. *)
Definition not_primitive : string :=
  "Cannot convert object to primitive value".

(** The text of a [Date]: it names the day and the time zone.  No
    request body holds a [Date], and the text of one instant stands for
    all. *)
Definition date_text : string :=
  "Thu Jan 01 1970 00:00:00 GMT+0000 (Coordinated Universal Time)".

(** [String(value)], which can throw.  An array is the texts of its
    elements with commas between them, the text of [null] being empty;
    an object is [[object Object]], unless it has a member [toString] of
    its own: no member of a parsed object can be called, and the
    conversion throws. *)
Fixpoint ToString (value : JSON) : string + string :=
  match value with
  | JNull => inr "null"
  | JBool b => inr (if b then "true" else "false")
  | JNumber n => inr (integer_text n)
  | JReal text => inr text
  | JString s => inr s
  | JArray elements =>
      (fix join (l : list JSON) : string + string :=
         match l with
         | [] => inr ""
         | x :: rest =>
             match
               match x with
               | JNull => inr ""
               | _ => ToString x
               end
             with
             | inl e => inl e
             | inr a =>
                 match rest with
                 | [] => inr a
                 | _ :: _ =>
                     match join rest with
                     | inl e => inl e
                     | inr b => inr (String.append a (String.append "," b))
                     end
                 end
             end
         end) elements
  | JObject members =>
      match own_member "toString" members with
      | Some _ => inl not_primitive
      | None => inr "[object Object]"
      end
  | JDate _ => inr date_text
  end.

Definition sign_of (n : Z) : Sign :=
  if n =? 0 then Zero else if n <? 0 then Negative else Positive.

(** The sign of [Number(value)], which can throw; [None] is
    [undefined]. *)
Definition ToNumber (value : option JSON) : string + Sign :=
  match value with
  | None => inr Not_a_number
  | Some JNull => inr Zero
  | Some (JBool b) => inr (if b then Positive else Zero)
  | Some (JNumber n) => inr (sign_of n)
  | Some (JReal text) => inr (StringToNumber text)
  | Some (JString s) => inr (StringToNumber s)
  | Some (JDate time) => inr (sign_of time)
  | Some (JArray elements) =>
      match ToString (JArray elements) with
      | inl e => inl e
      | inr s => inr (StringToNumber s)
      end
  | Some (JObject members) =>
      match ToString (JObject members) with
      | inl e => inl e
      | inr s => inr (StringToNumber s)
      end
  end.

(** Whether a value counts as true in a condition. *)
Definition truthy (value : option JSON) : bool :=
  match value with
  | None => false
  | Some JNull => false
  | Some (JBool b) => b
  | Some (JNumber n) => negb (n =? 0)
  | Some (JReal text) =>
      match StringToNumber text with
      | Negative | Positive => true
      | Zero | Not_a_number => false
      end
  | Some (JString s) => negb (String.eqb s "")
  | Some _ => true
  end.

(** [value <= 0], which can throw: a comparison with NaN is false. *)
Definition le_zero (value : option JSON) : string + bool :=
  match ToNumber value with
  | inl e => inl e
  | inr (Negative | Zero) => inr true
  | inr (Positive | Not_a_number) => inr false
  end.

(** [isNaN(value)], which can throw. *)
Definition isNaN_value (value : option JSON) : string + bool :=
  match ToNumber value with
  | inl e => inl e
  | inr Not_a_number => inr true
  | inr _ => inr false
  end.

(** [value == null]. *)
Definition loosely_null (value : option JSON) : bool :=
  match value with
  | None | Some JNull => true
  | Some _ => false
  end.

(** [parseInt(value)], which can throw: the text of the value is read
    as [parseInt] reads a string. *)
Definition parseInt_value (value : option JSON) : string + JS.number :=
  match value with
  | None => inr JS.NaN
  | Some v =>
      match ToString v with
      | inl e => inl e
      | inr s => inr (JS.parseInt s)
      end
  end.

(* ===================================================================== *)
(** ** The schema of [db/Sample_Quries.sql] *)
(* ===================================================================== *)

(** [Books]: the columns that order placement reads or writes. *)
Record Book := mkBook {
  Books_BookID : Z;
  Books_Price : option Z;   (* DECIMAL(10,2) CHECK (Price >= 0) *)
  Books_Stock : option Z    (* INT CHECK (Stock >= 0) *)
}.

(** [Orders]; [OrderDate] is a time stamp and is left out. *)
Record Order := mkOrder {
  Orders_OrderID : Z;
  Orders_CustomerID : Z;
  Orders_Status : string    (* VARCHAR(50) DEFAULT 'Pending' *)
}.

Record OrderDetail := mkOrderDetail {
  OrderDetails_OrderDetailID : Z;
  OrderDetails_OrderID : Z;
  OrderDetails_BookID : Z;
  OrderDetails_Quantity : Z  (* INT CHECK (Quantity > 0) *)
}.

(** [Payments]; [PaymentDate] is left out. *)
Record Payment := mkPayment {
  Payments_PaymentID : Z;
  Payments_OrderID : Z;
  Payments_PaymentMethod : string;
  Payments_Amount : option Z  (* DECIMAL(10,2) CHECK (Amount >= 0) *)
}.

(** [OrderLog]; [LogDate] is left out. *)
Record OrderLogEntry := mkOrderLogEntry {
  OrderLog_LogID : Z;
  OrderLog_OrderID : Z;
  OrderLog_PaymentMethod : string
}.

(** The tables, with the AUTO_INCREMENT counter of each table that
    [PlaceOrder] inserts into.  [Customers] is the list of its keys. *)
Record Tables := mkTables {
  Customers : list Z;
  Books : list Book;
  Orders : list Order;
  OrderDetails : list OrderDetail;
  Payments : list Payment;
  OrderLog : list OrderLogEntry;
  next_OrderID : Z;
  next_OrderDetailID : Z;
  next_PaymentID : Z;
  next_LogID : Z
}.

(* ===================================================================== *)
(** ** Errors of the database server *)
(* ===================================================================== *)

Inductive SqlError :=
| NoReferencedRow (constraint : string)     (* 1452 *)
| CheckConstraintViolated (name : string)   (* 3819 *)
| OutOfRange (column : string)              (* 1264 *)
| DataTooLong (column : string)             (* 1406 *)
| BadField (name clause : string).          (* 1054 *)

(** [err.code] as mysql2 reports it. *)
Definition err_code (e : SqlError) : string :=
  match e with
  | NoReferencedRow _ => "ER_NO_REFERENCED_ROW_2"
  | CheckConstraintViolated _ => "ER_CHECK_CONSTRAINT_VIOLATED"
  | OutOfRange _ => "ER_WARN_DATA_OUT_OF_RANGE"
  | DataTooLong _ => "ER_DATA_TOO_LONG"
  | BadField _ _ => "ER_BAD_FIELD_ERROR"
  end.

(** The text of error 1054 for a name that the server cannot resolve in
    a clause of a statement. *)
Definition unknown_column (name clause : string) : string :=
  String.append "Unknown column '"
    (String.append name
       (String.append "' in '" (String.append clause "'"))).

(** [err.message]: the fixed text of the server's error with the name of
    the constraint or column.  (The server also names the database and
    spells the constraint out; no code reads that part.) *)
Definition err_message (e : SqlError) : string :=
  match e with
  | NoReferencedRow c =>
      String.append
        "Cannot add or update a child row: a foreign key constraint fails ("
        (String.append c ")")
  | CheckConstraintViolated n =>
      String.append "Check constraint '" (String.append n "' is violated.")
  | OutOfRange c =>
      String.append "Out of range value for column '"
        (String.append c "' at row 1")
  | DataTooLong c =>
      String.append "Data too long for column '"
        (String.append c "' at row 1")
  | BadField n clause => unknown_column n clause
  end.

(* ===================================================================== *)
(** ** Column types *)
(* ===================================================================== *)

Definition INT_MIN : Z := -2147483648.
Definition INT_MAX : Z := 2147483647.

(** Storing into an [INT] column, variable or parameter. *)
Definition coerce_INT (column : string) (v : Z) : SqlError + Z :=
  if (INT_MIN <=? v) && (v <=? INT_MAX) then inr v
  else inl (OutOfRange column).

(** Largest magnitude of a [DECIMAL(10,2)], in hundredths. *)
Definition DECIMAL_10_2_MAX : Z := 9999999999.

(** Storing into a [DECIMAL(10,2)] column or variable; NULL stays NULL. *)
Definition coerce_DECIMAL_10_2 (column : string) (v : option Z)
  : SqlError + option Z :=
  match v with
  | None => inr None
  | Some x =>
      if (- DECIMAL_10_2_MAX <=? x) && (x <=? DECIMAL_10_2_MAX)
      then inr (Some x)
      else inl (OutOfRange column)
  end.

Fixpoint all_spaces (s : string) : bool :=
  match s with
  | EmptyString => true
  | String c rest => Ascii.eqb c " " && all_spaces rest
  end.

Fixpoint take (n : nat) (s : string) : string :=
  match n, s with
  | S k, String c rest => String c (take k rest)
  | _, _ => EmptyString
  end.

Fixpoint drop (n : nat) (s : string) : string :=
  match n, s with
  | S k, String _ rest => drop k rest
  | _, _ => s
  end.

(** Storing into a [VARCHAR(50)]: a longer string is an error, unless
    everything beyond the 50th character is a space, which is cut off. *)
Definition coerce_VARCHAR_50 (column : string) (s : string)
  : SqlError + string :=
  if (String.length s <=? 50)%nat then inr s
  else if all_spaces (drop 50 s) then inr (take 50 s)
  else inl (DataTooLong column).

(** String equality under the default collation (no case distinction). *)
Definition collate_eqb (a b : string) : bool :=
  String.eqb (JS.toLowerCase a) (JS.toLowerCase b).

(** [x IN (l)] on strings. *)
Definition sql_IN (x : string) (l : list string) : bool :=
  existsb (collate_eqb x) l.

(** [CHECK (c >= 0)] on a nullable number: NULL does not violate it. *)
Definition check_nonneg (v : option Z) : bool :=
  match v with
  | None => true
  | Some x => 0 <=? x
  end.

(* ===================================================================== *)
(** ** Statements on the tables *)
(* ===================================================================== *)

Definition with_Orders (t : Tables) (rows : list Order) (next : Z) : Tables :=
  mkTables (Customers t) (Books t) rows (OrderDetails t) (Payments t)
           (OrderLog t) next (next_OrderDetailID t) (next_PaymentID t)
           (next_LogID t).

Definition with_OrderDetails (t : Tables) (rows : list OrderDetail) (next : Z)
  : Tables :=
  mkTables (Customers t) (Books t) (Orders t) rows (Payments t)
           (OrderLog t) (next_OrderID t) next (next_PaymentID t)
           (next_LogID t).

Definition with_Payments (t : Tables) (rows : list Payment) (next : Z)
  : Tables :=
  mkTables (Customers t) (Books t) (Orders t) (OrderDetails t) rows
           (OrderLog t) (next_OrderID t) (next_OrderDetailID t) next
           (next_LogID t).

Definition with_OrderLog (t : Tables) (rows : list OrderLogEntry) (next : Z)
  : Tables :=
  mkTables (Customers t) (Books t) (Orders t) (OrderDetails t) (Payments t)
           rows (next_OrderID t) (next_OrderDetailID t) (next_PaymentID t)
           next.

Definition with_Books (t : Tables) (rows : list Book) : Tables :=
  mkTables (Customers t) rows (Orders t) (OrderDetails t) (Payments t)
           (OrderLog t) (next_OrderID t) (next_OrderDetailID t)
           (next_PaymentID t) (next_LogID t).

Definition has_customer (t : Tables) (c : Z) : bool :=
  existsb (Z.eqb c) (Customers t).

Definition has_book (t : Tables) (b : Z) : bool :=
  existsb (fun r => Books_BookID r =? b) (Books t).

Definition has_order (t : Tables) (o : Z) : bool :=
  existsb (fun r => Orders_OrderID r =? o) (Orders t).

(** The values of [Payments.PaymentMethod] that its CHECK admits. *)
Definition Payments_methods : list string :=
  ["SadaPay"; "EasyPaisa"; "JazzCash"; "Card"; "Cash"].

(** The key that an AUTO_INCREMENT column of type INT takes from its
    counter: a counter that has run past the type gives no key, and the
    INSERT fails before its row is checked against the foreign keys.
    (The error that the server raises then, which depends on its
    storage engine, is stood for by the one of a value out of range; no
    handler tells one from the other.) *)
Definition next_key (column : string) (counter : Z) : SqlError + Z :=
  coerce_INT column counter.

(** The tables after an INSERT has taken a key from the counter of its
    table and stored no row. *)
Definition skip_OrderID (t : Tables) : Tables :=
  with_Orders t (Orders t) (next_OrderID t + 1).

Definition skip_OrderDetailID (t : Tables) : Tables :=
  with_OrderDetails t (OrderDetails t) (next_OrderDetailID t + 1).

Definition skip_PaymentID (t : Tables) : Tables :=
  with_Payments t (Payments t) (next_PaymentID t + 1).

Definition skip_LogID (t : Tables) : Tables :=
  with_OrderLog t (OrderLog t) (next_LogID t + 1).

(** [INSERT INTO Orders (CustomerID) VALUES (c)]; the result is the new
    key, which [LAST_INSERT_ID()] reads afterwards.  [Status] takes its
    default. *)
Definition insert_Orders (c : Z) (t : Tables) : SqlError + (Z * Tables) :=
  match next_key "OrderID" (next_OrderID t) with
  | inl e => inl e
  | inr id =>
      if has_customer t c then
        inr (id, with_Orders t (Orders t ++ [mkOrder id c "Pending"]) (id + 1))
      else inl (NoReferencedRow "Orders_ibfk_1")
  end.

(** [INSERT INTO OrderDetails (OrderID, BookID, Quantity) VALUES (o, b, q)]. *)
Definition insert_OrderDetails (o b q : Z) (t : Tables)
  : SqlError + (unit * Tables) :=
  if negb (0 <? q) then inl (CheckConstraintViolated "OrderDetails_chk_1")
  else
    match next_key "OrderDetailID" (next_OrderDetailID t) with
    | inl e => inl e
    | inr id =>
        if negb (has_order t o)
        then inl (NoReferencedRow "OrderDetails_ibfk_1")
        else if negb (has_book t b)
        then inl (NoReferencedRow "OrderDetails_ibfk_2")
        else
          inr (tt, with_OrderDetails t
                     (OrderDetails t ++ [mkOrderDetail id o b q]) (id + 1))
    end.

(** One row of
    [UPDATE Books SET Stock = Stock - q WHERE BookID = b AND Stock >= q].
    A NULL stock does not satisfy [Stock >= q]. *)
Definition decrement_stock (b q : Z) (r : Book) : Book :=
  match Books_Stock r with
  | Some st =>
      if (Books_BookID r =? b) && (q <=? st)
      then mkBook (Books_BookID r) (Books_Price r) (Some (st - q))
      else r
  | None => r
  end.

(** The conditional decrement.  The statement succeeds whether or not a
    row matched; the procedure does not read the number of rows.  (The
    order line was accepted before, so [q] is positive here and the new
    stock lies between 0 and the old one.) *)
Definition update_Books_Stock (b q : Z) (t : Tables)
  : SqlError + (unit * Tables) :=
  inr (tt, with_Books t (map (decrement_stock b q) (Books t))).

(** [SELECT Price INTO v FROM Books WHERE BookID = b]; the variable stays
    NULL when no row matches. *)
Definition select_Price (b : Z) (t : Tables) : option Z :=
  match find (fun r => Books_BookID r =? b) (Books t) with
  | Some r => Books_Price r
  | None => None
  end.

Definition select_Stock (b : Z) (t : Tables) : option Z :=
  match find (fun r => Books_BookID r =? b) (Books t) with
  | Some r => Books_Stock r
  | None => None
  end.

(** [price * quantity] on a nullable price. *)
Definition sql_mul (price : option Z) (q : Z) : option Z :=
  option_map (fun p => p * q) price.

(** [INSERT INTO Payments (OrderID, PaymentMethod, Amount) VALUES (o, m, a)]. *)
Definition insert_Payments (o : Z) (m : string) (a : option Z) (t : Tables)
  : SqlError + (unit * Tables) :=
  if negb (sql_IN m Payments_methods)
  then inl (CheckConstraintViolated "Payments_chk_1")
  else if negb (check_nonneg a)
  then inl (CheckConstraintViolated "Payments_chk_2")
  else
    match next_key "PaymentID" (next_PaymentID t) with
    | inl e => inl e
    | inr id =>
        if negb (has_order t o) then inl (NoReferencedRow "Payments_ibfk_1")
        else
          inr (tt, with_Payments t (Payments t ++ [mkPayment id o m a])
                     (id + 1))
    end.

(** [INSERT INTO OrderLog (OrderID, PaymentMethod) VALUES (o, m)]. *)
Definition insert_OrderLog (o : Z) (m : string) (t : Tables)
  : SqlError + (unit * Tables) :=
  match next_key "LogID" (next_LogID t) with
  | inl e => inl e
  | inr id =>
      if negb (has_order t o) then inl (NoReferencedRow "OrderLog_ibfk_1")
      else
        inr (tt, with_OrderLog t (OrderLog t ++ [mkOrderLogEntry id o m])
                   (id + 1))
  end.

(** One row of [UPDATE Orders SET Status = s WHERE OrderID = o]. *)
Definition set_status (o : Z) (s : string) (r : Order) : Order :=
  if Orders_OrderID r =? o
  then mkOrder (Orders_OrderID r) (Orders_CustomerID r) s
  else r.

(** [UPDATE Orders SET Status = s WHERE OrderID = o].  The new value is
    stored, and checked against the column, only in a row that matches. *)
Definition update_Orders_Status (s : string) (o : Z) (t : Tables)
  : SqlError + (unit * Tables) :=
  if has_order t o then
    match coerce_VARCHAR_50 "Status" s with
    | inl e => inl e
    | inr s' =>
        inr (tt, with_Orders t (map (set_status o s') (Orders t))
                   (next_OrderID t))
    end
  else inr (tt, t).

(* ===================================================================== *)
(** ** A connection and its transaction *)
(* ===================================================================== *)

(** A connection sees the committed tables, or the working copy of the
    transaction it has open. *)
Record Session := mkSession {
  committed : Tables;
  open_txn : option Tables
}.

Definition view (s : Session) : Tables :=
  match open_txn s with
  | Some w => w
  | None => committed s
  end.

(** Code that runs on a connection and may fail: the connection is
    threaded through, and a failure keeps the rows of the connection as
    they were when the failing statement started. *)
Definition M (A : Type) : Type := Session -> (SqlError + A) * Session.

Definition ret {A : Type} (a : A) : M A := fun s => (inr a, s).

Definition bind {A B : Type} (m : M A) (k : A -> M B) : M B :=
  fun s =>
    match m s with
    | (inr a, s') => k a s'
    | (inl e, s') => (inl e, s')
    end.

Definition throw {A : Type} (e : SqlError) : M A := fun s => (inl e, s).

Declare Scope sql_scope.
Delimit Scope sql_scope with sql.
Notation "x <- m ;; k" := (bind m (fun x => k))
  (at level 61, m at next level, right associativity) : sql_scope.
Notation "m ;;; k" := (bind m (fun _ => k))
  (at level 61, right associativity) : sql_scope.

(** A data statement: it works on what the connection sees; inside a
    transaction it changes the working copy, outside one it commits at
    once (autocommit). *)
Definition exec {A : Type} (stmt : Tables -> SqlError + (A * Tables)) : M A :=
  fun s =>
    match stmt (view s) with
    | inl e => (inl e, s)
    | inr (a, t') =>
        (inr a,
         match open_txn s with
         | Some _ => mkSession (committed s) (Some t')
         | None => mkSession t' None
         end)
    end.

(** The errors that the storage engine raises for a row, after the key
    of the row has been taken from the counter. *)
Definition key_taken (e : SqlError) : bool :=
  match e with
  | NoReferencedRow _ => true
  | _ => false
  end.

(** An INSERT into a table with an AUTO_INCREMENT key.  The CHECK
    constraints are tested first, then the key is taken, then the
    storage engine tests the foreign keys of the row.  A key that was
    taken is not handed out again: when a foreign key refuses the row,
    the statement stores nothing but the counter has moved on
    ([skip]). *)
Definition exec_insert {A : Type} (skip : Tables -> Tables)
    (stmt : Tables -> SqlError + (A * Tables)) : M A :=
  fun s =>
    match stmt (view s) with
    | inl e =>
        (inl e,
         if key_taken e then
           match open_txn s with
           | Some _ => mkSession (committed s) (Some (skip (view s)))
           | None => mkSession (skip (view s)) None
           end
         else s)
    | inr (a, t') =>
        (inr a,
         match open_txn s with
         | Some _ => mkSession (committed s) (Some t')
         | None => mkSession t' None
         end)
    end.

(** A query. *)
Definition query {A : Type} (q : Tables -> A) : M A :=
  fun s => (inr (q (view s)), s).

(** Assignment to a variable or parameter of a routine. *)
Definition coerce {A : Type} (r : SqlError + A) : M A :=
  fun s => (r, s).

(** [START TRANSACTION]: commits the transaction that is open, if any,
    and opens a new one. *)
Definition START_TRANSACTION : M unit :=
  fun s => (inr tt, mkSession (view s) (Some (view s))).

(** [COMMIT]. *)
Definition COMMIT : M unit :=
  fun s => (inr tt, mkSession (view s) None).

(* ===================================================================== *)
(** ** The stored procedure [PlaceOrder] *)
(* ===================================================================== *)

Open Scope sql_scope.

Definition PlaceOrder (p_CustomerID p_BookID p_Quantity : Z)
    (p_PaymentMethod : string) : M (Z * option Z) :=
  p_CustomerID <- coerce (coerce_INT "p_CustomerID" p_CustomerID) ;;
  p_BookID <- coerce (coerce_INT "p_BookID" p_BookID) ;;
  p_Quantity <- coerce (coerce_INT "p_Quantity" p_Quantity) ;;
  p_PaymentMethod <-
    coerce (coerce_VARCHAR_50 "p_PaymentMethod" p_PaymentMethod) ;;
  START_TRANSACTION ;;;
  v_OrderID <- exec_insert skip_OrderID (insert_Orders p_CustomerID) ;;
  exec_insert skip_OrderDetailID
    (insert_OrderDetails v_OrderID p_BookID p_Quantity) ;;;
  exec (update_Books_Stock p_BookID p_Quantity) ;;;
  v_BookPrice <- query (select_Price p_BookID) ;;
  v_TotalAmount <-
    coerce (coerce_DECIMAL_10_2 "v_TotalAmount"
              (sql_mul v_BookPrice p_Quantity)) ;;
  exec_insert skip_PaymentID
    (insert_Payments v_OrderID p_PaymentMethod v_TotalAmount) ;;;
  exec_insert skip_LogID (insert_OrderLog v_OrderID p_PaymentMethod) ;;;
  COMMIT ;;;
  ret (v_OrderID, v_TotalAmount).

(* ===================================================================== *)
(** ** The Express handlers *)
(* ===================================================================== *)

(** A JSON response: the status code and the members of the body object
    (every member the order handlers send is a string). *)
Record Response := mkResponse {
  status : Z;
  body : list (string * string)
}.

(** [res.status(code).json(obj)]. *)
Definition json (code : Z) (obj : list (string * string)) : Response :=
  mkResponse code obj.

(** [obj[key]]; [None] when the object has no such member. *)
Fixpoint member (key : string) (obj : list (string * string))
  : option string :=
  match obj with
  | [] => None
  | (k, v) :: rest => if String.eqb k key then Some v else member key rest
  end.

(** The members of the body of [POST /api/orders] that the handler
    reads; [None] is a member that the body does not have. *)
Record OrderRequest := mkOrderRequest {
  customerId : option JSON;
  items : option JSON;
  paymentMethod : option JSON
}.

(** Keys whose string values the lower-casing middleware leaves alone. *)
Definition exceptions : list string :=
  ["password"; "adminpass"; "format"; "paymentmethod"; "status";
   "email"; "isbn"].

(** The middleware on one string member of the body. *)
Definition lowercase_member (key value : string) : string :=
  if negb (JS.array_includes exceptions (JS.toLowerCase key))
  then JS.toLowerCase value
  else value.

(** The middleware on one member of the body: only a string changes. *)
Definition lowercase_value (key : string) (value : option JSON)
  : option JSON :=
  match value with
  | Some (JString s) => Some (JString (lowercase_member key s))
  | other => other
  end.

(** The middleware on an order request. *)
Definition lowercase_body (req : OrderRequest) : OrderRequest :=
  mkOrderRequest (lowercase_value "customerId" (customerId req))
                 (lowercase_value "items" (items req))
                 (lowercase_value "paymentMethod" (paymentMethod req)).

Definition validPaymentMethods : list string :=
  ["Cash"; "Card"; "JazzCash"; "EasyPaisa"; "SadaPay"].

(** [!items || !Array.isArray(items) || items.length === 0]. *)
Definition no_items (x : option JSON) : bool :=
  match x with
  | Some (JArray (_ :: _)) => false
  | _ => true
  end.

(** [!item.bookId || !item.quantity || item.quantity <= 0], which
    throws on an item that is [null]. *)
Definition invalid_item (item : JSON) : string + bool :=
  match property item "bookId" with
  | inl e => inl e
  | inr bookId =>
      if negb (truthy bookId) then inr true
      else
        match property item "quantity" with
        | inl e => inl e
        | inr quantity =>
            if negb (truthy quantity) then inr true
            else le_zero quantity
        end
  end.

(** The first loop of the handler: it returns at the first item that is
    invalid and throws at the first item whose test throws. *)
Fixpoint some_invalid (its : list JSON) : string + bool :=
  match its with
  | [] => inr false
  | item :: rest =>
      match invalid_item item with
      | inl e => inl e
      | inr true => inr true
      | inr false => some_invalid rest
      end
  end.

(** What the driver writes for a number in the place of a [?] of a
    CALL: the name [NaN] or [Infinity], which the server cannot resolve
    ([inl]), or a number.  A number beyond 2^53 is stood for by a value
    next to the range of INT: the procedures store their arguments into
    INT parameters and do nothing else with a value that does not
    fit. *)
Definition argument (x : JS.number) : string + Z :=
  match x with
  | JS.NaN => inl "NaN"
  | JS.Infinity _ => inl "Infinity"
  | JS.Int z => inr z
  | JS.Huge negative => inr (if negative then INT_MIN - 1 else INT_MAX + 1)
  end.

(** [pool.query('CALL PlaceOrder(?, ?, ?, ?)', [c, b, q, pm])]; the
    result set of the procedure is not used. *)
Definition CALL_PlaceOrder (c b q : JS.number) (pm : string) : M unit :=
  match argument c, argument b, argument q with
  | inr c, inr b, inr q => PlaceOrder c b q pm ;;; ret tt
  | inl name, _, _ => throw (BadField name "field list")
  | inr _, inl name, _ => throw (BadField name "field list")
  | inr _, inr _, inl name => throw (BadField name "field list")
  end.

(** What a handler catches: a [TypeError] of its own code, or an error
    of the database. *)
Inductive Thrown :=
| TypeError (message : string)
| Refused (e : SqlError).

(** [parseInt(customerId)], [parseInt(item.bookId)] and
    [parseInt(item.quantity)], in this order. *)
Definition call_arguments (customerId : option JSON) (item : JSON)
  : string + (JS.number * JS.number * JS.number) :=
  match parseInt_value customerId with
  | inl e => inl e
  | inr c =>
      match property item "bookId" with
      | inl e => inl e
      | inr bookId =>
          match parseInt_value bookId with
          | inl e => inl e
          | inr b =>
              match property item "quantity" with
              | inl e => inl e
              | inr quantity =>
                  match parseInt_value quantity with
                  | inl e => inl e
                  | inr q => inr (c, b, q)
                  end
              end
          end
      end
  end.

(** The second loop of the handler: one call per item, in order; the
    first failure leaves the loop. *)
Fixpoint place_items (customerId : option JSON) (pm : string)
    (its : list JSON) (s : Session) : (Thrown + unit) * Session :=
  match its with
  | [] => (inr tt, s)
  | item :: rest =>
      match call_arguments customerId item with
      | inl message => (inl (TypeError message), s)
      | inr (c, b, q) =>
          match CALL_PlaceOrder c b q pm s with
          | (inl e, s') => (inl (Refused e), s')
          | (inr _, s') => place_items customerId pm rest s'
          end
      end
  end.

(** [err.message] and [err.code]. *)
Definition thrown_message (x : Thrown) : string :=
  match x with
  | TypeError message => message
  | Refused e => err_message e
  end.

Definition thrown_code (x : Thrown) : option string :=
  match x with
  | TypeError _ => None
  | Refused e => Some (err_code e)
  end.

(** The [catch] block of [POST /api/orders]. *)
Definition order_error (x : Thrown) : Response :=
  if JS.includes (thrown_message x) "insufficient stock" ||
     match thrown_code x with
     | Some code => String.eqb code "ER_ROW_IS_REFERENCED_2"
     | None => false
     end
  then json 400 [("error", "Insufficient stock or data conflict.")]
  else json 500 [("error", "Failed to place order");
                 ("details", thrown_message x)].

Definition required_fields_error : Response :=
  json 400
    [("error", "Customer ID, items array, and payment method are required")].

Definition payment_method_error : Response :=
  json 400
    [("error",
      String.append "Invalid payment method. Must be one of: "
        (JS.join ", " validPaymentMethods))].

(** [app.post('/api/orders', ...)] after the body has been parsed.  A
    payment method that is not a string is not in the list. *)
Definition post_orders_handler (pool : option Session) (req : OrderRequest)
  : Response * option Session :=
  match pool with
  | None => (json 503 [("error", "Database not connected")], None)
  | Some s =>
      if negb (truthy (customerId req)) || no_items (items req) ||
         negb (truthy (paymentMethod req))
      then (required_fields_error, Some s)
      else
        match items req, paymentMethod req with
        | Some (JArray its), Some (JString pm) =>
            if negb (JS.array_includes validPaymentMethods pm)
            then (payment_method_error, Some s)
            else
              match some_invalid its with
              | inl message => (order_error (TypeError message), Some s)
              | inr true =>
                  (json 400
                     [("error",
                       "Each item must have bookId and quantity > 0")],
                   Some s)
              | inr false =>
                  match place_items (customerId req) pm its s with
                  | (inr _, s') =>
                      (json 201 [("message", "Order placed successfully")],
                       Some s')
                  | (inl e, s') => (order_error e, Some s')
                  end
              end
        | Some (JArray _), _ => (payment_method_error, Some s)
        | _, _ => (required_fields_error, Some s)
        end
  end.

(** [POST /api/orders]: the middleware, then the handler. *)
Definition post_orders (pool : option Session) (req : OrderRequest)
  : Response * option Session :=
  post_orders_handler pool (lowercase_body req).

Definition status_fields_error : Response :=
  json 400 [("error", "Valid order ID and status are required")].

(** [pool.query('UPDATE Orders SET Status = ? WHERE OrderID = ?',
    [status, orderId])].  No key equals a number beyond 2^53, and the
    names [NaN] and [Infinity] are not resolved. *)
Definition UPDATE_Orders_Status (status : string) (orderId : JS.number)
  : M unit :=
  match orderId with
  | JS.Int o => exec (update_Orders_Status status o)
  | JS.Huge _ => ret tt
  | JS.NaN => throw (BadField "NaN" "where clause")
  | JS.Infinity _ => throw (BadField "Infinity" "where clause")
  end.

(** [PUT /api/orders/:id/status] with path parameter [id] and the
    [status] member of the body, a string or a missing member ([status]
    is one of the middleware's exceptions and reaches the handler as
    sent). *)
Definition put_order_status (pool : option Session) (id : string)
    (status : option string) : Response * option Session :=
  match pool with
  | None => (json 503 [("error", "Database not connected")], None)
  | Some s =>
      let orderId := JS.parseInt id in
      if JS.isNaN orderId || JS.not_str status
      then (status_fields_error, Some s)
      else
        match status with
        | Some status =>
            match UPDATE_Orders_Status status orderId s with
            | (inr _, s') =>
                (json 200 [("message", "Order status updated successfully")],
                 Some s')
            | (inl e, s') =>
                (json 500 [("error", "Failed to update order status");
                           ("details", err_message e)],
                 Some s')
            end
        | None => (status_fields_error, Some s)
        end
  end.

(* ===================================================================== *)
(** ** A database to run the code on *)
(* ===================================================================== *)

(** The customers, books and orders that the seed statements of the
    script insert, with the payments and log entries of those orders.
    (The seed's three order lines name a book 4 that the script never
    inserts, so that statement is refused and [OrderDetails] is empty.) *)
Definition seed : Tables :=
  mkTables
    [1; 2; 3]
    [mkBook 1 (Some 120000) (Some 30); mkBook 2 (Some 90000) (Some 100)]
    [mkOrder 1 1 "Completed"; mkOrder 2 2 "Pending"; mkOrder 3 3 "Completed"]
    []
    [mkPayment 1 1 "Card" (Some 250000);
     mkPayment 2 2 "JazzCash" (Some 240000);
     mkPayment 3 3 "SadaPay" (Some 90000)]
    [mkOrderLogEntry 1 1 "Card"; mkOrderLogEntry 2 2 "JazzCash";
     mkOrderLogEntry 3 3 "SadaPay"]
    4 4 4 4.

(** A fresh connection to the seeded database. *)
Definition seed_session : Session := mkSession seed None.

(** An item [{bookId: b, quantity: q}] with two integers. *)
Definition item (b q : Z) : JSON :=
  JObject [("bookId", JNumber b); ("quantity", JNumber q)].

(** A request [{customerId: c, items: its, paymentMethod: pm}]. *)
Definition order (c : Z) (its : list JSON) (pm : string) : OrderRequest :=
  mkOrderRequest (Some (JNumber c)) (Some (JArray its)) (Some (JString pm)).

(** The connection after a request. *)
Definition after (req : OrderRequest) (s : Session) : Session :=
  match snd (post_orders (Some s) req) with
  | Some s' => s'
  | None => s
  end.

(** The scenario of the specification: customer 1 orders one copy of
    the book priced at 900.00. *)
Definition scenario : OrderRequest := order 1 [item 2 1] "Cash".



(** A request for 101 copies of book 2, of which 100 are in stock. *)
Definition over_stock : OrderRequest := order 1 [item 2 101] "Cash".

(** The connection after that request. *)
Definition over_stock_session : Session :=
  Eval vm_compute in after over_stock seed_session.

(** A request for a book that does not exist. *)
Definition unknown_book : OrderRequest := order 1 [item 999 1] "Cash".

(** The connection after that request, and after the scenario that
    follows it on the same connection. *)
Definition after_unknown_book : Session :=
  Eval vm_compute in after unknown_book seed_session.

Definition after_next_order : Session :=
  Eval vm_compute in after scenario after_unknown_book.




(** The scenario with half a copy. *)
Definition half_a_copy : OrderRequest :=
  order 1
    [JObject [("bookId", JNumber 2); ("quantity", JReal "0.5")]] "Cash".

(** The seeded database with a book whose price is the largest that the
    column holds, 99999999.99, and a connection to it. *)
Definition costly : Tables :=
  with_Books seed
    [mkBook 1 (Some 120000) (Some 30); mkBook 2 (Some 9999999999) (Some 100)].

Definition costly_session : Session := mkSession costly None.

(** Two copies of that book. *)
Definition two_copies : OrderRequest := order 1 [item 2 2] "Cash".

(** The seeded database when the counter of [Orders] has given its last
    key, and a connection to it. *)
Definition no_key_left : Tables :=
  with_Orders seed (Orders seed) (INT_MAX + 1).

Definition no_key_left_session : Session := mkSession no_key_left None.

(** The seeded database with a customer and a book that have the key 0,
    a connection to it, and the scenario for that customer and for that
    book. *)
Definition zero_keys : Tables :=
  mkTables [0; 1; 2; 3]
    (mkBook 0 (Some 50000) (Some 10) :: Books seed)
    (Orders seed) (OrderDetails seed) (Payments seed) (OrderLog seed)
    4 4 4 4.

Definition zero_keys_session : Session := mkSession zero_keys None.

Definition customer_zero : OrderRequest := order 0 [item 2 1] "Cash".

Definition book_zero : OrderRequest := order 1 [item 0 1] "Cash".

(** Tables, of unbounded integers, with a customer whose key is beyond
    INT, a connection to them, and the scenario for that customer. *)
Definition wide_key : Tables :=
  mkTables [1; 2; 3; 3000000000]
    (Books seed) (Orders seed) (OrderDetails seed) (Payments seed)
    (OrderLog seed) 4 4 4 4.

Definition wide_key_session : Session := mkSession wide_key None.

Definition customer_wide : OrderRequest :=
  order 3000000000 [item 2 1] "Cash".


(** A one followed by [n] zeros. *)
Fixpoint zeros (n : nat) : string :=
  match n with
  | O => EmptyString
  | S k => String "0" (zeros k)
  end.

(** An id of 310 digits. *)
Definition long_id : string := String "1" (zeros 309).

(* ===================================================================== *)
(** ** What the tables hold about one order *)
(* ===================================================================== *)

Definition details_of (t : Tables) (o : Z) : list OrderDetail :=
  filter (fun d => OrderDetails_OrderID d =? o) (OrderDetails t).

Definition payments_of (t : Tables) (o : Z) : list Payment :=
  filter (fun p => Payments_OrderID p =? o) (Payments t).

Definition log_of (t : Tables) (o : Z) : list OrderLogEntry :=
  filter (fun l => OrderLog_OrderID l =? o) (OrderLog t).

(** [SUM(...)]: NULL values are skipped; the sum of no value is NULL. *)
Fixpoint sql_SUM (l : list (option Z)) : option Z :=
  match l with
  | [] => None
  | None :: rest => sql_SUM rest
  | Some x :: rest =>
      match sql_SUM rest with
      | Some y => Some (x + y)
      | None => Some x
      end
  end.

(** The specification's side of the amount of an order.  The unit price
    of a book in [prices], in hundredths; [None] when [prices] has no
    such book or the book has no price. *)
Definition unit_price (prices : Tables) (b : Z) : option Z :=
  match filter (fun r => Books_BookID r =? b) (Books prices) with
  | r :: _ => Books_Price r
  | [] => None
  end.

(** Unit price times quantity for one order line. *)
Definition line_amount (prices : Tables) (d : OrderDetail) : option Z :=
  match unit_price prices (OrderDetails_BookID d) with
  | Some price => Some (price * OrderDetails_Quantity d)
  | None => None
  end.

(** The sum of a list of line amounts; [None] when one of them is. *)
Fixpoint sum_amounts (l : list (option Z)) : option Z :=
  match l with
  | [] => Some 0
  | x :: rest =>
      match x, sum_amounts rest with
      | Some a, Some b => Some (a + b)
      | _, _ => None
      end
  end.

(** The sum over the lines of order [o] in [t] of unit price times
    quantity, at the prices of [prices]. *)
Definition order_amount (prices t : Tables) (o : Z) : option Z :=
  sum_amounts (map (line_amount prices) (details_of t o)).

(** The order has exactly one payment, and its amount is the sum over
    the order's lines of unit price times quantity, at the prices of
    [prices]. *)
Definition amount_matches (prices t : Tables) (o : Z) : Prop :=
  exists p a, payments_of t o = [p] /\
              Payments_Amount p = Some a /\
              order_amount prices t o = Some a.

(** What the schema enforces on the tables: keys of [Orders] come from
    its counter, the foreign keys into [Orders] hold, and no price is
    negative. *)
Definition well_formed (t : Tables) : bool :=
  forallb (fun o => Orders_OrderID o <? next_OrderID t) (Orders t) &&
  forallb (fun d => has_order t (OrderDetails_OrderID d)) (OrderDetails t) &&
  forallb (fun p => has_order t (Payments_OrderID p)) (Payments t) &&
  forallb (fun l => has_order t (OrderLog_OrderID l)) (OrderLog t) &&
  forallb (fun b => check_nonneg (Books_Price b)) (Books t).

(** The types of the columns that a request names: the keys of
    [Customers] and of [Books] and the stocks are INT values. *)
Definition in_INT (v : Z) : bool := (INT_MIN <=? v) && (v <=? INT_MAX).

Definition INT_columns (t : Tables) : bool :=
  forallb in_INT (Customers t) &&
  forallb (fun r => in_INT (Books_BookID r) &&
                    match Books_Stock r with
                    | Some st => in_INT st
                    | None => true
                    end)
          (Books t).

(** Each of the four counters can give [n] more keys. *)
Definition keys_left (t : Tables) (n : nat) : bool :=
  forallb (fun counter => in_INT counter &&
                          (counter + Z.of_nat n - 1 <=? INT_MAX))
          [next_OrderID t; next_OrderDetailID t; next_PaymentID t;
           next_LogID t].

(** The tables after a call of [PlaceOrder] that ran to its end. *)
Definition placed (t : Tables) (c b q : Z) (pm : string) (total : option Z)
  : Tables :=
  mkTables
    (Customers t)
    (map (decrement_stock b q) (Books t))
    (Orders t ++ [mkOrder (next_OrderID t) c "Pending"])
    (OrderDetails t ++
       [mkOrderDetail (next_OrderDetailID t) (next_OrderID t) b q])
    (Payments t ++ [mkPayment (next_PaymentID t) (next_OrderID t) pm total])
    (OrderLog t ++ [mkOrderLogEntry (next_LogID t) (next_OrderID t) pm])
    (next_OrderID t + 1) (next_OrderDetailID t + 1)
    (next_PaymentID t + 1) (next_LogID t + 1).

(** A valid item of the specification on tables [t]: an object whose
    [bookId] is the key, other than 0, of a book and whose [quantity] is
    an integer above 0 that the stock of the book covers, with an amount
    that fits [DECIMAL(10,2)]. *)
Definition orderable (t : Tables) (it : JSON) : bool :=
  match it with
  | JObject members =>
      match own_member "bookId" members, own_member "quantity" members with
      | Some (JNumber b), Some (JNumber q) =>
          negb (b =? 0) && (0 <? q) && has_book t b &&
          match select_Stock b t with
          | Some st => q <=? st
          | None => false
          end &&
          match unit_price t b with
          | Some price => price * q <=? DECIMAL_10_2_MAX
          | None => true
          end
      | _, _ => false
      end
  | _ => false
  end.

(** An item that [PlaceOrder] accepts on tables [t], whatever the stock
    is: as [orderable], with a quantity in the range of INT in the place
    of one that the stock covers. *)
Definition placeable (t : Tables) (it : JSON) : bool :=
  match it with
  | JObject members =>
      match own_member "bookId" members, own_member "quantity" members with
      | Some (JNumber b), Some (JNumber q) =>
          negb (b =? 0) && (0 <? q) && in_INT b && (q <=? INT_MAX) &&
          has_book t b &&
          match unit_price t b with
          | Some price => price * q <=? DECIMAL_10_2_MAX
          | None => true
          end
      | _, _ => false
      end
  | _ => false
  end.




(** The payments and log entries a connection holds are those of [s]
    or carry the method [pm]. *)
Definition methods_from (s : Session) (pm : string) (t : Tables) : Prop :=
  (forall p, In p (Payments t) ->
     In p (Payments (committed s)) \/ In p (Payments (view s)) \/
     Payments_PaymentMethod p = pm) /\
  (forall l, In l (OrderLog t) ->
     In l (OrderLog (committed s)) \/ In l (OrderLog (view s)) \/
     OrderLog_PaymentMethod l = pm).

(** Code that leaves what the connection sees well formed, whether it
    succeeds or fails. *)
Definition keeps_well_formed {A : Type} (m : M A) : Prop :=
  forall s r s',
    m s = (r, s') ->
    well_formed (view s) = true -> well_formed (view s') = true.

(* ===================================================================== *)
(** ** Letter case of the strings in requests and answers *)
(* ===================================================================== *)

(** [c.toUpperCase()] on one ASCII character. *)
Definition upper_ascii (c : ascii) : ascii :=
  let n := nat_of_ascii c in
  if ((97 <=? n) && (n <=? 122))%nat then ascii_of_nat (n - 32) else c.

(** [s.split(' ')]: the pieces between the spaces; a string with no
    space, the empty string included, gives one piece. *)
Fixpoint split_spaces (s : string) : list string :=
  match s with
  | EmptyString => [EmptyString]
  | String c rest =>
      if Ascii.eqb c " " then EmptyString :: split_spaces rest
      else
        match split_spaces rest with
        | w :: ws => String c w :: ws
        | [] => [String c EmptyString]
        end
  end.

(** [word.charAt(0).toUpperCase() + word.slice(1)]. *)
Definition capitalize (word : string) : string :=
  match word with
  | EmptyString => EmptyString
  | String c rest => String (upper_ascii c) rest
  end.

(** [toTitleCase(str)] on a string (any other value is returned as it
    is, and so is the empty string). *)
Definition toTitleCase (str : string) : string :=
  if String.eqb str "" then str
  else JS.join " " (map capitalize (split_spaces (JS.toLowerCase str))).

(** [s.endsWith(suffix)]. *)
Definition endsWith (s suffix : string) : bool :=
  let n := String.length s in
  let k := String.length suffix in
  (k <=? n)%nat && String.eqb (drop (n - k) s) suffix.

Definition titleCaseExceptions : list string :=
  ["password"; "adminpass"; "email"; "isbn"; "bookcover";
   "format"; "paymentmethod"; "status"; "language"; "code";
   "timestamp"; "date"; "createddate"; "orderdate"; "publicationdate";
   "paymentdate"; "lastlogindate"; "updateddate";
   "url"; "uri"; "path"; "href"].

(** [isExceptionKey] for the key [key]. *)
Definition isExceptionKey (key : string) : bool :=
  let lowerKey := JS.toLowerCase key in
  JS.array_includes titleCaseExceptions lowerKey ||
  endsWith lowerKey "id" || endsWith lowerKey "url" ||
  endsWith lowerKey "uri" || endsWith lowerKey "path".

(** [\d{n}] at the head of [s]: what follows the [n] digits. *)
Fixpoint match_digits (n : nat) (s : string) : option string :=
  match n, s with
  | O, _ => Some s
  | S k, String c rest => if is_digit c then match_digits k rest else None
  | S _, EmptyString => None
  end.

(** One given character at the head of [s]. *)
Definition match_char (c : ascii) (s : string) : option string :=
  match s with
  | String d rest => if Ascii.eqb c d then Some rest else None
  | EmptyString => None
  end.

(** [\s] at the head of [s]: one character of white space, of one
    byte or more. *)
Definition match_space (s : string) : option string :=
  match s with
  | String c1 rest1 =>
      if JS.is_space c1 then Some rest1
      else
        match rest1 with
        | String c2 rest2 =>
            if JS.is_space2 c1 c2 then Some rest2
            else
              match rest2 with
              | String c3 rest3 =>
                  if JS.is_space3 c1 c2 c3 then Some rest3 else None
              | EmptyString => None
              end
        | EmptyString => None
        end
  | EmptyString => None
  end.

Definition and_then {A B : Type} (x : option A) (f : A -> option B)
  : option B :=
  match x with
  | Some a => f a
  | None => None
  end.

(** [\d{2}:\d{2}:\d{2}] at the head of [s]. *)
Definition match_time (s : string) : option string :=
  and_then (match_digits 2 s) (fun s =>
  and_then (match_char ":" s) (fun s =>
  and_then (match_digits 2 s) (fun s =>
  and_then (match_char ":" s) (fun s =>
  match_digits 2 s)))).

(** [(\.\d{3})?] followed by the end of the string or, when [zone] is
    set, by [Z?] and the end of the string. *)
Definition match_fraction_end (zone : bool) (s : string) : bool :=
  let at_end (r : string) :=
    String.eqb r "" || (zone && String.eqb r "Z") in
  at_end s ||
  match and_then (match_char "." s) (match_digits 3) with
  | Some r => at_end r
  | None => false
  end.

(** [dateRegex.test(s)] for
    [/^\d{4}-\d{2}-\d{2}(T\d{2}:\d{2}:\d{2}(\.\d{3})?Z?|\s\d{2}:\d{2}:\d{2}(\.\d{3})?)?$/]. *)
Definition dateRegex (s : string) : bool :=
  match
    and_then (match_digits 4 s) (fun s =>
    and_then (match_char "-" s) (fun s =>
    and_then (match_digits 2 s) (fun s =>
    and_then (match_char "-" s) (fun s =>
    match_digits 2 s))))
  with
  | None => false
  | Some rest =>
      String.eqb rest "" ||
      match and_then (match_char "T" rest) match_time with
      | Some r => match_fraction_end true r
      | None => false
      end ||
      match and_then (match_space rest) match_time with
      | Some r => match_fraction_end false r
      | None => false
      end
  end.

(** The key that an assignment [newData[key] = value] does not store in
    a new object: the assignment goes to the setter that the object
    inherits, which changes the prototype or nothing, and the object has
    no such member when it is sent. *)
Definition is_proto (key : string) : bool := String.eqb key "__proto__".

(** The members that a copy of an object, member by member, holds. *)
Definition own_members (members : list (string * JSON))
  : list (string * JSON) :=
  filter (fun member => negb (is_proto (fst member))) members.

(** [transformDataForTitleCasing(data)]. *)
Fixpoint transformDataForTitleCasing (data : JSON) : JSON :=
  match data with
  | JArray elements => JArray (map transformDataForTitleCasing elements)
  | JObject members =>
      JObject
        (flat_map
           (fun member =>
              if is_proto (fst member) then []
              else
                [(fst member,
                  match snd member with
                  | JString s =>
                      if negb (isExceptionKey (fst member)) &&
                         negb (dateRegex s)
                      then JString (toTitleCase s)
                      else JString s
                  | JArray _ | JObject _ | JDate _ =>
                      transformDataForTitleCasing (snd member)
                  | other => other
                  end)])
           members)
  | JDate _ => JObject []
  | other => other
  end.

(** A value without the members [__proto__] of its objects. *)
Fixpoint without_proto (data : JSON) : JSON :=
  match data with
  | JArray elements => JArray (map without_proto elements)
  | JObject members =>
      JObject
        (flat_map
           (fun member =>
              if is_proto (fst member) then []
              else [(fst member, without_proto (snd member))])
           members)
  | other => other
  end.

(** What [transformDataForTitleCasing] does to one member of an object. *)
Definition transformed_member (member : string * JSON) : string * JSON :=
  (fst member,
   match snd member with
   | JString s =>
       if negb (isExceptionKey (fst member)) && negb (dateRegex s)
       then JString (toTitleCase s)
       else JString s
   | JArray _ | JObject _ | JDate _ => transformDataForTitleCasing (snd member)
   | other => other
   end).

(** The replacement of [res.json] in a GET request: what is sent for
    [body]. *)
Definition title_cased_json (body : JSON) : JSON :=
  match body with
  | JArray _ | JObject _ | JDate _ => transformDataForTitleCasing body
  | other => other
  end.

(** The lower-casing middleware on the members of a body: a string
    member whose key is not an exception is put in lower case. *)
Definition lowercase_members (members : list (string * JSON))
  : list (string * JSON) :=
  map (fun member =>
         match snd member with
         | JString s => (fst member, JString (lowercase_member (fst member) s))
         | _ => member
         end)
      members.

(** [String(i)] for an array index. *)
Definition index_key (i : nat) : string :=
  NilZero.string_of_uint (Nat.to_uint i).

(** The lower-casing middleware on [req.body] for the method [method].
    In an array the keys are the indices. *)
Definition lowercase_request (method : string) (body : JSON) : JSON :=
  if String.eqb method "POST" || String.eqb method "PUT" then
    match body with
    | JObject members => JObject (lowercase_members members)
    | JArray elements =>
        JArray
          (map snd
             (lowercase_members
                (combine (map index_key (seq 0 (List.length elements)))
                         elements)))
    | other => other
    end
  else body.

(** Letter by letter: the first letter of a word in upper case when
    [start] is set. *)
Fixpoint letter_pass (start : bool) (s : string) : string :=
  match s with
  | EmptyString => EmptyString
  | String c rest =>
      String (if start then upper_ascii c else c)
             (letter_pass (Ascii.eqb c " ") rest)
  end.

(** No lower-case letter starts a word and no upper-case letter stands
    inside one. *)
Fixpoint title_cased (start : bool) (s : string) : bool :=
  match s with
  | EmptyString => true
  | String c rest =>
      (if start then Ascii.eqb (upper_ascii c) c
       else Ascii.eqb (JS.lower_ascii c) c) &&
      title_cased (Ascii.eqb c " ") rest
  end.

(** A value with the text of every string blanked and every [Date]
    emptied: the keys, the nesting, the lengths of the arrays, the
    numbers, the booleans and the nulls are what is left. *)
Fixpoint skeleton (data : JSON) : JSON :=
  match data with
  | JString _ => JString ""
  | JArray elements => JArray (map skeleton elements)
  | JObject members =>
      JObject (map (fun member => (fst member, skeleton (snd member))) members)
  | JDate _ => JObject []
  | other => other
  end.

(** A string of ASCII characters: on these [toLowerCase] and
    [toUpperCase] change the letters [A] to [Z] and [a] to [z] and
    nothing else, one character for one. *)
Fixpoint is_ascii (s : string) : bool :=
  match s with
  | EmptyString => true
  | String c rest => (nat_of_ascii c <? 128)%nat && is_ascii rest
  end.

(** A value whose strings and keys are ASCII, and in which no object has
    a member [__proto__]. *)
Fixpoint plain (data : JSON) : bool :=
  match data with
  | JString s => is_ascii s
  | JArray elements => forallb plain elements
  | JObject members =>
      forallb (fun member => is_ascii (fst member) &&
                             negb (is_proto (fst member)) &&
                             plain (snd member))
              members
  | _ => true
  end.

(* ===================================================================== *)
(** ** The stock of a book: [UpdateBookStock] and its handler *)
(* ===================================================================== *)

(** An answer whose body holds values of any kind. *)
Record Reply := mkReply {
  reply_status : Z;
  reply_body : JSON
}.

(** [res.status(code).json(obj)] for an object [obj]. *)
Definition reply (code : Z) (obj : list (string * JSON)) : Reply :=
  mkReply code (JObject obj).

(** One row of
    [UPDATE Books SET Stock = Stock + change
     WHERE BookID = b AND Stock + change >= 0].
    The sum is computed exactly; it is the store into the INT column
    that can fail.  A NULL stock does not satisfy the condition. *)
Definition add_stock (b change : Z) (r : Book) : SqlError + Book :=
  match Books_Stock r with
  | Some st =>
      if (Books_BookID r =? b) && (0 <=? st + change) then
        match coerce_INT "Stock" (st + change) with
        | inl e => inl e
        | inr v => inr (mkBook (Books_BookID r) (Books_Price r) (Some v))
        end
      else inr r
  | None => inr r
  end.

(** An UPDATE row by row: the first row that cannot be stored fails the
    statement, which then changes nothing. *)
Fixpoint update_rows {X : Type} (f : X -> SqlError + X) (rows : list X)
  : SqlError + list X :=
  match rows with
  | [] => inr []
  | r :: rest =>
      match f r with
      | inl e => inl e
      | inr r' =>
          match update_rows f rest with
          | inl e => inl e
          | inr rest' => inr (r' :: rest')
          end
      end
  end.

(** The UPDATE of [UpdateBookStock]. *)
Definition update_Books_add (b change : Z) (t : Tables)
  : SqlError + (unit * Tables) :=
  match update_rows (add_stock b change) (Books t) with
  | inl e => inl e
  | inr rows => inr (tt, with_Books t rows)
  end.

(** The stored procedure [UpdateBookStock]: one statement, outside any
    transaction of its own. *)
Definition UpdateBookStock (p_BookID p_StockChange : Z) : M unit :=
  p_BookID <- coerce (coerce_INT "p_BookID" p_BookID) ;;
  p_StockChange <- coerce (coerce_INT "p_StockChange" p_StockChange) ;;
  exec (update_Books_add p_BookID p_StockChange).

(** [pool.query('CALL UpdateBookStock(?, ?)', [b, c])]. *)
Definition CALL_UpdateBookStock (b c : JS.number) : M unit :=
  match argument b, argument c with
  | inr b, inr c => UpdateBookStock b c
  | inl name, _ => throw (BadField name "field list")
  | inr _, inl name => throw (BadField name "field list")
  end.

(** [SELECT Stock FROM Books WHERE BookID = b]: the rows, in order. *)
Definition select_Stock_rows (b : Z) (t : Tables) : list (option Z) :=
  map Books_Stock (filter (fun r => Books_BookID r =? b) (Books t)).

(** [pool.query('SELECT Stock FROM Books WHERE BookID = ?', [bookId])].
    No key equals a number beyond 2^53, and the names [NaN] and
    [Infinity] are not resolved. *)
Definition SELECT_Stock (bookId : JS.number) (t : Tables)
  : SqlError + list (option Z) :=
  match bookId with
  | JS.Int b => inr (select_Stock_rows b t)
  | JS.Huge _ => inr []
  | JS.NaN => inl (BadField "NaN" "where clause")
  | JS.Infinity _ => inl (BadField "Infinity" "where clause")
  end.

(** A nullable number as a value of an answer. *)
Definition nullable_number (v : option Z) : JSON :=
  match v with
  | Some n => JNumber n
  | None => JNull
  end.

Definition stock_fields_error : Reply :=
  reply 400 [("error", JString "Valid book ID and stock change are required")].

(** The [catch] block of [PUT /api/books/:id/stock]. *)
Definition stock_failed (message : string) : Reply :=
  reply 500 [("error", JString "Failed to update stock");
             ("details", JString message)].

(** [isNaN(bookId) || stockChange == null || isNaN(stockChange)], which
    can throw. *)
Definition stock_fields_missing (bookId : JS.number)
    (stockChange : option JSON) : string + bool :=
  if JS.isNaN bookId || loosely_null stockChange then inr true
  else isNaN_value stockChange.

(** The handler of [PUT /api/books/:id/stock] with path parameter [id]
    and the [stockChange] member of the body; [None] is a missing
    member. *)
Definition put_book_stock_handler (pool : option Session) (id : string)
    (stockChange : option JSON) : Reply * option Session :=
  match pool with
  | None => (reply 503 [("error", JString "Database not connected")], None)
  | Some s =>
      let bookId := JS.parseInt id in
      match stock_fields_missing bookId stockChange with
      | inl message => (stock_failed message, Some s)
      | inr true => (stock_fields_error, Some s)
      | inr false =>
          match parseInt_value stockChange with
          | inl message => (stock_failed message, Some s)
          | inr change =>
              match CALL_UpdateBookStock bookId change s with
              | (inl e, s') => (stock_failed (err_message e), Some s')
              | (inr _, s') =>
                  match SELECT_Stock bookId (view s') with
                  | inl e => (stock_failed (err_message e), Some s')
                  | inr [] =>
                      (reply 404 [("error", JString "Book not found")],
                       Some s')
                  | inr (stock :: _) =>
                      (reply 200
                         [("message", JString "Stock updated successfully");
                          ("newStock", nullable_number stock)],
                       Some s')
                  end
              end
          end
      end
  end.

(** [PUT /api/books/:id/stock]: the middleware, then the handler. *)
Definition put_book_stock (pool : option Session) (id : string)
    (stockChange : option JSON) : Reply * option Session :=
  put_book_stock_handler pool id (lowercase_value "stockChange" stockChange).

(** The CHECK of [Books.Stock] on every row. *)
Definition stocks_checked (t : Tables) : bool :=
  forallb (fun r => check_nonneg (Books_Stock r)) (Books t).

(** The row that [add_stock] stores when the new stock fits the column. *)
Definition add_stock_row (b change : Z) (r : Book) : Book :=
  match Books_Stock r with
  | Some st =>
      if (Books_BookID r =? b) && (0 <=? st + change)
      then mkBook (Books_BookID r) (Books_Price r) (Some (st + change))
      else r
  | None => r
  end.

(** Code that keeps a property of what the connection sees, whether it
    succeeds or fails. *)
Definition keeps (I : Tables -> Prop) {A : Type} (m : M A) : Prop :=
  forall s r s', m s = (r, s') -> I (view s) -> I (view s').

(** A statement that keeps a property of the tables when it succeeds. *)
Definition statement_keeps (I : Tables -> Prop) {A : Type}
    (stmt : Tables -> SqlError + (A * Tables)) : Prop :=
  forall t a t1, stmt t = inr (a, t1) -> I t -> I t1.

(** A property of the tables that does not depend on the counters. *)
Definition counters_keep (I : Tables -> Prop) : Prop :=
  forall t, I t ->
    I (skip_OrderID t) /\ I (skip_OrderDetailID t) /\
    I (skip_PaymentID t) /\ I (skip_LogID t).

(* ===================================================================== *)
(** ** The figures of [GET /api/kpis] *)
(* ===================================================================== *)

(** [SELECT COUNT( * ) FROM Books], [... FROM Orders],
    [... FROM Customers]. *)
Definition TotalBooks (t : Tables) : Z := Z.of_nat (List.length (Books t)).

Definition TotalOrders (t : Tables) : Z := Z.of_nat (List.length (Orders t)).

Definition TotalCustomers (t : Tables) : Z :=
  Z.of_nat (List.length (Customers t)).

(** The rows of
    [Payments p JOIN Orders o ON p.OrderID = o.OrderID
     WHERE o.Status = 'Completed']: the amount of [p], once for every
    completed order with the key that [p] refers to. *)
Definition completed_amounts (t : Tables) : list (option Z) :=
  flat_map
    (fun p =>
       map (fun _ => Payments_Amount p)
           (filter (fun o => (Payments_OrderID p =? Orders_OrderID o) &&
                             collate_eqb (Orders_Status o) "Completed")
                   (Orders t)))
    (Payments t).

(** [SELECT SUM(p.Amount) AS TotalRevenue ...]. *)
Definition TotalRevenue (t : Tables) : option Z :=
  sql_SUM (completed_amounts t).

(** The text in which the driver hands over a DECIMAL with two
    fraction digits, given in hundredths. *)
Definition DECIMAL_text (x : Z) : string :=
  let a := Z.abs x in
  String.append (if x <? 0 then "-" else "")
    (String.append (digits_text (a / 100))
       (String.append "."
          (String.append (if a mod 100 <? 10 then "0" else "")
                         (digits_text (a mod 100))))).

(** [totalRevenueResult[0].TotalRevenue || 0]: the text of the sum, or
    the number 0 when the sum is NULL. *)
Definition revenue_or_zero (sum : option Z) : JSON :=
  match sum with
  | Some x => JString (DECIMAL_text x)
  | None => JNumber 0
  end.

(** What the handler of [GET /api/kpis] passes to [res.json]. *)
Definition get_kpis (pool : option Session) : Reply :=
  match pool with
  | None => reply 503 [("error", JString "Database not connected")]
  | Some s =>
      reply 200
        [("totalBooks", JNumber (TotalBooks (view s)));
         ("totalOrders", JNumber (TotalOrders (view s)));
         ("totalRevenue", revenue_or_zero (TotalRevenue (view s)));
         ("newCustomers", JNumber (TotalCustomers (view s)))]
  end.

(** The sum of two sums, NULL when both are. *)
Definition sql_plus (a b : option Z) : option Z :=
  match a, b with
  | Some x, Some y => Some (x + y)
  | Some x, None => Some x
  | None, y => y
  end.

(* ===================================================================== *)
(** ** Deleting a book or a customer *)
(* ===================================================================== *)

(** Errors of the statements that delete. *)
Inductive DeleteError :=
| RowIsReferenced (constraint : string)   (* 1451 *)
| UnknownColumn (name : string).          (* 1054 *)

Definition delete_err_code (e : DeleteError) : string :=
  match e with
  | RowIsReferenced _ => "ER_ROW_IS_REFERENCED_2"
  | UnknownColumn _ => "ER_BAD_FIELD_ERROR"
  end.

Definition delete_err_message (e : DeleteError) : string :=
  match e with
  | RowIsReferenced c =>
      String.append
        "Cannot delete or update a parent row: a foreign key constraint fails ("
        (String.append c ")")
  | UnknownColumn n => unknown_column n "where clause"
  end.

Definition with_Customers (t : Tables) (rows : list Z) : Tables :=
  mkTables rows (Books t) (Orders t) (OrderDetails t) (Payments t)
           (OrderLog t) (next_OrderID t) (next_OrderDetailID t)
           (next_PaymentID t) (next_LogID t).

(** [DELETE FROM Books WHERE BookID = b]; the result is [affectedRows].
    A row that an order line refers to cannot be deleted. *)
Definition delete_Books (b : Z) (t : Tables) : DeleteError + (Z * Tables) :=
  let doomed := filter (fun r => Books_BookID r =? b) (Books t) in
  if negb (List.length doomed =? 0)%nat &&
     existsb (fun d => OrderDetails_BookID d =? b) (OrderDetails t)
  then inl (RowIsReferenced "OrderDetails_ibfk_2")
  else
    inr (Z.of_nat (List.length doomed),
         with_Books t (filter (fun r => negb (Books_BookID r =? b)) (Books t))).

(** [DELETE FROM Customers WHERE CustomerID = c]; the result is
    [affectedRows].  A row that an order refers to cannot be deleted. *)
Definition delete_Customers (c : Z) (t : Tables)
  : DeleteError + (Z * Tables) :=
  let doomed := filter (Z.eqb c) (Customers t) in
  if negb (List.length doomed =? 0)%nat &&
     existsb (fun o => Orders_CustomerID o =? c) (Orders t)
  then inl (RowIsReferenced "Orders_ibfk_1")
  else
    inr (Z.of_nat (List.length doomed),
         with_Customers t (filter (fun x => negb (c =? x)) (Customers t))).

(** [SELECT COUNT( * ) as OrderCount FROM Orders WHERE CustomerID = c]. *)
Definition OrderCount (c : Z) (t : Tables) : Z :=
  Z.of_nat
    (List.length (filter (fun o => Orders_CustomerID o =? c) (Orders t))).

(** A deleting statement on a connection, as [exec] for the others. *)
Definition exec_delete {A : Type}
    (stmt : Tables -> DeleteError + (A * Tables)) (s : Session)
  : (DeleteError + A) * Session :=
  match stmt (view s) with
  | inl e => (inl e, s)
  | inr (a, t') =>
      (inr a,
       match open_txn s with
       | Some _ => mkSession (committed s) (Some t')
       | None => mkSession t' None
       end)
  end.

(** [pool.query('DELETE FROM Books WHERE BookID = ?', [bookId])].  No
    key equals a number beyond 2^53, and the names [NaN] and [Infinity]
    are not resolved. *)
Definition DELETE_Books (bookId : JS.number) (t : Tables)
  : DeleteError + (Z * Tables) :=
  match bookId with
  | JS.Int b => delete_Books b t
  | JS.Huge _ => inr (0, t)
  | JS.NaN => inl (UnknownColumn "NaN")
  | JS.Infinity _ => inl (UnknownColumn "Infinity")
  end.

(** [DELETE /api/books/:id]. *)
Definition delete_book (pool : option Session) (id : string)
  : Reply * option Session :=
  match pool with
  | None => (reply 503 [("error", JString "Database not connected")], None)
  | Some s =>
      let bookId := JS.parseInt id in
      if JS.isNaN bookId
      then (reply 400 [("error", JString "Invalid Book ID.")], Some s)
      else
        match exec_delete (DELETE_Books bookId) s with
        | (inr affectedRows, s') =>
            if affectedRows =? 0
            then (reply 404 [("error", JString "Book not found.")], Some s')
            else (reply 200
                    [("message", JString "Book deleted successfully")],
                  Some s')
        | (inl e, s') =>
            if String.eqb (delete_err_code e) "ER_ROW_IS_REFERENCED_2"
            then
              (reply 400
                 [("error",
                   JString
                     "Cannot delete book. It is referenced in existing records.")],
               Some s')
            else
              (reply 500 [("error", JString "Failed to delete book");
                          ("details", JString (delete_err_message e))],
               Some s')
        end
  end.

Definition delete_customer_failed (e : DeleteError) : Reply :=
  reply 500 [("error", JString "Failed to delete customer");
             ("details", JString (delete_err_message e))].

(** [pool.query('SELECT COUNT( * ) as OrderCount FROM Orders WHERE
    CustomerID = ?', [customerId])]. *)
Definition SELECT_OrderCount (customerId : JS.number) (t : Tables)
  : DeleteError + Z :=
  match customerId with
  | JS.Int c => inr (OrderCount c t)
  | JS.Huge _ => inr 0
  | JS.NaN => inl (UnknownColumn "NaN")
  | JS.Infinity _ => inl (UnknownColumn "Infinity")
  end.

(** [pool.query('DELETE FROM Customers WHERE CustomerID = ?',
    [customerId])]. *)
Definition DELETE_Customers (customerId : JS.number) (t : Tables)
  : DeleteError + (Z * Tables) :=
  match customerId with
  | JS.Int c => delete_Customers c t
  | JS.Huge _ => inr (0, t)
  | JS.NaN => inl (UnknownColumn "NaN")
  | JS.Infinity _ => inl (UnknownColumn "Infinity")
  end.

(** [DELETE /api/customers/:id].  The id is not tested for NaN: a NaN is
    written into the first query as the name [NaN], which the server
    cannot resolve. *)
Definition delete_customer (pool : option Session) (id : string)
  : Reply * option Session :=
  match pool with
  | None => (reply 503 [("error", JString "Database not connected")], None)
  | Some s =>
      let customerId := JS.parseInt id in
      match SELECT_OrderCount customerId (view s) with
      | inl e => (delete_customer_failed e, Some s)
      | inr count =>
          if 0 <? count
          then
            (reply 400
               [("error",
                 JString
                   "Cannot delete customer with existing orders. Consider deactivating instead.")],
             Some s)
          else
            match exec_delete (DELETE_Customers customerId) s with
            | (inr affectedRows, s') =>
                if affectedRows =? 0
                then (reply 404 [("error", JString "Customer not found")],
                      Some s')
                else (reply 200
                        [("message", JString "Customer deleted successfully")],
                      Some s')
            | (inl e, s') => (delete_customer_failed e, Some s')
            end
      end
  end.

(** The foreign keys into [Customers] and [Books]: every order has its
    customer and every order line has its book. *)
Definition references_hold (t : Tables) : bool :=
  forallb (fun o => has_customer t (Orders_CustomerID o)) (Orders t) &&
  forallb (fun d => has_book t (OrderDetails_BookID d)) (OrderDetails t).

(** [references_hold] as a property of the tables. *)
Definition refs (t : Tables) : Prop := references_hold t = true.

(* ===================================================================== *)
(** ** The notifications file and its handlers *)
(* ===================================================================== *)

(** [notifications.json]: there is no such file, or its text is not
    JSON, or it holds a value.  A value that was written is read back as
    it was ([JSON.stringify] then [JSON.parse]). *)
Inductive NotificationsFile :=
| Missing
| NotJSON
| Holds (jsonData : JSON).

(** The two categories the handlers work on. *)
Record Notifications := mkNotifications {
  unread : list JSON;
  read : list JSON
}.

(** [Array.isArray(value) ? value : []]. *)
Definition array_or_empty (value : option JSON) : list JSON :=
  match value with
  | Some (JArray elements) => elements
  | _ => []
  end.

Definition emptyNotifications : Notifications := mkNotifications [] [].

(** [writeNotificationsFile]: what the file holds afterwards. *)
Definition writeNotificationsFile (data : Notifications) : NotificationsFile :=
  Holds (JObject [("unread", JArray (unread data));
                  ("read", JArray (read data))]).

(** [readNotificationsFile]: the notifications and the file afterwards.
    A missing file is created empty; any other failure, the [TypeError]
    of a file that holds [null] among them, gives the empty categories
    and leaves the file. *)
Definition readNotificationsFile (file : NotificationsFile)
  : Notifications * NotificationsFile :=
  match file with
  | Missing => (emptyNotifications, writeNotificationsFile emptyNotifications)
  | NotJSON => (emptyNotifications, file)
  | Holds jsonData =>
      match property jsonData "unread", property jsonData "read" with
      | inr u, inr r =>
          (mkNotifications (array_or_empty u) (array_or_empty r), file)
      | _, _ => (emptyNotifications, file)
      end
  end.





(** [n.id !== notificationId]. *)
Definition other_id (notificationId : string) (n : JSON) : string + bool :=
  match property n "id" with
  | inl e => inl e
  | inr (Some (JString id)) => inr (negb (String.eqb id notificationId))
  | inr _ => inr true
  end.

(** [list.filter(n => n.id !== notificationId)]; the callback can
    throw. *)
Fixpoint without_id (notificationId : string) (entries : list JSON)
  : string + list JSON :=
  match entries with
  | [] => inr []
  | n :: rest =>
      match other_id notificationId n with
      | inl e => inl e
      | inr keep =>
          match without_id notificationId rest with
          | inl e => inl e
          | inr rest' => inr (if keep then n :: rest' else rest')
          end
      end
  end.

(** [DELETE /api/notifications/:id]. *)
Definition delete_notification (notificationId : string)
    (file : NotificationsFile) : Reply * NotificationsFile :=
  let (notifications, file1) := readNotificationsFile file in
  let initialLength :=
    (List.length (unread notifications) + List.length (read notifications))%nat in
  match without_id notificationId (unread notifications) with
  | inl e => (reply 500 [("error", JString "Failed to delete notification");
                         ("details", JString e)], file1)
  | inr unread' =>
      match without_id notificationId (read notifications) with
      | inl e => (reply 500 [("error", JString "Failed to delete notification");
                             ("details", JString e)], file1)
      | inr read' =>
          let finalLength := (List.length unread' + List.length read')%nat in
          if (finalLength <? initialLength)%nat
          then
            (reply 200
               [("message",
                 JString (String.append "Notification "
                            (String.append notificationId " deleted.")))],
             writeNotificationsFile (mkNotifications unread' read'))
          else
            (reply 404
               [("error",
                 JString (String.append "Notification "
                            (String.append notificationId " not found.")))],
             file1)
      end
  end.

(** What the handlers see in a file. *)
Definition stored (file : NotificationsFile) : Notifications :=
  fst (readNotificationsFile file).






(** A file in which one entry is [null]. *)
Definition null_file : NotificationsFile :=
  Holds (JObject
           [("unread", JArray [JObject [("id", JString "a1")]; JNull]);
            ("read", JArray [])]).

(** Every notification of a file, the unread ones first. *)
Definition all_stored (file : NotificationsFile) : list JSON :=
  unread (stored file) ++ read (stored file).

(* ===================================================================== *)
(** ** The helpers on examples *)
(* ===================================================================== *)

Example includes_inside :
  JS.includes "Error: insufficient stock for book 2" "insufficient stock"
  = true.
Proof. reflexivity. Qed.

Example includes_foreign_key :
  JS.includes (err_message (NoReferencedRow "OrderDetails_ibfk_2"))
    "insufficient stock" = false.
Proof. reflexivity. Qed.

Example parseInt_decimal : JS.parseInt "42" = JS.Int 42.
Proof. reflexivity. Qed.

Example parseInt_prefix : JS.parseInt "  -12px" = JS.Int (-12).
Proof. reflexivity. Qed.

Example parseInt_hex : JS.parseInt "0x1F" = JS.Int 31.
Proof. reflexivity. Qed.

Example parseInt_NaN : JS.parseInt "abc" = JS.NaN.
Proof. reflexivity. Qed.

Example parseInt_rounded :
  JS.parseInt "9007199254740993" = JS.Huge false.
Proof. reflexivity. Qed.

Example parseInt_long_id : JS.parseInt long_id = JS.Infinity false.
Proof. vm_compute. reflexivity. Qed.

Example parseInt_half : parseInt_value (Some (JReal "0.5")) = inr (JS.Int 0).
Proof. reflexivity. Qed.

Example parseInt_exponent :
  parseInt_value (Some (JReal "1e+21")) = inr (JS.Int 1).
Proof. reflexivity. Qed.

Example parseInt_array :
  parseInt_value (Some (JArray [JNumber 5; JNull; JString "x"]))
  = inr (JS.Int 5).
Proof. reflexivity. Qed.

Example le_zero_half : le_zero (Some (JReal "0.5")) = inr false.
Proof. vm_compute. reflexivity. Qed.

Example le_zero_text : le_zero (Some (JString " -0x ")) = inr false.
Proof. vm_compute. reflexivity. Qed.

Example le_zero_negative_text : le_zero (Some (JString " -1.5e3 ")) = inr true.
Proof. vm_compute. reflexivity. Qed.

Example le_zero_underflow : le_zero (Some (JString "1e-400")) = inr true.
Proof. vm_compute. reflexivity. Qed.

Example le_zero_object :
  le_zero (Some (JObject [("toString", JNumber 1)])) = inl not_primitive.
Proof. reflexivity. Qed.

Example isNaN_words : isNaN_value (Some (JString "Infinity")) = inr false.
Proof. vm_compute. reflexivity. Qed.

Example lowercase_key : JS.toLowerCase "paymentMethod" = "paymentmethod".
Proof. reflexivity. Qed.

Example varchar_trailing_spaces :
  coerce_VARCHAR_50 "Status"
    "Pending                                              "
  = inr "Pending                                           ".
Proof. reflexivity. Qed.

Example scenario_total :
  fst (PlaceOrder 1 2 1 "Cash" seed_session) = inr (4, Some 90000).
Proof. reflexivity. Qed.

Example scenario_stock :
  select_Stock 2 (view (snd (PlaceOrder 1 2 1 "Cash" seed_session)))
  = Some 99.
Proof. reflexivity. Qed.

(** The line that is refused for its book has taken a key, which the
    line of the next order does not get. *)
Example refused_line_takes_a_key :
  next_OrderDetailID seed = 4 /\
  option_map next_OrderDetailID (open_txn after_unknown_book) = Some 5 /\
  OrderDetails (committed after_next_order) = [mkOrderDetail 5 5 2 1].
Proof. repeat split; reflexivity. Qed.

(* ===================================================================== *)
(** ** Printing an integer and reading it back *)
(* ===================================================================== *)

Lemma in_INT_spec v : in_INT v = true <-> INT_MIN <= v <= INT_MAX.
Proof.
  unfold in_INT. rewrite andb_true_iff, !Z.leb_le. tauto.
Qed.

Lemma digits_of_uint acc u :
  JS.digits 10 (Some acc) (NilEmpty.string_of_uint u)
  = Some (uint_value acc u).
Proof.
  revert acc. induction u; intro acc; cbn [NilEmpty.string_of_uint uint_value];
    [reflexivity | | | | | | | | | |]; cbn; apply IHu.
Qed.

Lemma digits_of_text u :
  JS.digits 10 None (NilZero.string_of_uint u) = Some (uint_value 0 u).
Proof.
  destruct u; cbn [NilZero.string_of_uint NilEmpty.string_of_uint uint_value];
    [reflexivity | | | | | | | | | |]; cbn; apply digits_of_uint.
Qed.

Lemma of_uint_acc_value l p :
  Z.pos (Pos.of_uint_acc l p) = uint_value (Z.pos p) l.
Proof.
  revert p. induction l; intro p; cbn [Pos.of_uint_acc uint_value];
    [reflexivity | | | | | | | | | |]; rewrite IHl; f_equal; lia.
Qed.

Lemma of_uint_value l : Z.of_N (Pos.of_uint l) = uint_value 0 l.
Proof.
  induction l; cbn [Pos.of_uint uint_value];
    [reflexivity | exact IHl | | | | | | | | |];
    cbn [Z.of_N]; rewrite of_uint_acc_value; reflexivity.
Qed.

Lemma uint_value_to_uint m : 0 <= m -> uint_value 0 (N.to_uint (Z.to_N m)) = m.
Proof.
  intro H. rewrite <- of_uint_value.
  change (Pos.of_uint (N.to_uint (Z.to_N m)))
    with (N.of_uint (N.to_uint (Z.to_N m))).
  rewrite DecimalN.Unsigned.of_to. apply Z2N.id. exact H.
Qed.

Lemma skip_spaces_keeps c rest :
  JS.is_space c = false -> (nat_of_ascii c < 194)%nat ->
  JS.skip_spaces (String c rest) = String c rest.
Proof.
  intros Hs Hc. cbn [JS.skip_spaces]. rewrite Hs.
  destruct rest as [| c2 rest2]; [reflexivity |].
  unfold JS.is_space2.
  replace (nat_of_ascii c =? 194)%nat with false
    by (symmetry; apply Nat.eqb_neq; lia).
  cbn [andb]. destruct rest2 as [| c3 rest3]; [reflexivity |].
  unfold JS.is_space3.
  replace (nat_of_ascii c =? 225)%nat with false
    by (symmetry; apply Nat.eqb_neq; lia).
  replace (nat_of_ascii c =? 226)%nat with false
    by (symmetry; apply Nat.eqb_neq; lia).
  replace (nat_of_ascii c =? 227)%nat with false
    by (symmetry; apply Nat.eqb_neq; lia).
  replace (nat_of_ascii c =? 239)%nat with false
    by (symmetry; apply Nat.eqb_neq; lia).
  reflexivity.
Qed.

(** [parseInt] reads the digits that print a natural number, with or
    without a minus sign before them. *)
Lemma parseInt_uint u :
  JS.parseInt (NilZero.string_of_uint u) = JS.of_digits false (uint_value 0 u)
  /\
  JS.parseInt (String "-" (NilZero.string_of_uint u))
  = JS.of_digits true (uint_value 0 u).
Proof.
  pose proof (digits_of_text u) as Hd. unfold JS.parseInt.
  destruct u as [| u | u | u | u | u | u | u | u | u | u];
    cbn [NilZero.string_of_uint NilEmpty.string_of_uint] in *;
    rewrite !skip_spaces_keeps by (cbn; first [reflexivity | lia]);
    try (cbn [JS.strip_hex_prefix]; rewrite Hd; split; reflexivity).
  destruct u; cbn [NilEmpty.string_of_uint] in *;
    cbn [JS.strip_hex_prefix]; rewrite Hd; split; reflexivity.
Qed.

Lemma parseInt_integer_text n :
  JS.parseInt (integer_text n) = JS.of_digits (n <? 0) (Z.abs n).
Proof.
  unfold integer_text, digits_text.
  destruct (parseInt_uint (N.to_uint (Z.to_N (Z.abs n)))) as [Hpos Hneg].
  rewrite uint_value_to_uint in Hpos, Hneg by lia.
  destruct (n <? 0); [exact Hneg | exact Hpos].
Qed.

(** A number of magnitude up to 2^53 is read back as it is. *)
Lemma parseInt_JNumber n :
  - JS.EXACT <= n <= JS.EXACT ->
  parseInt_value (Some (JNumber n)) = inr (JS.Int n).
Proof.
  intro H. unfold parseInt_value. cbn [ToString].
  rewrite parseInt_integer_text. unfold JS.of_digits.
  replace (Z.abs n <=? JS.EXACT) with true
    by (symmetry; apply Z.leb_le; lia).
  destruct (Z.ltb_spec n 0); do 2 f_equal; lia.
Qed.

Lemma parseInt_INT n :
  in_INT n = true -> parseInt_value (Some (JNumber n)) = inr (JS.Int n).
Proof.
  intro H. apply in_INT_spec in H. apply parseInt_JNumber.
  unfold JS.EXACT, INT_MIN, INT_MAX in *. lia.
Qed.

(* ===================================================================== *)
(** ** Runs of the connection monad *)
(* ===================================================================== *)

Section Runs.

Context {A B : Type}.

Lemma bind_inr (m : M A) (k : A -> M B) s b s' :
  bind m k s = (inr b, s') ->
  exists a s1, m s = (inr a, s1) /\ k a s1 = (inr b, s').
Proof.
  unfold bind. destruct (m s) as [[e | a] s1]; intro H.
  - discriminate.
  - exists a, s1. split; [reflexivity | exact H].
Qed.

Lemma bind_inl (m : M A) (k : A -> M B) s e s' :
  bind m k s = (inl e, s') ->
  m s = (inl e, s') \/
  exists a s1, m s = (inr a, s1) /\ k a s1 = (inl e, s').
Proof.
  unfold bind. destruct (m s) as [[e1 | a] s1]; intro H.
  - left. inversion H. reflexivity.
  - right. exists a, s1. split; [reflexivity | exact H].
Qed.

Lemma coerce_inr (r : SqlError + A) s a s' :
  coerce r s = (inr a, s') -> r = inr a /\ s' = s.
Proof. unfold coerce. intro H. inversion H. split; reflexivity. Qed.

Lemma exec_inr (stmt : Tables -> SqlError + (A * Tables)) s a s' :
  exec stmt s = (inr a, s') ->
  exists t', stmt (view s) = inr (a, t') /\ view s' = t' /\
             committed s' = match open_txn s with
                            | Some _ => committed s
                            | None => t'
                            end /\
             open_txn s' = option_map (fun _ => t') (open_txn s).
Proof.
  unfold exec. destruct (stmt (view s)) as [e | [a' t']]; intro H.
  - discriminate.
  - inversion H; subst. exists t'.
    destruct (open_txn s); cbn; auto.
Qed.

Lemma exec_inl (stmt : Tables -> SqlError + (A * Tables)) s e s' :
  exec stmt s = (inl e, s') -> stmt (view s) = inl e /\ s' = s.
Proof.
  unfold exec. destruct (stmt (view s)) as [e' | [a' t']]; intro H.
  - inversion H. split; reflexivity.
  - discriminate.
Qed.

End Runs.

(** A statement inside an open transaction works on the working copy. *)
Lemma exec_txn_inr {A : Type} (stmt : Tables -> SqlError + (A * Tables))
    c w a s' :
  exec stmt (mkSession c (Some w)) = (inr a, s') ->
  exists t', stmt w = inr (a, t') /\ s' = mkSession c (Some t').
Proof.
  unfold exec, view. cbn. destruct (stmt w) as [e | [a' t']]; intro H.
  - discriminate.
  - inversion H. exists t'. split; reflexivity.
Qed.

Lemma exec_txn_inl {A : Type} (stmt : Tables -> SqlError + (A * Tables))
    c w e s' :
  exec stmt (mkSession c (Some w)) = (inl e, s') ->
  stmt w = inl e /\ s' = mkSession c (Some w).
Proof.
  intro H. apply exec_inl in H. exact H.
Qed.

(** An INSERT that succeeds is a statement like the others. *)
Lemma exec_insert_txn_inr {A : Type} skip
    (stmt : Tables -> SqlError + (A * Tables)) c w a s' :
  exec_insert skip stmt (mkSession c (Some w)) = (inr a, s') ->
  exists t', stmt w = inr (a, t') /\ s' = mkSession c (Some t').
Proof.
  unfold exec_insert, view. cbn. destruct (stmt w) as [e | [a' t']]; intro H.
  - discriminate.
  - inversion H. exists t'. split; reflexivity.
Qed.

(* ===================================================================== *)
(** ** Facts about the statements *)
(* ===================================================================== *)

Lemma find_decrement_stock b q b0 (l : list Book) :
  find (fun r => Books_BookID r =? b0) (map (decrement_stock b q) l) =
  option_map (decrement_stock b q) (find (fun r => Books_BookID r =? b0) l).
Proof.
  induction l as [| r l IH]; cbn; [reflexivity |].
  replace (Books_BookID (decrement_stock b q r)) with (Books_BookID r).
  - destruct (Books_BookID r =? b0); [reflexivity | exact IH].
  - unfold decrement_stock. destruct (Books_Stock r); [| reflexivity].
    destruct (_ && _); reflexivity.
Qed.

Lemma decrement_stock_price b q r :
  Books_Price (decrement_stock b q r) = Books_Price r.
Proof.
  unfold decrement_stock. destruct (Books_Stock r); [| reflexivity].
  destruct (_ && _); reflexivity.
Qed.

Lemma decrement_stock_id b q r :
  Books_BookID (decrement_stock b q r) = Books_BookID r.
Proof.
  unfold decrement_stock. destruct (Books_Stock r); [| reflexivity].
  destruct (_ && _); reflexivity.
Qed.

(** The conditional decrement changes no price. *)
Lemma select_Price_decrement b q b0 t t0 :
  select_Price b0 (with_Books t (map (decrement_stock b q) (Books t0))) =
  select_Price b0 t0.
Proof.
  unfold select_Price. cbn. rewrite find_decrement_stock.
  destruct (find _ (Books t0)); cbn; [apply decrement_stock_price | reflexivity].
Qed.

Lemma has_book_decrement b q b0 (l : list Book) :
  existsb (fun r => Books_BookID r =? b0) (map (decrement_stock b q) l) =
  existsb (fun r => Books_BookID r =? b0) l.
Proof.
  induction l as [| r l IH]; cbn; [reflexivity |].
  rewrite decrement_stock_id, IH. reflexivity.
Qed.

Lemma has_order_new (rows : list Order) id c st :
  existsb (fun r => Orders_OrderID r =? id) (rows ++ [mkOrder id c st]) = true.
Proof.
  rewrite existsb_app. cbn. rewrite Z.eqb_refl. apply orb_true_r.
Qed.

Lemma coerce_INT_in column v : in_INT v = true -> coerce_INT column v = inr v.
Proof. unfold coerce_INT, in_INT. intros ->. reflexivity. Qed.

Lemma coerce_INT_out column v :
  in_INT v = false -> coerce_INT column v = inl (OutOfRange column).
Proof. unfold coerce_INT, in_INT. intros ->. reflexivity. Qed.

Lemma next_key_inr column counter id :
  next_key column counter = inr id -> id = counter /\ in_INT counter = true.
Proof.
  unfold next_key, coerce_INT. fold (in_INT counter).
  destruct (in_INT counter); [| discriminate].
  intro H. inversion H. split; reflexivity.
Qed.

(** A call of [PlaceOrder] that returns a result has run every statement:
    the connection ends with no open transaction and the tables are
    [placed]. *)
Lemma PlaceOrder_success c b q pm s oid total s' :
  PlaceOrder c b q pm s = (inr (oid, total), s') ->
  exists pm',
    coerce_INT "p_CustomerID" c = inr c /\
    coerce_INT "p_BookID" b = inr b /\
    coerce_INT "p_Quantity" q = inr q /\
    coerce_VARCHAR_50 "p_PaymentMethod" pm = inr pm' /\
    has_customer (view s) c = true /\
    has_book (view s) b = true /\
    0 < q /\
    sql_IN pm' Payments_methods = true /\
    oid = next_OrderID (view s) /\
    total = sql_mul (select_Price b (view s)) q /\
    s' = mkSession (placed (view s) c b q pm' total) None.
Proof.
  unfold PlaceOrder. intro H.
  apply bind_inr in H. destruct H as (c' & s1 & Hc & H).
  apply coerce_inr in Hc. destruct Hc as [Hc ->].
  apply bind_inr in H. destruct H as (b' & s1 & Hb & H).
  apply coerce_inr in Hb. destruct Hb as [Hb ->].
  apply bind_inr in H. destruct H as (q' & s1 & Hq & H).
  apply coerce_inr in Hq. destruct Hq as [Hq ->].
  apply bind_inr in H. destruct H as (pm' & s1 & Hpm & H).
  apply coerce_inr in Hpm. destruct Hpm as [Hpm ->].
  assert (c' = c) as ->.
  { unfold coerce_INT in Hc. destruct (_ && _); congruence. }
  assert (b' = b) as ->.
  { unfold coerce_INT in Hb. destruct (_ && _); congruence. }
  assert (q' = q) as ->.
  { unfold coerce_INT in Hq. destruct (_ && _); congruence. }
  exists pm'. repeat (split; [assumption |]).
  apply bind_inr in H. destruct H as ([] & s1 & Hst & H).
  unfold START_TRANSACTION in Hst. inversion Hst; subst s1; clear Hst.
  set (t := view s) in *. clearbody t.
  apply bind_inr in H. destruct H as (oid' & s1 & Hst & H).
  apply exec_insert_txn_inr in Hst. destruct Hst as (t1 & Hst & ->).
  unfold insert_Orders in Hst.
  destruct (next_key "OrderID" (next_OrderID t)) as [e | id] eqn:Hk1;
    [discriminate |].
  apply next_key_inr in Hk1. destruct Hk1 as [-> _].
  destruct (has_customer t c) eqn:Hcust; [| discriminate].
  inversion Hst; subst oid' t1; clear Hst.
  apply bind_inr in H. destruct H as ([] & s1 & Hst & H).
  apply exec_insert_txn_inr in Hst. destruct Hst as (t2 & Hst & ->).
  unfold insert_OrderDetails in Hst.
  destruct (0 <? q) eqn:Hpos; [| discriminate].
  cbn [negb] in Hst.
  destruct (next_key "OrderDetailID" _) as [e | id] eqn:Hk2; [discriminate |].
  apply next_key_inr in Hk2. destruct Hk2 as [-> _].
  unfold has_order in Hst. cbn in Hst. rewrite has_order_new in Hst.
  cbn in Hst. fold (has_book t b) in Hst.
  destruct (has_book t b) eqn:Hbook; [| discriminate].
  cbn in Hst. inversion Hst; subst t2; clear Hst.
  apply bind_inr in H. destruct H as ([] & s1 & Hst & H).
  apply exec_txn_inr in Hst. destruct Hst as (t3 & Hst & ->).
  unfold update_Books_Stock in Hst. inversion Hst; subst t3; clear Hst.
  apply bind_inr in H. destruct H as (price & s1 & Hst & H).
  unfold query, view in Hst. cbn [open_txn] in Hst.
  rewrite select_Price_decrement in Hst.
  inversion Hst; subst price s1; clear Hst.
  apply bind_inr in H. destruct H as (total' & s1 & Hst & H).
  apply coerce_inr in Hst. destruct Hst as [Hdec ->].
  assert (total' = sql_mul (select_Price b t) q) as Htot.
  { unfold coerce_DECIMAL_10_2 in Hdec.
    destruct (sql_mul (select_Price b t) q); [| congruence].
    destruct (_ && _); congruence. }
  apply bind_inr in H. destruct H as ([] & s1 & Hst & H).
  apply exec_insert_txn_inr in Hst. destruct Hst as (t4 & Hst & ->).
  unfold insert_Payments in Hst.
  destruct (sql_IN pm' Payments_methods) eqn:Hin; [| discriminate].
  destruct (check_nonneg total'); [| discriminate].
  cbn [negb] in Hst.
  destruct (next_key "PaymentID" _) as [e | id] eqn:Hk3; [discriminate |].
  apply next_key_inr in Hk3. destruct Hk3 as [-> _].
  unfold has_order in Hst. cbn in Hst. rewrite has_order_new in Hst.
  cbn in Hst. inversion Hst; subst t4; clear Hst.
  apply bind_inr in H. destruct H as ([] & s1 & Hst & H).
  apply exec_insert_txn_inr in Hst. destruct Hst as (t5 & Hst & ->).
  unfold insert_OrderLog in Hst.
  destruct (next_key "LogID" _) as [e | id] eqn:Hk4; [discriminate |].
  apply next_key_inr in Hk4. destruct Hk4 as [-> _].
  unfold has_order in Hst. cbn in Hst.
  rewrite has_order_new in Hst. cbn in Hst.
  inversion Hst; subst t5; clear Hst.
  apply bind_inr in H. destruct H as ([] & s1 & Hst & H).
  unfold COMMIT, view in Hst. cbn in Hst.
  inversion Hst; subst s1; clear Hst.
  unfold ret in H. inversion H; subst.
  repeat split; try reflexivity.
  apply Z.ltb_lt. exact Hpos.
Qed.

(** Conversely, a call whose arguments the schema accepts runs to its
    end, when each counter has a key left. *)
Lemma PlaceOrder_runs c b q pm s total :
  coerce_INT "p_CustomerID" c = inr c ->
  coerce_INT "p_BookID" b = inr b ->
  coerce_INT "p_Quantity" q = inr q ->
  coerce_VARCHAR_50 "p_PaymentMethod" pm = inr pm ->
  has_customer (view s) c = true ->
  has_book (view s) b = true ->
  0 < q ->
  sql_IN pm Payments_methods = true ->
  coerce_DECIMAL_10_2 "v_TotalAmount" (sql_mul (select_Price b (view s)) q)
    = inr total ->
  check_nonneg total = true ->
  keys_left (view s) 1 = true ->
  PlaceOrder c b q pm s =
  (inr (next_OrderID (view s), total),
   mkSession (placed (view s) c b q pm total) None).
Proof.
  intros Hc Hb Hq Hpm Hcust Hbook Hpos Hin Hdec Hnn Hkeys.
  unfold keys_left in Hkeys. cbn [forallb] in Hkeys.
  rewrite !andb_true_iff in Hkeys.
  destruct Hkeys as ([Hk1 _] & [Hk2 _] & [Hk3 _] & [Hk4 _] & _).
  unfold PlaceOrder, bind, coerce. rewrite Hc, Hb, Hq, Hpm.
  unfold START_TRANSACTION. set (t := view s) in *. clearbody t.
  unfold exec_insert at 1. unfold view at 1. cbn [open_txn committed].
  unfold insert_Orders, next_key. rewrite (coerce_INT_in _ _ Hk1), Hcust.
  unfold exec_insert at 1. unfold view at 1. cbn [open_txn committed].
  unfold insert_OrderDetails, next_key.
  apply Z.ltb_lt in Hpos. rewrite Hpos. cbn [negb].
  cbn [next_OrderDetailID with_Orders]. rewrite (coerce_INT_in _ _ Hk2).
  unfold has_order at 1. cbn [Orders with_Orders]. rewrite has_order_new.
  cbn [negb].
  replace (has_book (with_Orders t _ _) b) with true.
  cbn [negb].
  unfold exec at 1. unfold view at 1. cbn [open_txn committed].
  unfold update_Books_Stock.
  unfold query at 1. unfold view at 1. cbn [open_txn committed].
  cbn [Books with_OrderDetails with_Orders].
  rewrite select_Price_decrement, Hdec.
  unfold exec_insert at 1. unfold view at 1. cbn [open_txn committed].
  unfold insert_Payments, next_key. rewrite Hin, Hnn. cbn [negb].
  cbn [next_PaymentID with_Books with_OrderDetails with_Orders].
  rewrite (coerce_INT_in _ _ Hk3).
  unfold has_order at 1.
  cbn [Orders with_Books with_OrderDetails with_Orders].
  rewrite has_order_new. cbn [negb].
  unfold exec_insert at 1. unfold view at 1. cbn [open_txn committed].
  unfold insert_OrderLog, next_key.
  cbn [next_LogID with_Payments with_Books with_OrderDetails with_Orders].
  rewrite (coerce_INT_in _ _ Hk4).
  unfold has_order.
  cbn [Orders with_Payments with_Books with_OrderDetails with_Orders].
  rewrite has_order_new. cbn [negb].
  reflexivity.
Qed.

(** A call of [PlaceOrder] that returns has taken a key from each of
    the four counters. *)
Lemma PlaceOrder_keys c b q pm s oid total s' :
  PlaceOrder c b q pm s = (inr (oid, total), s') ->
  keys_left (view s) 1 = true.
Proof.
  unfold PlaceOrder. intro H.
  apply bind_inr in H. destruct H as (c' & s1 & Hc & H).
  apply coerce_inr in Hc. destruct Hc as [Hc ->].
  apply bind_inr in H. destruct H as (b' & s1 & Hb & H).
  apply coerce_inr in Hb. destruct Hb as [Hb ->].
  apply bind_inr in H. destruct H as (q' & s1 & Hq & H).
  apply coerce_inr in Hq. destruct Hq as [Hq ->].
  apply bind_inr in H. destruct H as (pm' & s1 & Hpm & H).
  apply coerce_inr in Hpm. destruct Hpm as [Hpm ->].
  apply bind_inr in H. destruct H as ([] & s1 & Hst & H).
  unfold START_TRANSACTION in Hst. inversion Hst; subst s1; clear Hst.
  set (t := view s) in *. clearbody t.
  apply bind_inr in H. destruct H as (oid' & s1 & Hst & H).
  apply exec_insert_txn_inr in Hst. destruct Hst as (t1 & Hst & ->).
  unfold insert_Orders in Hst.
  destruct (next_key "OrderID" (next_OrderID t)) as [e | id] eqn:Hk1;
    [discriminate |].
  apply next_key_inr in Hk1. destruct Hk1 as [-> Hk1].
  destruct (has_customer t _); [| discriminate].
  inversion Hst; subst oid' t1; clear Hst.
  apply bind_inr in H. destruct H as ([] & s1 & Hst & H).
  apply exec_insert_txn_inr in Hst. destruct Hst as (t2 & Hst & ->).
  unfold insert_OrderDetails in Hst.
  destruct (negb (0 <? q')); [discriminate |].
  destruct (next_key "OrderDetailID" _) as [e | id] eqn:Hk2; [discriminate |].
  apply next_key_inr in Hk2. destruct Hk2 as [-> Hk2].
  destruct (negb (has_order _ _)); [discriminate |].
  destruct (negb (has_book _ _)); [discriminate |].
  inversion Hst; subst t2; clear Hst.
  apply bind_inr in H. destruct H as ([] & s1 & Hst & H).
  apply exec_txn_inr in Hst. destruct Hst as (t3 & Hst & ->).
  unfold update_Books_Stock in Hst. inversion Hst; subst t3; clear Hst.
  apply bind_inr in H. destruct H as (price & s1 & Hst & H).
  unfold query in Hst. inversion Hst; subst s1; clear Hst.
  apply bind_inr in H. destruct H as (total' & s1 & Hst & H).
  apply coerce_inr in Hst. destruct Hst as [_ ->].
  apply bind_inr in H. destruct H as ([] & s1 & Hst & H).
  apply exec_insert_txn_inr in Hst. destruct Hst as (t4 & Hst & ->).
  unfold insert_Payments in Hst.
  destruct (negb (sql_IN _ _)); [discriminate |].
  destruct (negb (check_nonneg _)); [discriminate |].
  destruct (next_key "PaymentID" _) as [e | id] eqn:Hk3; [discriminate |].
  apply next_key_inr in Hk3. destruct Hk3 as [-> Hk3].
  destruct (negb (has_order _ _)); [discriminate |].
  inversion Hst; subst t4; clear Hst.
  apply bind_inr in H. destruct H as ([] & s1 & Hst & H).
  apply exec_insert_txn_inr in Hst. destruct Hst as (t5 & Hst & ->).
  unfold insert_OrderLog in Hst.
  destruct (next_key "LogID" _) as [e | id] eqn:Hk4; [discriminate |].
  apply next_key_inr in Hk4. destruct Hk4 as [-> Hk4].
  cbn in Hk2, Hk3, Hk4.
  unfold keys_left. cbn [forallb]. rewrite Hk1, Hk2, Hk3, Hk4.
  apply in_INT_spec in Hk1, Hk2, Hk3, Hk4.
  rewrite !andb_true_iff, !Z.leb_le. cbn. lia.
Qed.

(* ===================================================================== *)
(** ** Well-formed tables *)
(* ===================================================================== *)

Lemma well_formed_spec t :
  well_formed t = true <->
  (forall o, In o (Orders t) -> Orders_OrderID o < next_OrderID t) /\
  (forall d, In d (OrderDetails t) ->
             has_order t (OrderDetails_OrderID d) = true) /\
  (forall p, In p (Payments t) -> has_order t (Payments_OrderID p) = true) /\
  (forall l, In l (OrderLog t) -> has_order t (OrderLog_OrderID l) = true) /\
  (forall b, In b (Books t) -> check_nonneg (Books_Price b) = true).
Proof.
  unfold well_formed. rewrite !andb_true_iff, !forallb_forall.
  split.
  - intros [[[[H1 H2] H3] H4] H5]. repeat split; auto.
    intros o Ho. apply Z.ltb_lt. auto.
  - intros (H1 & H2 & H3 & H4 & H5). repeat split; auto.
    intros o Ho. apply Z.ltb_lt. auto.
Qed.

(** No order has a key at or above the counter. *)
Lemma has_order_fresh t o :
  well_formed t = true -> next_OrderID t <= o -> has_order t o = false.
Proof.
  intros Hwf Hle. apply well_formed_spec in Hwf. destruct Hwf as (H1 & _).
  unfold has_order. apply not_true_is_false. intro Hex.
  apply existsb_exists in Hex. destruct Hex as (r & Hr & Heq).
  apply Z.eqb_eq in Heq. specialize (H1 r Hr). lia.
Qed.

Lemma filter_nil_of {X : Type} (f : X -> bool) (l : list X) :
  (forall x, In x l -> f x = false) -> filter f l = [].
Proof.
  induction l as [| x l IH]; cbn; intro H; [reflexivity |].
  rewrite (H x (or_introl eq_refl)). apply IH. intros y Hy. apply H.
  right. exact Hy.
Qed.

(** Nothing refers to a key at or above the counter. *)
Lemma details_of_fresh t o :
  well_formed t = true -> next_OrderID t <= o -> details_of t o = [].
Proof.
  intros Hwf Hle. pose proof (has_order_fresh t o Hwf Hle) as Hno.
  apply well_formed_spec in Hwf. destruct Hwf as (_ & H2 & _).
  apply filter_nil_of. intros d Hd. apply not_true_is_false. intro Heq.
  apply Z.eqb_eq in Heq. specialize (H2 d Hd). congruence.
Qed.

Lemma payments_of_fresh t o :
  well_formed t = true -> next_OrderID t <= o -> payments_of t o = [].
Proof.
  intros Hwf Hle. pose proof (has_order_fresh t o Hwf Hle) as Hno.
  apply well_formed_spec in Hwf. destruct Hwf as (_ & _ & H3 & _).
  apply filter_nil_of. intros d Hd. apply not_true_is_false. intro Heq.
  apply Z.eqb_eq in Heq. specialize (H3 d Hd). congruence.
Qed.

Lemma log_of_fresh t o :
  well_formed t = true -> next_OrderID t <= o -> log_of t o = [].
Proof.
  intros Hwf Hle. pose proof (has_order_fresh t o Hwf Hle) as Hno.
  apply well_formed_spec in Hwf. destruct Hwf as (_ & _ & _ & H4 & _).
  apply filter_nil_of. intros d Hd. apply not_true_is_false. intro Heq.
  apply Z.eqb_eq in Heq. specialize (H4 d Hd). congruence.
Qed.

Lemma has_order_placed t c b q pm total o :
  has_order (placed t c b q pm total) o =
  has_order t o || (next_OrderID t =? o).
Proof.
  unfold has_order, placed. cbn. rewrite existsb_app. cbn.
  rewrite orb_false_r. reflexivity.
Qed.

(** A completed placement keeps the tables well formed. *)
Lemma well_formed_placed t c b q pm total :
  well_formed t = true -> well_formed (placed t c b q pm total) = true.
Proof.
  intro Hwf. apply well_formed_spec in Hwf.
  destruct Hwf as (H1 & H2 & H3 & H4 & H5).
  apply well_formed_spec. repeat split.
  - intros o Ho. cbn in Ho |- *. apply in_app_or in Ho.
    destruct Ho as [Ho | [<- | []]]; [specialize (H1 o Ho); lia | cbn; lia].
  - intros d Hd. rewrite has_order_placed. cbn in Hd. apply in_app_or in Hd.
    destruct Hd as [Hd | [<- | []]].
    + rewrite (H2 d Hd). reflexivity.
    + cbn. rewrite Z.eqb_refl. apply orb_true_r.
  - intros p Hp. rewrite has_order_placed. cbn in Hp. apply in_app_or in Hp.
    destruct Hp as [Hp | [<- | []]].
    + rewrite (H3 p Hp). reflexivity.
    + cbn. rewrite Z.eqb_refl. apply orb_true_r.
  - intros l Hl. rewrite has_order_placed. cbn in Hl. apply in_app_or in Hl.
    destruct Hl as [Hl | [<- | []]].
    + rewrite (H4 l Hl). reflexivity.
    + cbn. rewrite Z.eqb_refl. apply orb_true_r.
  - intros r Hr. cbn in Hr. apply in_map_iff in Hr.
    destruct Hr as (r0 & <- & Hr0). rewrite decrement_stock_price. auto.
Qed.

(** The rows of an order after a completed placement: those it had,
    and one more of each kind for the new order. *)
Lemma details_of_placed t c b q pm total o :
  details_of (placed t c b q pm total) o =
  details_of t o ++
  (if next_OrderID t =? o
   then [mkOrderDetail (next_OrderDetailID t) (next_OrderID t) b q]
   else []).
Proof.
  unfold details_of, placed. cbn. rewrite filter_app. cbn.
  destruct (next_OrderID t =? o); reflexivity.
Qed.

Lemma payments_of_placed t c b q pm total o :
  payments_of (placed t c b q pm total) o =
  payments_of t o ++
  (if next_OrderID t =? o
   then [mkPayment (next_PaymentID t) (next_OrderID t) pm total]
   else []).
Proof.
  unfold payments_of, placed. cbn. rewrite filter_app. cbn.
  destruct (next_OrderID t =? o); reflexivity.
Qed.

Lemma log_of_placed t c b q pm total o :
  log_of (placed t c b q pm total) o =
  log_of t o ++
  (if next_OrderID t =? o
   then [mkOrderLogEntry (next_LogID t) (next_OrderID t) pm]
   else []).
Proof.
  unfold log_of, placed. cbn. rewrite filter_app. cbn.
  destruct (next_OrderID t =? o); reflexivity.
Qed.

Lemma select_Price_placed t c b q pm total b0 :
  select_Price b0 (placed t c b q pm total) = select_Price b0 t.
Proof.
  unfold select_Price, placed. cbn. rewrite find_decrement_stock.
  destruct (find _ (Books t)); cbn; [apply decrement_stock_price | reflexivity].
Qed.

Lemma has_book_placed t c b q pm total b0 :
  has_book (placed t c b q pm total) b0 = has_book t b0.
Proof. unfold has_book, placed. cbn. apply has_book_decrement. Qed.

(** The price that the procedure selects is the unit price of the
    book. *)
Lemma select_Price_unit_price b t : select_Price b t = unit_price t b.
Proof.
  unfold select_Price, unit_price.
  induction (Books t) as [| r rows IH]; cbn; [reflexivity |].
  destruct (Books_BookID r =? b); [reflexivity | exact IH].
Qed.

Lemma unit_price_placed t c b q pm total b0 :
  unit_price (placed t c b q pm total) b0 = unit_price t b0.
Proof. rewrite <- !select_Price_unit_price. apply select_Price_placed. Qed.

Lemma line_amount_placed t c b q pm total d :
  line_amount (placed t c b q pm total) d = line_amount t d.
Proof. unfold line_amount. rewrite unit_price_placed. reflexivity. Qed.

Lemma seed_well_formed : well_formed seed = true.
Proof. reflexivity. Qed.

(* ===================================================================== *)
(** ** Every outcome of [PlaceOrder] *)
(* ===================================================================== *)

Lemma coerce_INT_inr column v v' :
  coerce_INT column v = inr v' -> v' = v.
Proof. unfold coerce_INT. destruct (_ && _); congruence. Qed.

Lemma bind_cases {A B : Type} (m : M A) (k : A -> M B) s r s' :
  bind m k s = (r, s') ->
  (exists e, m s = (inl e, s') /\ r = inl e) \/
  (exists a s1, m s = (inr a, s1) /\ k a s1 = (r, s')).
Proof.
  unfold bind. destruct (m s) as [[e | a] s1]; intro H.
  - left. exists e. inversion H. split; reflexivity.
  - right. exists a, s1. split; [reflexivity | exact H].
Qed.

Lemma coerce_cases {A : Type} (x : SqlError + A) s r s' :
  coerce x s = (r, s') -> r = x /\ s' = s.
Proof. unfold coerce. intro H. inversion H. split; reflexivity. Qed.

Lemma exec_txn_cases {A : Type} (stmt : Tables -> SqlError + (A * Tables))
    c w r s' :
  exec stmt (mkSession c (Some w)) = (r, s') ->
  (exists e, r = inl e /\ s' = mkSession c (Some w)) \/
  (exists a t', r = inr a /\ stmt w = inr (a, t') /\
                s' = mkSession c (Some t')).
Proof.
  unfold exec, view. cbn. destruct (stmt w) as [e | [a t']]; intro H;
    inversion H.
  - left. exists e. split; reflexivity.
  - right. exists a, t'. repeat split; reflexivity.
Qed.

Lemma exec_insert_txn_cases {A : Type} skip
    (stmt : Tables -> SqlError + (A * Tables)) c w r s' :
  exec_insert skip stmt (mkSession c (Some w)) = (r, s') ->
  (exists e, r = inl e /\
             (s' = mkSession c (Some w) \/ s' = mkSession c (Some (skip w)))) \/
  (exists a t', r = inr a /\ stmt w = inr (a, t') /\
                s' = mkSession c (Some t')).
Proof.
  unfold exec_insert, view. cbn. destruct (stmt w) as [e | [a t']]; intro H;
    inversion H.
  - left. exists e. split; [reflexivity |]. destruct (key_taken e); auto.
  - right. exists a, t'. repeat split; reflexivity.
Qed.

(** Where a call of [PlaceOrder] can leave the connection:
    - untouched, when an argument does not fit its parameter;
    - inside the transaction it opened, when a statement failed: what the
      connection saw before is committed, and the working copy holds the
      rows written so far;
    - with the placement committed. *)
Lemma PlaceOrder_outcome c b q pm s r s' :
  PlaceOrder c b q pm s = (r, s') ->
  (exists e, r = inl e /\ s' = s) \/
  (exists e w,
     r = inl e /\ s' = mkSession (view s) (Some w) /\
     (Orders w = Orders (view s) \/
      Orders w =
        Orders (view s) ++ [mkOrder (next_OrderID (view s)) c "Pending"]) /\
     (Payments w = Payments (view s) \/
      exists pm' p,
        coerce_VARCHAR_50 "p_PaymentMethod" pm = inr pm' /\
        sql_IN pm' Payments_methods = true /\
        Payments_PaymentMethod p = pm' /\
        Payments w = Payments (view s) ++ [p]) /\
     OrderLog w = OrderLog (view s)) \/
  (exists pm' oid total,
     r = inr (oid, total) /\
     coerce_VARCHAR_50 "p_PaymentMethod" pm = inr pm' /\
     sql_IN pm' Payments_methods = true /\
     s' = mkSession (placed (view s) c b q pm' total) None).
Proof.
  intro H. destruct r as [e | [oid total]].
  2:{ right. right. apply PlaceOrder_success in H.
      destruct H as (pm' & _ & _ & _ & Hpm & _ & _ & _ & Hin & _ & _ & Hs).
      exists pm', oid, total. repeat split; assumption. }
  unfold PlaceOrder in H.
  (* the four parameters *)
  apply bind_cases in H. destruct H as [(e1 & H & _) | (c' & s1 & Hst & H)].
  { left. exists e. apply coerce_cases in H. split; [reflexivity | apply H]. }
  apply coerce_inr in Hst. destruct Hst as [Hv ->].
  apply coerce_INT_inr in Hv. subst c'.
  apply bind_cases in H. destruct H as [(e1 & H & _) | (b' & s1 & Hst & H)].
  { left. exists e. apply coerce_cases in H. split; [reflexivity | apply H]. }
  apply coerce_inr in Hst. destruct Hst as [Hv ->].
  apply coerce_INT_inr in Hv. subst b'.
  apply bind_cases in H. destruct H as [(e1 & H & _) | (q' & s1 & Hst & H)].
  { left. exists e. apply coerce_cases in H. split; [reflexivity | apply H]. }
  apply coerce_inr in Hst. destruct Hst as [Hv ->].
  apply coerce_INT_inr in Hv. subst q'.
  apply bind_cases in H. destruct H as [(e1 & H & _) | (pm' & s1 & Hst & H)].
  { left. exists e. apply coerce_cases in H. split; [reflexivity | apply H]. }
  apply coerce_inr in Hst. destruct Hst as [Hpm ->].
  (* inside the transaction *)
  right. left. exists e.
  apply bind_cases in H. destruct H as [(e1 & H & _) | ([] & s1 & Hst & H)].
  { discriminate H. }
  unfold START_TRANSACTION in Hst. inversion Hst; subst s1; clear Hst.
  set (t := view s) in *. clearbody t.
  apply bind_cases in H. destruct H as [(e1 & H & _) | (o & s1 & Hst & H)].
  { apply exec_insert_txn_cases in H.
    destruct H as [(? & _ & [-> | ->]) | (? & ? & ? & _)]; [| | discriminate];
      (eexists; split; [reflexivity |]; split; [reflexivity |]; cbn; auto 6). }
  apply exec_insert_txn_cases in Hst.
  destruct Hst as [(? & ? & _) | (? & t1 & Ha & Hst & ->)]; [discriminate |].
  inversion Ha; subst o; clear Ha.
  unfold insert_Orders in Hst.
  destruct (next_key "OrderID" (next_OrderID t)) as [e1 | id] eqn:Hk1;
    [discriminate |].
  apply next_key_inr in Hk1. destruct Hk1 as [-> _].
  destruct (has_customer t c); [| discriminate].
  inversion Hst; subst; clear Hst.
  apply bind_cases in H. destruct H as [(e1 & H & _) | ([] & s1 & Hst & H)].
  { apply exec_insert_txn_cases in H.
    destruct H as [(? & _ & [-> | ->]) | (? & ? & ? & _)]; [| | discriminate];
      (eexists; split; [reflexivity |]; split; [reflexivity |]; cbn; auto 6). }
  apply exec_insert_txn_cases in Hst.
  destruct Hst as [(? & ? & _) | (? & t2 & _ & Hst & ->)]; [discriminate |].
  unfold insert_OrderDetails in Hst.
  destruct (negb (0 <? q)); [discriminate |].
  destruct (next_key "OrderDetailID" _) as [e1 | id] eqn:Hk2; [discriminate |].
  apply next_key_inr in Hk2. destruct Hk2 as [-> _].
  destruct (negb (has_order _ _)); [discriminate |].
  destruct (negb (has_book _ _)); [discriminate |].
  inversion Hst; subst t2; clear Hst.
  apply bind_cases in H. destruct H as [(e1 & H & _) | ([] & s1 & Hst & H)].
  { apply exec_txn_cases in H. destruct H as [(? & _ & ->) | (? & ? & ? & _)];
      [| discriminate].
    eexists. split; [reflexivity |]. split; [reflexivity |]. cbn. auto 6. }
  apply exec_txn_cases in Hst.
  destruct Hst as [(? & ? & _) | (? & t3 & _ & Hst & ->)]; [discriminate |].
  unfold update_Books_Stock in Hst. inversion Hst; subst t3; clear Hst.
  apply bind_cases in H. destruct H as [(e1 & H & _) | (price & s1 & Hst & H)].
  { discriminate H. }
  unfold query in Hst. inversion Hst; subst s1; clear Hst.
  apply bind_cases in H. destruct H as [(e1 & H & _) | (tot & s1 & Hst & H)].
  { apply coerce_cases in H. destruct H as [_ ->].
    eexists. split; [reflexivity |]. split; [reflexivity |]. cbn. auto 6. }
  apply coerce_cases in Hst. destruct Hst as [_ ->].
  apply bind_cases in H. destruct H as [(e1 & H & _) | ([] & s1 & Hst & H)].
  { apply exec_insert_txn_cases in H.
    destruct H as [(? & _ & [-> | ->]) | (? & ? & ? & _)]; [| | discriminate];
      (eexists; split; [reflexivity |]; split; [reflexivity |]; cbn; auto 6). }
  apply exec_insert_txn_cases in Hst.
  destruct Hst as [(? & ? & _) | (? & t4 & _ & Hst & ->)]; [discriminate |].
  unfold insert_Payments in Hst.
  destruct (sql_IN pm' Payments_methods) eqn:Hin; [| discriminate].
  cbn [negb] in Hst.
  destruct (negb (check_nonneg _)); [discriminate |].
  destruct (next_key "PaymentID" _) as [e1 | id] eqn:Hk3; [discriminate |].
  apply next_key_inr in Hk3. destruct Hk3 as [-> _].
  destruct (negb (has_order _ _)); [discriminate |].
  inversion Hst; subst t4; clear Hst.
  apply bind_cases in H. destruct H as [(e1 & H & _) | ([] & s1 & Hst & H)].
  { (* the log entry is refused *)
    apply exec_insert_txn_cases in H.
    destruct H as [(? & _ & [-> | ->]) | (? & ? & ? & _)]; [| | discriminate];
      (eexists; split; [reflexivity |]; split; [reflexivity |]; cbn;
       split; [auto |]; split; [| reflexivity];
       right; exists pm'; eexists; repeat split; try eassumption;
       reflexivity). }
  apply bind_cases in H. destruct H as [(e1 & H & _) | ([] & s2 & _ & H)].
  { discriminate H. }
  discriminate H.
Qed.

(* ===================================================================== *)
(** ** Properties of a placement *)
(* ===================================================================== *)

Lemma sql_SUM_single (x : option Z) : sql_SUM [x] = x.
Proof. destruct x; reflexivity. Qed.

(** C3 on the code.  The order row that a failed placement leaves
    behind (the procedure has no ROLLBACK) is committed by the next
    placement on the connection, which is answered with 201: order 4 is
    then a committed order that has no payment row at all, so its
    amount is not the sum over its lines. *)
Lemma committed_order_without_payment :
  post_orders (Some after_unknown_book) scenario =
    (json 201 [("message", "Order placed successfully")],
     Some after_next_order) /\
  open_txn after_next_order = None /\
  In (mkOrder 4 1 "Pending") (Orders (committed after_next_order)) /\
  payments_of (committed after_next_order) 4 = [] /\
  ~ amount_matches (committed after_next_order) (committed after_next_order) 4.
Proof.
  split; [vm_compute; reflexivity |].
  split; [reflexivity |].
  split; [vm_compute; tauto |].
  split; [reflexivity |].
  intros (p & a & Hp & _). vm_compute in Hp. discriminate Hp.
Qed.

(** X30.  After every call of [PlaceOrder] that returns, for a book that
    has a price, the new order is committed with one line and one
    payment, whose amount is the sum over the order's lines of unit
    price times quantity, at the prices the books had when the call
    started; the same holds at the prices in the committed tables, and
    an order for which it held before the call still satisfies it. *)
Theorem payment_amount_is_order_total c b q pm s oid total s' price :
  well_formed (view s) = true ->
  PlaceOrder c b q pm s = (inr (oid, total), s') ->
  unit_price (view s) b = Some price ->
  open_txn s' = None /\
  has_order (committed s') oid = true /\
  (exists d p,
     details_of (committed s') oid = [d] /\
     OrderDetails_BookID d = b /\ OrderDetails_Quantity d = q /\
     payments_of (committed s') oid = [p] /\
     Payments_Amount p = Some (price * q)) /\
  total = Some (price * q) /\
  order_amount (view s) (committed s') oid = Some (price * q) /\
  amount_matches (view s) (committed s') oid /\
  amount_matches (committed s') (committed s') oid /\
  (forall o, amount_matches (view s) (view s) o ->
             amount_matches (committed s') (committed s') o).
Proof.
  intros Hwf H Hprice. apply PlaceOrder_success in H.
  destruct H as (pm' & _ & _ & _ & _ & _ & _ & _ & _ & -> & Htot & ->).
  set (t := view s) in *. clearbody t. cbn [open_txn committed].
  rewrite select_Price_unit_price, Hprice in Htot. cbn in Htot.
  assert (Hd : details_of (placed t c b q pm' total) (next_OrderID t) =
               [mkOrderDetail (next_OrderDetailID t) (next_OrderID t) b q]).
  { rewrite details_of_placed, Z.eqb_refl, details_of_fresh by (auto; lia).
    reflexivity. }
  assert (Hp : payments_of (placed t c b q pm' total) (next_OrderID t) =
               [mkPayment (next_PaymentID t) (next_OrderID t) pm' total]).
  { rewrite payments_of_placed, Z.eqb_refl, payments_of_fresh by (auto; lia).
    reflexivity. }
  assert (Ht : order_amount t (placed t c b q pm' total) (next_OrderID t)
               = Some (price * q)).
  { unfold order_amount. rewrite Hd. cbn [map sum_amounts].
    unfold line_amount. cbn [OrderDetails_BookID OrderDetails_Quantity].
    rewrite Hprice. f_equal. lia. }
  assert (Ht' : order_amount (placed t c b q pm' total)
                  (placed t c b q pm' total) (next_OrderID t)
                = Some (price * q)).
  { unfold order_amount. rewrite Hd. cbn [map sum_amounts].
    rewrite line_amount_placed.
    unfold line_amount. cbn [OrderDetails_BookID OrderDetails_Quantity].
    rewrite Hprice. f_equal. lia. }
  split; [reflexivity |].
  split; [rewrite has_order_placed, Z.eqb_refl; apply orb_true_r |].
  split.
  { eexists. eexists. split; [exact Hd |].
    split; [reflexivity |]. split; [reflexivity |].
    split; [exact Hp | exact Htot]. }
  split; [exact Htot |]. split; [exact Ht |]. split; [| split].
  - eexists. exists (price * q). split; [exact Hp |].
    split; [exact Htot | exact Ht].
  - eexists. exists (price * q). split; [exact Hp |].
    split; [exact Htot | exact Ht'].
  - intros o (p & a & Hpo & Ha & Hsum).
    assert (Hne : (next_OrderID t =? o) = false).
    { apply Z.eqb_neq. intros <-.
      rewrite payments_of_fresh in Hpo by (auto; lia). discriminate. }
    exists p, a. split; [| split].
    + rewrite payments_of_placed, Hne, app_nil_r. exact Hpo.
    + exact Ha.
    + rewrite <- Hsum. unfold order_amount.
      rewrite details_of_placed, Hne, app_nil_r.
      f_equal. apply map_ext. intro d. apply line_amount_placed.
Qed.

Lemma payment_amount_is_order_total_witness :
  let s' := snd (PlaceOrder 1 1 3 "Card" seed_session) in
  (exists d p,
     details_of (committed s') 4 = [d] /\
     OrderDetails_BookID d = 1 /\ OrderDetails_Quantity d = 3 /\
     payments_of (committed s') 4 = [p] /\
     Payments_Amount p = Some (120000 * 3)) /\
  order_amount seed (committed s') 4 = Some 360000.
Proof.
  destruct (payment_amount_is_order_total 1 1 3 "Card" seed_session 4
              (Some 360000) (snd (PlaceOrder 1 1 3 "Card" seed_session))
              120000 eq_refl eq_refl eq_refl)
    as (_ & _ & Hrows & _ & Hsum & _).
  split; [exact Hrows | exact Hsum].
Defined.

(** C5 on the code.  The order row that a failed placement leaves
    behind (the procedure has no ROLLBACK) is committed by the next
    placement on the connection: order 4 is then a committed order with
    no line, no payment and no log entry. *)
Lemma committed_order_without_rows :
  status (fst (post_orders (Some seed_session) unknown_book)) = 500 /\
  snd (post_orders (Some seed_session) unknown_book)
    = Some after_unknown_book /\
  status (fst (post_orders (Some after_unknown_book) scenario)) = 201 /\
  snd (post_orders (Some after_unknown_book) scenario)
    = Some after_next_order /\
  open_txn after_next_order = None /\
  has_order (committed after_next_order) 4 = true /\
  List.length (details_of (committed after_next_order) 4) = 0%nat /\
  List.length (payments_of (committed after_next_order) 4) = 0%nat /\
  List.length (log_of (committed after_next_order) 4) = 0%nat.
Proof. vm_compute. repeat split; reflexivity. Qed.

(** X31.  After every call of [PlaceOrder] that returns, the new order
    is committed with exactly one payment, exactly one log entry and
    one order line, and the rows of every other order are what they
    were. *)
Theorem placed_order_has_one_payment_and_log c b q pm s oid total s' :
  well_formed (view s) = true ->
  PlaceOrder c b q pm s = (inr (oid, total), s') ->
  open_txn s' = None /\
  has_order (view s) oid = false /\
  has_order (committed s') oid = true /\
  List.length (payments_of (committed s') oid) = 1%nat /\
  List.length (log_of (committed s') oid) = 1%nat /\
  List.length (details_of (committed s') oid) = 1%nat /\
  (forall o, o <> oid ->
     payments_of (committed s') o = payments_of (view s) o /\
     log_of (committed s') o = log_of (view s) o /\
     details_of (committed s') o = details_of (view s) o).
Proof.
  intros Hwf H. apply PlaceOrder_success in H.
  destruct H as (pm' & _ & _ & _ & _ & _ & _ & _ & _ & -> & Htot & ->).
  set (t := view s) in *. clearbody t. cbn [open_txn committed].
  split; [reflexivity |].
  split; [apply has_order_fresh; [assumption | lia] |].
  split; [rewrite has_order_placed, Z.eqb_refl; apply orb_true_r |].
  rewrite payments_of_placed, log_of_placed, details_of_placed, Z.eqb_refl.
  rewrite payments_of_fresh, log_of_fresh, details_of_fresh by (auto; lia).
  repeat (split; [reflexivity |]).
  intros o Hne. apply not_eq_sym, Z.eqb_neq in Hne.
  rewrite payments_of_placed, log_of_placed, details_of_placed, Hne.
  rewrite !app_nil_r. repeat split; reflexivity.
Qed.

Lemma placed_order_has_one_payment_and_log_witness :
  let s' := snd (PlaceOrder 1 2 1 "Cash" seed_session) in
  open_txn s' = None /\
  has_order (view seed_session) 4 = false /\
  has_order (committed s') 4 = true /\
  List.length (payments_of (committed s') 4) = 1%nat /\
  List.length (log_of (committed s') 4) = 1%nat /\
  List.length (details_of (committed s') 4) = 1%nat.
Proof.
  pose proof (placed_order_has_one_payment_and_log 1 2 1 "Cash" seed_session
                4 (Some 90000)
                (snd (PlaceOrder 1 2 1 "Cash" seed_session))
                eq_refl eq_refl) as H.
  cbv zeta. intuition.
Defined.

(** C8.  Whatever a call of [PlaceOrder] returns, the orders that the
    connection sees afterwards are the orders it saw before, unchanged,
    followed by at most one new row, whose status is [Pending]; the same
    holds of the committed orders. *)
Theorem placement_creates_pending_order c b q pm s r s' :
  PlaceOrder c b q pm s = (r, s') ->
  let created := mkOrder (next_OrderID (view s)) c "Pending" in
  (Orders (view s') = Orders (view s) \/
   Orders (view s') = Orders (view s) ++ [created]) /\
  (Orders (committed s') = Orders (committed s) \/
   Orders (committed s') = Orders (view s) \/
   Orders (committed s') = Orders (view s) ++ [created]) /\
  Orders_Status created = "Pending".
Proof.
  intro H. apply PlaceOrder_outcome in H.
  destruct H as [(e & _ & ->) | [(e & w & _ & -> & Ho & _) |
                                 (pm' & oid & total & _ & _ & _ & ->)]];
    cbn; auto.
Qed.

Lemma placement_creates_pending_order_witness :
  let s' := snd (PlaceOrder 1 2 1 "Cash" seed_session) in
  let created := mkOrder 4 1 "Pending" in
  (Orders (view s') = Orders seed \/
   Orders (view s') = Orders seed ++ [created]) /\
  (Orders (committed s') = Orders seed \/
   Orders (committed s') = Orders seed \/
   Orders (committed s') = Orders seed ++ [created]) /\
  Orders_Status created = "Pending".
Proof.
  exact (placement_creates_pending_order 1 2 1 "Cash" seed_session
           (fst (PlaceOrder 1 2 1 "Cash" seed_session))
           (snd (PlaceOrder 1 2 1 "Cash" seed_session)) eq_refl).
Defined.

(* ===================================================================== *)
(** ** The handlers: validation *)
(* ===================================================================== *)

(** The middleware leaves the payment method as it was sent, and an
    array of items too. *)
Lemma lowercase_paymentMethod v : lowercase_value "paymentMethod" v = v.
Proof. destruct v as [[| | | | | | |] |]; reflexivity. Qed.

Lemma lowercase_array key its :
  lowercase_value key (Some (JArray its)) = Some (JArray its).
Proof. reflexivity. Qed.

Lemma lowercase_number key n :
  lowercase_value key (Some (JNumber n)) = Some (JNumber n).
Proof. reflexivity. Qed.

Lemma no_items_lowercase key v : no_items (lowercase_value key v) = no_items v.
Proof. destruct v as [[| | | | | | |] |]; reflexivity. Qed.


Lemma lowercase_body_order c its pm :
  lowercase_body (order c its pm) = order c its pm.
Proof. reflexivity. Qed.

(** The handler's list of methods is the list of the schema's CHECK. *)
Lemma valid_method_in_schema pm :
  JS.array_includes validPaymentMethods pm = true <->
  In pm Payments_methods.
Proof.
  unfold JS.array_includes. rewrite existsb_exists. split.
  - intros (x & Hx & Heq). apply String.eqb_eq in Heq. subst x.
    cbn in Hx |- *. intuition.
  - intro H. exists pm. split; [| apply String.eqb_refl].
    cbn in H |- *. intuition.
Qed.








(* ===================================================================== *)
(** ** The handlers: changing the status of an order *)
(* ===================================================================== *)

Lemma set_status_absent o st (rows : list Order) :
  existsb (fun r => Orders_OrderID r =? o) rows = false ->
  map (set_status o st) rows = rows.
Proof.
  induction rows as [| r rows IH]; cbn; [reflexivity |].
  intro H. apply orb_false_iff in H. destruct H as [Hr Hrows].
  unfold set_status at 1. rewrite Hr, IH by assumption. reflexivity.
Qed.




(* ===================================================================== *)
(** ** The handlers: the loop over the items *)
(* ===================================================================== *)

Lemma coerce_INT_fits column v v' :
  coerce_INT column v = inr v' -> in_INT v = true.
Proof. unfold coerce_INT, in_INT. destruct (_ && _); [auto | discriminate]. Qed.

(** An argument that fits an INT parameter was written with its own
    digits. *)
Lemma argument_Int x z :
  argument x = inr z -> in_INT z = true -> x = JS.Int z.
Proof.
  destruct x as [| z' | [|] | negative]; cbn; intros H Hin;
    try discriminate H; inversion H; subst; try reflexivity;
    vm_compute in Hin; discriminate Hin.
Qed.

Lemma CALL_PlaceOrder_success c b q pm s s' :
  CALL_PlaceOrder c b q pm s = (inr tt, s') ->
  exists c0 b0 q0 oid total,
    c = JS.Int c0 /\ b = JS.Int b0 /\ q = JS.Int q0 /\
    PlaceOrder c0 b0 q0 pm s = (inr (oid, total), s').
Proof.
  unfold CALL_PlaceOrder, throw.
  destruct (argument c) as [n | c0] eqn:Hc; [discriminate |].
  destruct (argument b) as [n | b0] eqn:Hb; [discriminate |].
  destruct (argument q) as [n | q0] eqn:Hq; [discriminate |].
  intro H. apply bind_inr in H. destruct H as ([oid total] & s1 & H & Hr).
  unfold ret in Hr. inversion Hr; subst s1.
  destruct (PlaceOrder_success _ _ _ _ _ _ _ _ H)
    as (pm' & Hc1 & Hb1 & Hq1 & _).
  apply coerce_INT_fits in Hc1, Hb1, Hq1.
  exists c0, b0, q0, oid, total.
  split; [apply argument_Int; assumption |].
  split; [apply argument_Int; assumption |].
  split; [apply argument_Int; assumption | exact H].
Qed.

Lemma CALL_PlaceOrder_Int c b q pm :
  CALL_PlaceOrder (JS.Int c) (JS.Int b) (JS.Int q) pm =
  bind (PlaceOrder c b q pm) (fun _ => ret tt).
Proof. reflexivity. Qed.



Section Loop.

Variable customer : option JSON.
Variable c : Z.
Variable pm : string.
Hypothesis customer_parsed : parseInt_value customer = inr (JS.Int c).
Hypothesis pm_fits : coerce_VARCHAR_50 "p_PaymentMethod" pm = inr pm.


End Loop.

(** A method of the handler's list fits the parameter of the procedure. *)
Lemma valid_method_fits pm :
  JS.array_includes validPaymentMethods pm = true ->
  coerce_VARCHAR_50 "p_PaymentMethod" pm = inr pm.
Proof.
  intro H. apply valid_method_in_schema in H. cbn in H.
  destruct H as [<- | [<- | [<- | [<- | [<- | []]]]]]; reflexivity.
Qed.

Lemma methods_from_committed s pm : methods_from s pm (committed s).
Proof. split; auto. Qed.

Lemma methods_from_view s pm : methods_from s pm (view s).
Proof. split; auto. Qed.

Lemma methods_from_placed s pm c b q total :
  methods_from s pm (placed (view s) c b q pm total).
Proof.
  split; cbn; intros x Hx; apply in_app_or in Hx;
    destruct Hx as [Hx | [<- | []]]; auto.
Qed.

Lemma methods_from_trans s pm c b q total t :
  methods_from (mkSession (placed (view s) c b q pm total) None) pm t ->
  methods_from s pm t.
Proof.
  intros [Hp Hl]. cbn [committed view open_txn] in Hp, Hl.
  destruct (methods_from_placed s pm c b q total) as [Hp1 Hl1].
  split.
  - intros p Hin. destruct (Hp p Hin) as [H | [H | H]]; auto.
  - intros l Hin. destruct (Hl l Hin) as [H | [H | H]]; auto.
Qed.

(** Whatever a call returns, every payment and log entry it leaves on
    the connection, committed or not, was there before or carries the
    method of the request. *)
Lemma CALL_PlaceOrder_methods c b q pm s e s' :
  coerce_VARCHAR_50 "p_PaymentMethod" pm = inr pm ->
  CALL_PlaceOrder c b q pm s = (inl e, s') ->
  methods_from s pm (view s') /\ methods_from s pm (committed s').
Proof.
  intros Hfit Hcall. unfold CALL_PlaceOrder, throw in Hcall.
  destruct (argument c) as [n | c0];
    [inversion Hcall; subst;
     split; [apply methods_from_view | apply methods_from_committed] |].
  destruct (argument b) as [n | b0];
    [inversion Hcall; subst;
     split; [apply methods_from_view | apply methods_from_committed] |].
  destruct (argument q) as [n | q0];
    [inversion Hcall; subst;
     split; [apply methods_from_view | apply methods_from_committed] |].
  apply bind_cases in Hcall.
  destruct Hcall as [(e' & Hcall & _) | (a & s1 & _ & Hret)];
    [| discriminate Hret].
  apply PlaceOrder_outcome in Hcall.
  destruct Hcall as [(e0 & _ & ->) | [(e0 & w & _ & -> & _ & Hp & Hl) |
                                      (? & ? & ? & Habs & _)]];
    [| | discriminate Habs].
  - split; [apply methods_from_view | apply methods_from_committed].
  - split; [| apply methods_from_view].
    split; cbn [view open_txn]; [| rewrite Hl; auto].
    destruct Hp as [-> | (pm' & p & Hpm & _ & Hmethod & ->)]; [auto |].
    rewrite Hfit in Hpm. inversion Hpm; subst pm'.
    intros x Hx. apply in_app_or in Hx.
    destruct Hx as [Hx | [<- | []]]; auto.
Qed.

Lemma place_items_methods customer pm its :
  coerce_VARCHAR_50 "p_PaymentMethod" pm = inr pm ->
  forall s r s',
    place_items customer pm its s = (r, s') ->
    methods_from s pm (view s') /\ methods_from s pm (committed s').
Proof.
  intro Hfit. induction its as [| it rest IH]; intros s r s' H.
  - cbn in H. inversion H; subst.
    split; [apply methods_from_view | apply methods_from_committed].
  - cbn [place_items] in H.
    destruct (call_arguments customer it) as [e | [[c b] q]].
    { inversion H; subst.
      split; [apply methods_from_view | apply methods_from_committed]. }
    destruct (CALL_PlaceOrder c b q pm s) as [[e | []] s1] eqn:Hcall.
    + inversion H; subst.
      exact (CALL_PlaceOrder_methods _ _ _ _ _ _ _ Hfit Hcall).
    + apply CALL_PlaceOrder_success in Hcall.
      destruct Hcall as (c0 & b0 & q0 & oid & total & _ & _ & _ & Hcall).
      apply PlaceOrder_success in Hcall.
      destruct Hcall as
        (pm' & _ & _ & _ & Hpm & _ & _ & _ & _ & _ & _ & ->).
      rewrite Hfit in Hpm. inversion Hpm; subst pm'.
      destruct (IH _ _ _ H) as [Hv Hc].
      split; eapply methods_from_trans; eassumption.
Qed.

(** C7.  A request whose payment method is missing or is not one of
    SadaPay, EasyPaisa, JazzCash, Card, Cash is answered with 400 and the
    connection is returned as it was; and whatever the request, every
    payment and every log entry that the connection holds afterwards,
    committed or not, was there before or carries one of these methods. *)
Theorem payment_method_is_validated s req resp pool' :
  post_orders (Some s) req = (resp, pool') ->
  ((forall pm, paymentMethod req = Some (JString pm) ->
               ~ In pm Payments_methods) ->
   status resp = 400 /\ pool' = Some s) /\
  (forall s' t,
     pool' = Some s' -> t = view s' \/ t = committed s' ->
     (forall p, In p (Payments t) ->
        In p (Payments (committed s)) \/ In p (Payments (view s)) \/
        In (Payments_PaymentMethod p) Payments_methods) /\
     (forall l, In l (OrderLog t) ->
        In l (OrderLog (committed s)) \/ In l (OrderLog (view s)) \/
        In (OrderLog_PaymentMethod l) Payments_methods)).
Proof.
  unfold post_orders, post_orders_handler.
  cbn [lowercase_body customerId items paymentMethod].
  rewrite lowercase_paymentMethod.
  assert (Hsame : forall s' t, Some s = Some s' ->
            t = view s' \/ t = committed s' ->
            (forall p, In p (Payments t) ->
               In p (Payments (committed s)) \/ In p (Payments (view s)) \/
               In (Payments_PaymentMethod p) Payments_methods) /\
            (forall l, In l (OrderLog t) ->
               In l (OrderLog (committed s)) \/ In l (OrderLog (view s)) \/
               In (OrderLog_PaymentMethod l) Payments_methods)).
  { intros s' t Hs Ht. inversion Hs; subst s'.
    destruct Ht as [-> | ->]; split; auto. }
  destruct (_ || _ || _) eqn:Hreq.
  { intro H. inversion H; subst. split; auto. }
  destruct (lowercase_value "items" (items req)) as [[| | | | | its | |] |];
    try solve [intro H; inversion H; subst; split; auto].
  destruct (paymentMethod req) as [[| | | | pm | | |] |] eqn:Hpm;
    try solve [intro H; inversion H; subst; split; auto].
  destruct (JS.array_includes validPaymentMethods pm) eqn:Hvalid; cbn [negb].
  2:{ intro H. inversion H; subst. split; auto. }
  assert (Hin : In pm Payments_methods) by (apply valid_method_in_schema; auto).
  destruct (some_invalid its) as [e | [|]].
  { intro H. inversion H; subst. split; [| exact Hsame].
    intro Hno. exfalso. exact (Hno pm eq_refl Hin). }
  { intro H. inversion H; subst. split; auto. }
  destruct (place_items _ pm its s) as [r s1] eqn:Hrun.
  apply place_items_methods in Hrun; [| apply valid_method_fits; exact Hvalid].
  destruct Hrun as [[Hvp Hvl] [Hcp Hcl]].
  intro H. split.
  - intro Hno. exfalso. exact (Hno pm eq_refl Hin).
  - intros s' t Hs Ht.
    assert (s' = s1) as -> by (destruct r; inversion H; congruence).
    destruct Ht as [-> | ->]; split.
    + intros p Hp. destruct (Hvp p Hp) as [? | [? | Hm]]; auto.
      right. right. rewrite Hm. exact Hin.
    + intros l Hl. destruct (Hvl l Hl) as [? | [? | Hm]]; auto.
      right. right. rewrite Hm. exact Hin.
    + intros p Hp. destruct (Hcp p Hp) as [? | [? | Hm]]; auto.
      right. right. rewrite Hm. exact Hin.
    + intros l Hl. destruct (Hcl l Hl) as [? | [? | Hm]]; auto.
      right. right. rewrite Hm. exact Hin.
Qed.

Lemma payment_method_is_validated_witness :
  let req := order 1 [item 2 1] "Bitcoin" in
  status (fst (post_orders (Some seed_session) req)) = 400 /\
  snd (post_orders (Some seed_session) req) = Some seed_session.
Proof.
  refine (proj1 (payment_method_is_validated seed_session
                   (order 1 [item 2 1] "Bitcoin") _ _ eq_refl) _).
  intros pm Hpm. inversion Hpm; subst pm. simpl.
  intros [H | [H | [H | [H | [H | []]]]]]; discriminate H.
Defined.

(* ===================================================================== *)
(** ** The handlers: a request that is answered with 201 *)
(* ===================================================================== *)






(* ===================================================================== *)
(** ** The handlers: a request that the schema accepts *)
(* ===================================================================== *)

Lemma select_Price_nonneg t b p :
  well_formed t = true -> select_Price b t = Some p -> 0 <= p.
Proof.
  intros Hwf Hp. apply well_formed_spec in Hwf.
  destruct Hwf as (_ & _ & _ & _ & H5).
  unfold select_Price in Hp.
  destruct (find _ (Books t)) as [r |] eqn:Hfind; [| discriminate].
  apply find_some in Hfind. destruct Hfind as [Hin _].
  specialize (H5 r Hin). rewrite Hp in H5. cbn in H5.
  apply Z.leb_le. exact H5.
Qed.

Lemma placeable_placed t c b q pm total it :
  placeable (placed t c b q pm total) it = placeable t it.
Proof.
  unfold placeable. destruct it as [| | | | | | members |]; try reflexivity.
  destruct (own_member "bookId" members) as [[| | b0 | | | | |] |];
    try reflexivity.
  destruct (own_member "quantity" members) as [[| | q0 | | | | |] |];
    try reflexivity.
  rewrite has_book_placed, unit_price_placed. reflexivity.
Qed.

(** The amount of a line whose product fits the column is stored as it
    is, and passes the CHECK of [Payments]. *)
Lemma amount_fits t b q :
  well_formed t = true -> 0 < q ->
  match unit_price t b with
  | Some price => price * q <=? DECIMAL_10_2_MAX
  | None => true
  end = true ->
  coerce_DECIMAL_10_2 "v_TotalAmount" (sql_mul (select_Price b t) q)
    = inr (sql_mul (select_Price b t) q) /\
  check_nonneg (sql_mul (select_Price b t) q) = true.
Proof.
  intros Hwf Hpos. rewrite <- select_Price_unit_price.
  unfold sql_mul, option_map, coerce_DECIMAL_10_2, check_nonneg.
  destruct (select_Price b t) as [p |] eqn:Hp; [| auto].
  intro Hamount. pose proof (select_Price_nonneg _ _ _ Hwf Hp) as Hp0.
  assert (Hlow : (- DECIMAL_10_2_MAX <=? p * q) = true)
    by (apply Z.leb_le; unfold DECIMAL_10_2_MAX; nia).
  rewrite Hlow, Hamount. split; [reflexivity |]. apply Z.leb_le. nia.
Qed.

Lemma keys_left_one t n : keys_left t (S n) = true -> keys_left t 1 = true.
Proof.
  unfold keys_left, in_INT. cbn [forallb].
  rewrite !andb_true_iff, !Z.leb_le. unfold INT_MIN, INT_MAX. lia.
Qed.

Lemma keys_left_placed t c b q pm total n :
  keys_left t (S (S n)) = true ->
  keys_left (placed t c b q pm total) (S n) = true.
Proof.
  unfold keys_left, in_INT.
  cbn [forallb placed next_OrderID next_OrderDetailID next_PaymentID
       next_LogID].
  rewrite !andb_true_iff, !Z.leb_le. unfold INT_MIN, INT_MAX. lia.
Qed.

Lemma placeable_arguments customer c t it :
  parseInt_value customer = inr (JS.Int c) ->
  placeable t it = true ->
  exists b q,
    call_arguments customer it = inr (JS.Int c, JS.Int b, JS.Int q) /\
    in_INT b = true /\ in_INT q = true /\ 0 < q /\ has_book t b = true /\
    match unit_price t b with
    | Some price => price * q <=? DECIMAL_10_2_MAX
    | None => true
    end = true.
Proof.
  intros Hc. unfold placeable.
  destruct it as [| | | | | | members |]; try discriminate.
  destruct (own_member "bookId" members) as [[| | b | | | | |] |] eqn:Hb;
    try discriminate.
  destruct (own_member "quantity" members) as [[| | q | | | | |] |] eqn:Hq;
    try discriminate.
  rewrite !andb_true_iff.
  intros [[[[[_ Hpos] Hbfit] Hqfit] Hbook] Hamount].
  apply Z.ltb_lt in Hpos. apply Z.leb_le in Hqfit.
  assert (Hqin : in_INT q = true)
    by (apply in_INT_spec; unfold INT_MIN; lia).
  exists b, q. repeat split; try assumption.
  unfold call_arguments. cbn [property]. rewrite Hc, Hb, Hq.
  rewrite (parseInt_INT _ Hbfit), (parseInt_INT _ Hqin). reflexivity.
Qed.

Section Accepted.

Variable customer : option JSON.
Variable c : Z.
Variable pm : string.
Hypothesis customer_parsed : parseInt_value customer = inr (JS.Int c).
Hypothesis c_fits : in_INT c = true.
Hypothesis pm_valid : In pm Payments_methods.

Lemma place_items_runs its :
  forall s,
    well_formed (view s) = true ->
    has_customer (view s) c = true ->
    forallb (placeable (view s)) its = true ->
    (its <> [] -> keys_left (view s) (List.length its) = true) ->
    exists s', place_items customer pm its s = (inr tt, s').
Proof.
  assert (Hvalid : JS.array_includes validPaymentMethods pm = true)
    by (apply valid_method_in_schema; exact pm_valid).
  pose proof (valid_method_fits pm Hvalid) as Hfit.
  assert (Hin : sql_IN pm Payments_methods = true).
  { cbn in pm_valid.
    destruct pm_valid as [<- | [<- | [<- | [<- | [<- | []]]]]]; reflexivity. }
  induction its as [| it rest IH]; intros s Hwf Hcust Hall Hkeys.
  - exists s. reflexivity.
  - cbn [forallb] in Hall. apply andb_true_iff in Hall.
    destruct Hall as [Hit Hrest].
    specialize (Hkeys ltac:(discriminate)). cbn [List.length] in Hkeys.
    destruct (placeable_arguments _ _ _ _ customer_parsed Hit)
      as (b & q & Hargs & Hbfit & Hqfit & Hpos & Hbook & Hamount).
    destruct (amount_fits _ _ _ Hwf Hpos Hamount) as [Hdec Hnn].
    set (total := sql_mul (select_Price b (view s)) q) in *.
    assert (Hrun :
              PlaceOrder c b q pm s =
              (inr (next_OrderID (view s), total),
               mkSession (placed (view s) c b q pm total) None)).
    { apply PlaceOrder_runs; auto using coerce_INT_in.
      apply keys_left_one with (n := List.length rest). exact Hkeys. }
    destruct (IH (mkSession (placed (view s) c b q pm total) None))
      as (s' & Hloop).
    + apply well_formed_placed. exact Hwf.
    + exact Hcust.
    + change (forallb (placeable (placed (view s) c b q pm total)) rest
              = true).
      apply forallb_forall. intros it' Hin'.
      rewrite placeable_placed. rewrite forallb_forall in Hrest. auto.
    + change (rest <> [] ->
              keys_left (placed (view s) c b q pm total) (List.length rest)
              = true).
      destruct rest as [| it2 rest]; [contradiction |]. intros _.
      apply keys_left_placed. exact Hkeys.
    + exists s'. cbn [place_items]. rewrite Hargs, CALL_PlaceOrder_Int.
      unfold bind at 1. rewrite Hrun. unfold ret at 1. exact Hloop.
Qed.

End Accepted.

Lemma INT_columns_customer t c :
  INT_columns t = true -> has_customer t c = true -> in_INT c = true.
Proof.
  unfold INT_columns, has_customer. intros H Hc.
  apply andb_true_iff in H. destruct H as [H _].
  apply existsb_exists in Hc. destruct Hc as (x & Hin & Heq).
  apply Z.eqb_eq in Heq. subst x.
  rewrite forallb_forall in H. auto.
Qed.

Lemma INT_columns_book t b :
  INT_columns t = true -> has_book t b = true -> in_INT b = true.
Proof.
  unfold INT_columns, has_book. intros H Hb.
  apply andb_true_iff in H. destruct H as [_ H].
  apply existsb_exists in Hb. destruct Hb as (r & Hin & Heq).
  apply Z.eqb_eq in Heq. subst b.
  rewrite forallb_forall in H. specialize (H r Hin).
  apply andb_true_iff in H. apply H.
Qed.

Lemma INT_columns_stock t b st :
  INT_columns t = true -> select_Stock b t = Some st -> in_INT st = true.
Proof.
  unfold INT_columns, select_Stock. intros H Hst.
  apply andb_true_iff in H. destruct H as [_ H].
  destruct (find _ (Books t)) as [r |] eqn:Hfind; [| discriminate].
  apply find_some in Hfind. destruct Hfind as [Hin _].
  rewrite forallb_forall in H. specialize (H r Hin).
  apply andb_true_iff in H. destruct H as [_ H].
  rewrite Hst in H. exact H.
Qed.

(** On tables whose columns have their types, an item that the stock
    covers is one that the procedure accepts. *)
Lemma orderable_placeable t it :
  INT_columns t = true -> orderable t it = true -> placeable t it = true.
Proof.
  intro Hint. unfold orderable, placeable.
  destruct it as [| | | | | | members |]; try discriminate.
  destruct (own_member "bookId" members) as [[| | b | | | | |] |];
    try discriminate.
  destruct (own_member "quantity" members) as [[| | q | | | | |] |];
    try discriminate.
  rewrite !andb_true_iff.
  intros [[[[Hb Hpos] Hbook] Hstock] Hamount].
  destruct (select_Stock b t) as [st |] eqn:Hst; [| discriminate].
  apply Z.leb_le in Hstock.
  pose proof (INT_columns_stock _ _ _ Hint Hst) as Hfit.
  apply in_INT_spec in Hfit.
  repeat split; try assumption.
  - exact (INT_columns_book _ _ Hint Hbook).
  - apply Z.leb_le. lia.
Qed.

(** An item that can be ordered passes the test of the first loop. *)
Lemma orderable_valid t it :
  orderable t it = true -> invalid_item it = inr false.
Proof.
  unfold orderable, invalid_item.
  destruct it as [| | | | | | members |]; try discriminate.
  cbn [property].
  destruct (own_member "bookId" members) as [[| | b | | | | |] |];
    try discriminate.
  destruct (own_member "quantity" members) as [[| | q | | | | |] |];
    try discriminate.
  rewrite !andb_true_iff.
  intros [[[[Hb Hpos] _] _] _].
  apply Z.ltb_lt in Hpos.
  cbn [truthy]. rewrite Hb. cbn [negb].
  unfold le_zero, ToNumber, sign_of.
  replace (q =? 0) with false by (symmetry; apply Z.eqb_neq; lia).
  replace (q <? 0) with false by (symmetry; apply Z.ltb_ge; lia).
  reflexivity.
Qed.

Lemma some_invalid_orderable t its :
  forallb (orderable t) its = true -> some_invalid its = inr false.
Proof.
  induction its as [| it rest IH]; cbn [forallb some_invalid];
    [reflexivity |].
  intro H. apply andb_true_iff in H. destruct H as [Hit Hrest].
  rewrite (orderable_valid _ _ Hit). auto.
Qed.

(** C4, as stated, fails: the answer to a valid request is 201, but its
    body has neither an [orderId] nor a [totalAmount].  And the conditions
    it lists do not make a request valid.  A customer or a book whose key
    is 0 is taken for a missing field, and the answer is 400.  Half a
    copy passes the test [quantity > 0], is read by [parseInt] as 0
    copies and is refused by the CHECK of [OrderDetails]: 500.  Two
    copies of a book at 99999999.99 make an amount that [DECIMAL(10,2)]
    does not hold: 500.  When the counter of [Orders] has given its last
    key, no order can be inserted: 500.  (So is a customer whose key,
    in tables that hold unbounded integers, is beyond INT, for the
    parameter of the procedure.) *)
Lemma order_response_has_no_order_id :
  (has_customer seed 1 = true /\
   select_Stock 2 seed = Some 100 /\
   select_Price 2 seed = Some 90000 /\
   let resp := fst (post_orders (Some seed_session) scenario) in
   status resp = 201 /\
   member "orderId" (body resp) = None /\
   member "totalAmount" (body resp) = None) /\
  (has_customer zero_keys 0 = true /\
   status (fst (post_orders (Some zero_keys_session) customer_zero)) = 400) /\
  (select_Stock 0 zero_keys = Some 10 /\
   status (fst (post_orders (Some zero_keys_session) book_zero)) = 400) /\
  (parseInt_value (Some (JReal "0.5")) = inr (JS.Int 0) /\
   status (fst (post_orders (Some seed_session) half_a_copy)) = 500) /\
  (select_Stock 2 costly = Some 100 /\
   select_Price 2 costly = Some DECIMAL_10_2_MAX /\
   status (fst (post_orders (Some costly_session) two_copies)) = 500) /\
  (next_OrderID no_key_left = INT_MAX + 1 /\
   status (fst (post_orders (Some no_key_left_session) scenario)) = 500) /\
  (has_customer wide_key 3000000000 = true /\
   status (fst (post_orders (Some wide_key_session) customer_wide)) = 500).
Proof. vm_compute. repeat split; reflexivity. Qed.

(** C4, amended.  On a connection whose tables are well formed, have
    their column types and have a key left for each item in each of the
    four counters, a request with an integer [customerId] other than 0
    that names a customer, at least one item, every item an object
    whose [bookId] is an integer other than 0 that names a book and
    whose [quantity] is an integer above 0 that the stock of the book
    covers, with an amount that fits [DECIMAL(10,2)], and a valid payment
    method, is answered with 201 and the body
    [{message: 'Order placed successfully'}]; the order id and the total
    that [PlaceOrder] selects are not in the answer. *)
Theorem valid_order_answers_201 s req c its pm :
  well_formed (view s) = true ->
  INT_columns (view s) = true ->
  keys_left (view s) (List.length its) = true ->
  customerId req = Some (JNumber c) ->
  c <> 0 ->
  has_customer (view s) c = true ->
  items req = Some (JArray its) ->
  its <> [] ->
  forallb (orderable (view s)) its = true ->
  paymentMethod req = Some (JString pm) ->
  In pm Payments_methods ->
  exists s',
    post_orders (Some s) req =
    (json 201 [("message", "Order placed successfully")], Some s') /\
    member "orderId" [("message", "Order placed successfully")] = None /\
    member "totalAmount" [("message", "Order placed successfully")] = None.
Proof.
  intros Hwf Hint Hkeys Hc Hc0 Hcust Hits Hne Hall Hpm Hvalid.
  pose proof (INT_columns_customer _ _ Hint Hcust) as Hcfit.
  assert (Hplace : forallb (placeable (view s)) its = true).
  { apply forallb_forall. intros it Hin. apply orderable_placeable; auto.
    rewrite forallb_forall in Hall. auto. }
  destruct (place_items_runs (Some (JNumber c)) c pm (parseInt_INT _ Hcfit)
              Hcfit Hvalid its s Hwf Hcust Hplace (fun _ => Hkeys))
    as (s' & Hloop).
  exists s'. split; [| split; reflexivity].
  unfold post_orders, post_orders_handler.
  cbn [lowercase_body customerId items paymentMethod].
  rewrite lowercase_paymentMethod, Hc, Hits, Hpm.
  rewrite lowercase_number, lowercase_array.
  cbn [truthy].
  replace (c =? 0) with false by (symmetry; apply Z.eqb_neq; exact Hc0).
  replace (no_items (Some (JArray its))) with false
    by (destruct its; [contradiction | reflexivity]).
  replace (String.eqb pm "") with false.
  2:{ cbn in Hvalid.
      destruct Hvalid as [<- | [<- | [<- | [<- | [<- | []]]]]]; reflexivity. }
  cbn [orb negb].
  apply valid_method_in_schema in Hvalid. rewrite Hvalid. cbn [negb].
  rewrite (some_invalid_orderable _ _ Hall), Hloop. reflexivity.
Qed.

Lemma valid_order_answers_201_witness :
  exists s',
    post_orders (Some seed_session) scenario =
    (json 201 [("message", "Order placed successfully")], Some s') /\
    member "orderId" [("message", "Order placed successfully")] = None /\
    member "totalAmount" [("message", "Order placed successfully")] = None.
Proof.
  apply (valid_order_answers_201 seed_session scenario 1 [item 2 1] "Cash").
  - reflexivity.
  - reflexivity.
  - reflexivity.
  - reflexivity.
  - lia.
  - reflexivity.
  - reflexivity.
  - discriminate.
  - reflexivity.
  - reflexivity.
  - simpl. tauto.
Defined.

(* ===================================================================== *)
(** ** Where the code departs from the specification *)
(* ===================================================================== *)

(** The conditional decrement leaves a stock that is too small as it
    is, and the placement is completed all the same. *)
Lemma short_stock_is_kept t c b q pm total st :
  select_Stock b t = Some st -> st < q ->
  select_Stock b (placed t c b q pm total) = Some st.
Proof.
  unfold select_Stock, placed. cbn. rewrite find_decrement_stock.
  destruct (find _ (Books t)) as [r |] eqn:Hfind; [| discriminate].
  cbn. intros Hst Hlt. unfold decrement_stock. rewrite Hst.
  replace (q <=? st) with false by (symmetry; apply Z.leb_gt; exact Hlt).
  rewrite andb_false_r. exact Hst.
Qed.

(** C1 on the code.  An order for more copies than the stock holds is
    not refused: the conditional decrement matches no row and the stock
    stays at 100, but the procedure goes on, the order is committed with
    its line, its payment and its log entry, and the answer is 201. *)
Theorem insufficient_stock_is_not_detected :
  select_Stock 2 seed = Some 100 /\
  post_orders (Some seed_session) over_stock =
    (json 201 [("message", "Order placed successfully")],
     Some over_stock_session) /\
  open_txn over_stock_session = None /\
  select_Stock 2 (committed over_stock_session) = Some 100 /\
  In (mkOrder 4 1 "Pending") (Orders (committed over_stock_session)) /\
  details_of (committed over_stock_session) 4 = [mkOrderDetail 4 4 2 101] /\
  payments_of (committed over_stock_session) 4 =
    [mkPayment 4 4 "Cash" (Some 9090000)] /\
  log_of (committed over_stock_session) 4 = [mkOrderLogEntry 4 4 "Cash"].
Proof.
  vm_compute. repeat split; try reflexivity. right. right. right. left.
  reflexivity.
Qed.

(** C2 on the code.  The line of an order for an unknown book is refused
    by its foreign key, after the order row has been inserted.  The
    procedure stops there: nothing is rolled back, the order row stays in
    the transaction that is still open on the connection, and the answer
    is 500.  The next placement on the connection starts a transaction,
    which commits that row: order 4 is then committed with no line, no
    payment and no log entry. *)
Theorem failed_placement_is_not_rolled_back :
  let first := post_orders (Some seed_session) unknown_book in
  status (fst first) = 500 /\
  member "error" (body (fst first)) = Some "Failed to place order" /\
  snd first = Some after_unknown_book /\
  committed after_unknown_book = seed /\
  option_map Orders (open_txn after_unknown_book) =
    Some (Orders seed ++ [mkOrder 4 1 "Pending"]) /\
  post_orders (Some after_unknown_book) scenario =
    (json 201 [("message", "Order placed successfully")],
     Some after_next_order) /\
  open_txn after_next_order = None /\
  Orders (committed after_next_order) =
    Orders seed ++ [mkOrder 4 1 "Pending"; mkOrder 5 1 "Pending"] /\
  details_of (committed after_next_order) 4 = [] /\
  payments_of (committed after_next_order) 4 = [] /\
  log_of (committed after_next_order) 4 = [].
Proof.
  vm_compute. repeat split; reflexivity.
Qed.

(* ===================================================================== *)
(** ** Well-formedness is an invariant of the connection *)
(* ===================================================================== *)

Lemma has_order_more (rows : list Order) r o :
  existsb (fun x => Orders_OrderID x =? o) rows = true ->
  existsb (fun x => Orders_OrderID x =? o) (rows ++ [r]) = true.
Proof. intro H. rewrite existsb_app, H. reflexivity. Qed.

Lemma insert_Orders_well_formed c t a t1 :
  insert_Orders c t = inr (a, t1) ->
  well_formed t = true -> well_formed t1 = true.
Proof.
  unfold insert_Orders.
  destruct (next_key _ _) as [e | id] eqn:Hkey; [discriminate |].
  apply next_key_inr in Hkey. destruct Hkey as [-> _].
  destruct (has_customer t c); [| discriminate].
  intros H Hwf. inversion H; subst. clear H.
  apply well_formed_spec in Hwf. destruct Hwf as (H1 & H2 & H3 & H4 & H5).
  apply well_formed_spec. unfold has_order. cbn. repeat split.
  - intros o Ho. apply in_app_or in Ho.
    destruct Ho as [Ho | [<- | []]]; [specialize (H1 o Ho); lia | cbn; lia].
  - intros d Hd. apply has_order_more. apply (H2 d Hd).
  - intros p Hp. apply has_order_more. apply (H3 p Hp).
  - intros l Hl. apply has_order_more. apply (H4 l Hl).
  - exact H5.
Qed.

Lemma insert_OrderDetails_well_formed o b q t a t1 :
  insert_OrderDetails o b q t = inr (a, t1) ->
  well_formed t = true -> well_formed t1 = true.
Proof.
  unfold insert_OrderDetails.
  destruct (negb (0 <? q)); [discriminate |].
  destruct (next_key _ _) as [e | id]; [discriminate |].
  destruct (has_order t o) eqn:Ho; [| discriminate].
  destruct (negb (has_book t b)); [discriminate |]. cbn.
  intros H Hwf. inversion H; subst. clear H.
  apply well_formed_spec in Hwf. destruct Hwf as (H1 & H2 & H3 & H4 & H5).
  apply well_formed_spec. unfold has_order in *. cbn. repeat split; auto.
  intros d Hd. apply in_app_or in Hd.
  destruct Hd as [Hd | [<- | []]]; [apply (H2 d Hd) | exact Ho].
Qed.

Lemma update_Books_Stock_well_formed b q t a t1 :
  update_Books_Stock b q t = inr (a, t1) ->
  well_formed t = true -> well_formed t1 = true.
Proof.
  unfold update_Books_Stock. intros H Hwf. inversion H; subst. clear H.
  apply well_formed_spec in Hwf. destruct Hwf as (H1 & H2 & H3 & H4 & H5).
  apply well_formed_spec. unfold has_order in *. cbn. repeat split; auto.
  intros r Hr. apply in_map_iff in Hr. destruct Hr as (r0 & <- & Hr0).
  rewrite decrement_stock_price. auto.
Qed.

Lemma insert_Payments_well_formed o m amount t a t1 :
  insert_Payments o m amount t = inr (a, t1) ->
  well_formed t = true -> well_formed t1 = true.
Proof.
  unfold insert_Payments.
  destruct (negb (sql_IN m Payments_methods)); [discriminate |].
  destruct (negb (check_nonneg amount)); [discriminate |].
  destruct (next_key _ _) as [e | id]; [discriminate |].
  destruct (has_order t o) eqn:Ho; [| discriminate]. cbn.
  intros H Hwf. inversion H; subst. clear H.
  apply well_formed_spec in Hwf. destruct Hwf as (H1 & H2 & H3 & H4 & H5).
  apply well_formed_spec. unfold has_order in *. cbn. repeat split; auto.
  intros p Hp. apply in_app_or in Hp.
  destruct Hp as [Hp | [<- | []]]; [apply (H3 p Hp) | exact Ho].
Qed.

Lemma insert_OrderLog_well_formed o m t a t1 :
  insert_OrderLog o m t = inr (a, t1) ->
  well_formed t = true -> well_formed t1 = true.
Proof.
  unfold insert_OrderLog.
  destruct (next_key _ _) as [e | id]; [discriminate |].
  destruct (has_order t o) eqn:Ho; [| discriminate]. cbn.
  intros H Hwf. inversion H; subst. clear H.
  apply well_formed_spec in Hwf. destruct Hwf as (H1 & H2 & H3 & H4 & H5).
  apply well_formed_spec. unfold has_order in *. cbn. repeat split; auto.
  intros l Hl. apply in_app_or in Hl.
  destruct Hl as [Hl | [<- | []]]; [apply (H4 l Hl) | exact Ho].
Qed.

Lemma update_Orders_Status_well_formed st o t a t1 :
  update_Orders_Status st o t = inr (a, t1) ->
  well_formed t = true -> well_formed t1 = true.
Proof.
  unfold update_Orders_Status. destruct (has_order t o).
  2:{ intros H Hwf. inversion H; subst. exact Hwf. }
  destruct (coerce_VARCHAR_50 "Status" st) as [e | st']; [discriminate |].
  intros H Hwf. inversion H; subst. clear H.
  assert (Hids : forall x,
            existsb (fun r => Orders_OrderID r =? x)
                    (map (set_status o st') (Orders t)) =
            existsb (fun r => Orders_OrderID r =? x) (Orders t)).
  { intro x. induction (Orders t) as [| r rows IH]; cbn; [reflexivity |].
    rewrite IH. f_equal. unfold set_status.
    destruct (Orders_OrderID r =? o); reflexivity. }
  apply well_formed_spec in Hwf. destruct Hwf as (H1 & H2 & H3 & H4 & H5).
  apply well_formed_spec. unfold has_order in *. cbn. repeat split; auto.
  - intros r Hr. apply in_map_iff in Hr. destruct Hr as (r0 & <- & Hr0).
    specialize (H1 r0 Hr0). unfold set_status.
    destruct (Orders_OrderID r0 =? o); exact H1.
  - intros d Hd. rewrite Hids. auto.
  - intros p Hp. rewrite Hids. auto.
  - intros l Hl. rewrite Hids. auto.
Qed.

(** A statement that keeps the tables well formed keeps what the
    connection sees well formed, whether it succeeds or fails. *)
Lemma exec_well_formed {A : Type}
    (stmt : Tables -> SqlError + (A * Tables)) s r s' :
  (forall t a t1, stmt t = inr (a, t1) ->
                  well_formed t = true -> well_formed t1 = true) ->
  exec stmt s = (r, s') ->
  well_formed (view s) = true -> well_formed (view s') = true.
Proof.
  intros Hstmt. unfold exec.
  destruct (stmt (view s)) as [e | [a t1]] eqn:Hrun; intros H Hwf;
    inversion H; subst; [exact Hwf |].
  specialize (Hstmt _ _ _ Hrun Hwf).
  unfold view. destruct (open_txn s); exact Hstmt.
Qed.

Lemma keeps_bind {A B : Type} (m : M A) (k : A -> M B) :
  keeps_well_formed m -> (forall a, keeps_well_formed (k a)) ->
  keeps_well_formed (bind m k).
Proof.
  intros Hm Hk s r s' H Hwf. apply bind_cases in H.
  destruct H as [(e & H & _) | (a & s1 & H & Hrest)].
  - exact (Hm _ _ _ H Hwf).
  - exact (Hk a _ _ _ Hrest (Hm _ _ _ H Hwf)).
Qed.

Lemma keeps_coerce {A : Type} (x : SqlError + A) :
  keeps_well_formed (coerce x).
Proof. intros s r s' H Hwf. inversion H; subst. exact Hwf. Qed.

Lemma keeps_ret {A : Type} (a : A) : keeps_well_formed (ret a).
Proof. intros s r s' H Hwf. inversion H; subst. exact Hwf. Qed.

Lemma keeps_throw {A : Type} (e : SqlError) :
  keeps_well_formed (@throw A e).
Proof. intros s r s' H Hwf. inversion H; subst. exact Hwf. Qed.

Lemma keeps_query {A : Type} (q : Tables -> A) : keeps_well_formed (query q).
Proof. intros s r s' H Hwf. inversion H; subst. exact Hwf. Qed.

Lemma keeps_START_TRANSACTION : keeps_well_formed START_TRANSACTION.
Proof. intros s r s' H Hwf. inversion H; subst. exact Hwf. Qed.

Lemma keeps_COMMIT : keeps_well_formed COMMIT.
Proof. intros s r s' H Hwf. inversion H; subst. exact Hwf. Qed.

Lemma keeps_exec {A : Type} (stmt : Tables -> SqlError + (A * Tables)) :
  (forall t a t1, stmt t = inr (a, t1) ->
                  well_formed t = true -> well_formed t1 = true) ->
  keeps_well_formed (exec stmt).
Proof. intros Hstmt s r s'. apply exec_well_formed. exact Hstmt. Qed.

(** A counter that moves on leaves the tables well formed. *)
Lemma skip_well_formed t :
  well_formed t = true ->
  well_formed (skip_OrderID t) = true /\
  well_formed (skip_OrderDetailID t) = true /\
  well_formed (skip_PaymentID t) = true /\
  well_formed (skip_LogID t) = true.
Proof.
  intro Hwf. split; [| repeat split; exact Hwf].
  apply well_formed_spec in Hwf. destruct Hwf as (H1 & H2 & H3 & H4 & H5).
  apply well_formed_spec. repeat split; try assumption.
  intros o Ho. specialize (H1 o Ho). cbn in *. lia.
Qed.

Lemma keeps_exec_insert {A : Type} (skip : Tables -> Tables)
    (stmt : Tables -> SqlError + (A * Tables)) :
  (forall t a t1, stmt t = inr (a, t1) ->
                  well_formed t = true -> well_formed t1 = true) ->
  (forall t, well_formed t = true -> well_formed (skip t) = true) ->
  keeps_well_formed (exec_insert skip stmt).
Proof.
  intros Hstmt Hskip s r s'. unfold exec_insert.
  destruct (stmt (view s)) as [e | [a t1]] eqn:Hrun; intros H Hwf;
    inversion H; subst.
  - destruct (key_taken e); [| exact Hwf].
    specialize (Hskip _ Hwf). unfold view at 1.
    destruct (open_txn s); exact Hskip.
  - specialize (Hstmt _ _ _ Hrun Hwf).
    unfold view. destruct (open_txn s); exact Hstmt.
Qed.

Ltac keeps_step :=
  lazymatch goal with
  | |- keeps_well_formed (bind _ _) => apply keeps_bind; [| intro]
  | |- keeps_well_formed (exec_insert _ _) =>
      apply keeps_exec_insert;
      [| let t := fresh "t" in
         let H := fresh "H" in
         intros t H; destruct (skip_well_formed t H) as (? & ? & ? & ?);
         assumption]
  | |- keeps_well_formed (coerce _) => apply keeps_coerce
  | |- keeps_well_formed START_TRANSACTION => apply keeps_START_TRANSACTION
  | |- keeps_well_formed COMMIT => apply keeps_COMMIT
  | |- keeps_well_formed (query _) => apply keeps_query
  | |- keeps_well_formed (ret _) => apply keeps_ret
  | |- keeps_well_formed (exec _) => apply keeps_exec
  end.

(** Whatever [PlaceOrder] returns, what the connection sees stays well
    formed. *)
Lemma PlaceOrder_well_formed c b q pm :
  keeps_well_formed (PlaceOrder c b q pm).
Proof.
  unfold PlaceOrder. repeat keeps_step.
  - apply insert_Orders_well_formed.
  - apply insert_OrderDetails_well_formed.
  - apply update_Books_Stock_well_formed.
  - apply insert_Payments_well_formed.
  - apply insert_OrderLog_well_formed.
Qed.

Lemma CALL_PlaceOrder_well_formed c b q pm :
  keeps_well_formed (CALL_PlaceOrder c b q pm).
Proof.
  unfold CALL_PlaceOrder.
  destruct (argument c), (argument b), (argument q); try apply keeps_throw.
  apply keeps_bind; [apply PlaceOrder_well_formed | intro; apply keeps_ret].
Qed.

Lemma place_items_well_formed customer pm its :
  forall s r s',
    place_items customer pm its s = (r, s') ->
    well_formed (view s) = true -> well_formed (view s') = true.
Proof.
  induction its as [| it rest IH]; intros s r s' H Hwf;
    cbn [place_items] in H.
  - inversion H; subst. exact Hwf.
  - destruct (call_arguments customer it) as [e | [[c b] q]];
      [inversion H; subst; exact Hwf |].
    destruct (CALL_PlaceOrder c b q pm s) as [[e | u] s1] eqn:Hcall.
    + inversion H; subst.
      exact (CALL_PlaceOrder_well_formed _ _ _ _ _ _ _ Hcall Hwf).
    + apply (IH _ _ _ H).
      exact (CALL_PlaceOrder_well_formed _ _ _ _ _ _ _ Hcall Hwf).
Qed.

(** Both handlers leave what the connection sees well formed, whatever
    the request and whatever the answer. *)
Lemma post_orders_well_formed s req resp s' :
  post_orders (Some s) req = (resp, Some s') ->
  well_formed (view s) = true -> well_formed (view s') = true.
Proof.
  unfold post_orders, post_orders_handler.
  cbn [lowercase_body customerId items paymentMethod].
  destruct (_ || _ || _); [intros H; inversion H; subst; auto |].
  destruct (lowercase_value "items" (items req)) as [[| | | | | its | |] |];
    try solve [intros H; inversion H; subst; auto].
  destruct (lowercase_value "paymentMethod" (paymentMethod req))
    as [[| | | | pm | | |] |];
    try solve [intros H; inversion H; subst; auto].
  destruct (negb _); [intros H; inversion H; subst; auto |].
  destruct (some_invalid its) as [e | [|]];
    try solve [intros H; inversion H; subst; auto].
  destruct (place_items _ pm its s) as [r s1] eqn:Hrun.
  intros H Hwf.
  pose proof (place_items_well_formed _ _ _ _ _ _ Hrun Hwf) as Hwf1.
  destruct r; inversion H; subst; exact Hwf1.
Qed.

Lemma UPDATE_Orders_Status_well_formed st orderId :
  keeps_well_formed (UPDATE_Orders_Status st orderId).
Proof.
  unfold UPDATE_Orders_Status.
  destruct orderId; try apply keeps_throw; try apply keeps_ret.
  apply keeps_exec. apply update_Orders_Status_well_formed.
Qed.

Lemma put_order_status_well_formed s id st resp s' :
  put_order_status (Some s) id st = (resp, Some s') ->
  well_formed (view s) = true -> well_formed (view s') = true.
Proof.
  unfold put_order_status. cbv zeta.
  destruct (_ || _); [intros H; inversion H; subst; auto |].
  destruct st as [st |]; [| intros H; inversion H; subst; auto].
  destruct (UPDATE_Orders_Status st _ s) as [r s1] eqn:Hrun.
  intros H Hwf.
  pose proof (UPDATE_Orders_Status_well_formed _ _ _ _ _ Hrun Hwf) as Hwf1.
  destruct r; inversion H; subst; exact Hwf1.
Qed.

(* ===================================================================== *)
(** ** Letter case: [toTitleCase] *)
(* ===================================================================== *)

Ltac each_ascii c :=
  destruct c as [[] [] [] [] [] [] [] []]; reflexivity.

Lemma lower_upper_ascii c : JS.lower_ascii (upper_ascii c) = JS.lower_ascii c.
Proof. each_ascii c. Qed.

Lemma upper_lower_ascii c : upper_ascii (JS.lower_ascii c) = upper_ascii c.
Proof. each_ascii c. Qed.

Lemma lower_lower_ascii c : JS.lower_ascii (JS.lower_ascii c) = JS.lower_ascii c.
Proof. each_ascii c. Qed.

Lemma upper_upper_ascii c : upper_ascii (upper_ascii c) = upper_ascii c.
Proof. each_ascii c. Qed.

Lemma lower_is_space c : Ascii.eqb (JS.lower_ascii c) " " = Ascii.eqb c " ".
Proof. each_ascii c. Qed.

Lemma upper_is_space c : Ascii.eqb (upper_ascii c) " " = Ascii.eqb c " ".
Proof. each_ascii c. Qed.

Lemma lower_of_upper_of_lower c :
  Ascii.eqb (upper_ascii (upper_ascii (JS.lower_ascii c)))
            (upper_ascii (JS.lower_ascii c)) = true.
Proof. each_ascii c. Qed.

Lemma lower_of_lower c :
  Ascii.eqb (JS.lower_ascii (JS.lower_ascii c)) (JS.lower_ascii c) = true.
Proof. each_ascii c. Qed.

Lemma split_spaces_not_nil s : split_spaces s <> [].
Proof.
  destruct s as [| c rest]; cbn; [discriminate |].
  destruct (Ascii.eqb c " "); [discriminate |].
  destruct (split_spaces rest); discriminate.
Qed.

Lemma join_cons_word c w (l : list string) :
  JS.join " " (String c w :: l) = String c (JS.join " " (w :: l)).
Proof. unfold JS.join. cbn. destruct l; reflexivity. Qed.

Lemma join_empty_word (l : list string) :
  l <> [] -> JS.join " " (EmptyString :: l) = String " " (JS.join " " l).
Proof. unfold JS.join. destruct l; [contradiction | reflexivity]. Qed.

(** The pipeline of [toTitleCase] is one pass over the letters. *)
Lemma title_pipeline s :
  JS.join " " (map capitalize (split_spaces s)) = letter_pass true s /\
  match split_spaces s with
  | w :: ws => JS.join " " (w :: map capitalize ws)
  | [] => EmptyString
  end = letter_pass false s.
Proof.
  induction s as [| c rest [IH1 IH2]]; [split; reflexivity |].
  cbn [split_spaces letter_pass].
  destruct (Ascii.eqb c " ") eqn:Hc.
  - apply Ascii.eqb_eq in Hc. subst c.
    assert (Hne : map capitalize (split_spaces rest) <> []).
    { pose proof (split_spaces_not_nil rest).
      destruct (split_spaces rest); [contradiction | discriminate]. }
    cbn [map capitalize]. rewrite join_empty_word by exact Hne.
    rewrite IH1. split; reflexivity.
  - pose proof (split_spaces_not_nil rest) as Hne.
    destruct (split_spaces rest) as [| w ws]; [contradiction |].
    cbn [map capitalize]. rewrite !join_cons_word, IH2.
    split; reflexivity.
Qed.

Lemma toTitleCase_pass s :
  toTitleCase s = letter_pass true (JS.toLowerCase s).
Proof.
  unfold toTitleCase. destruct s as [| c rest]; [reflexivity |].
  cbn [String.eqb]. apply title_pipeline.
Qed.

Lemma lower_letter_pass start s :
  JS.toLowerCase (letter_pass start s) = JS.toLowerCase s.
Proof.
  revert start. induction s as [| c rest IH]; intro start; [reflexivity |].
  cbn. rewrite IH. destruct start; [rewrite lower_upper_ascii |]; reflexivity.
Qed.

Lemma toLowerCase_idempotent s :
  JS.toLowerCase (JS.toLowerCase s) = JS.toLowerCase s.
Proof.
  induction s as [| c rest IH]; [reflexivity |].
  cbn. rewrite lower_lower_ascii, IH. reflexivity.
Qed.

Lemma toTitleCase_twice s :
  toTitleCase (toTitleCase s) = toTitleCase s.
Proof.
  rewrite (toTitleCase_pass (toTitleCase s)), (toTitleCase_pass s).
  rewrite lower_letter_pass, toLowerCase_idempotent. reflexivity.
Qed.

(** X1.  Title-casing an ASCII string twice is title-casing it once.
    (Outside ASCII it is not: the upper case of the first letter of
    [ßb] is two letters, of which the second pass lowers one.) *)
Theorem toTitleCase_idempotent s :
  is_ascii s = true ->
  toTitleCase (toTitleCase s) = toTitleCase s.
Proof.
  intros _.
  rewrite (toTitleCase_pass (toTitleCase s)), (toTitleCase_pass s).
  rewrite lower_letter_pass, toLowerCase_idempotent. reflexivity.
Qed.

Lemma toTitleCase_idempotent_witness :
  toTitleCase (toTitleCase "saadat hasan McDONALD") =
  toTitleCase "saadat hasan McDONALD".
Proof.
  apply (toTitleCase_idempotent "saadat hasan McDONALD"). reflexivity.
Defined.

(** X2.  [toTitleCase] does not look at the letter case of its argument: the
    string that the lower-casing middleware stores is shown like the
    string that was sent. *)
Theorem toTitleCase_after_lowercase key s :
  toTitleCase (lowercase_member key s) = toTitleCase s /\
  toTitleCase (JS.toLowerCase s) = toTitleCase s.
Proof.
  assert (H : toTitleCase (JS.toLowerCase s) = toTitleCase s).
  { rewrite !toTitleCase_pass, toLowerCase_idempotent. reflexivity. }
  split; [| exact H].
  unfold lowercase_member. destruct (negb _); [exact H | reflexivity].
Qed.

Lemma length_toLowerCase s : String.length (JS.toLowerCase s) = String.length s.
Proof. induction s as [| c rest IH]; cbn; [| rewrite IH]; reflexivity. Qed.

Lemma length_letter_pass start s :
  String.length (letter_pass start s) = String.length s.
Proof.
  revert start. induction s as [| c rest IH]; intro start; cbn;
    [| rewrite IH]; reflexivity.
Qed.

Lemma title_cased_letter_pass start s :
  title_cased start (letter_pass start (JS.toLowerCase s)) = true.
Proof.
  revert start. induction s as [| c rest IH]; intro start; [reflexivity |].
  cbn. destruct start.
  - rewrite lower_of_upper_of_lower, upper_is_space. cbn.
    rewrite <- (upper_is_space (JS.lower_ascii c)). rewrite upper_is_space.
    apply IH.
  - rewrite lower_of_lower. cbn. apply IH.
Qed.

Lemma is_ascii_letter_pass start s :
  is_ascii s = true -> is_ascii (letter_pass start (JS.toLowerCase s)) = true.
Proof.
  revert start. induction s as [| c rest IH]; intros start H; [reflexivity |].
  cbn in H |- *. apply andb_true_iff in H. destruct H as [Hc Hrest].
  rewrite (IH _ Hrest), andb_true_r.
  destruct c as [[] [] [] [] [] [] [] []]; destruct start;
    first [exact Hc | reflexivity].
Qed.

(** X3.  [toTitleCase] of an ASCII string is an ASCII string of the same
    length, in which no word starts with a lower-case letter and no
    upper-case letter stands inside a word: [McDonald] comes out as
    [Mcdonald]. *)
Theorem toTitleCase_shape s :
  is_ascii s = true ->
  String.length (toTitleCase s) = String.length s /\
  is_ascii (toTitleCase s) = true /\
  title_cased true (toTitleCase s) = true.
Proof.
  intro Hascii. rewrite toTitleCase_pass. split; [| split].
  - rewrite length_letter_pass, length_toLowerCase. reflexivity.
  - apply is_ascii_letter_pass. exact Hascii.
  - apply title_cased_letter_pass.
Qed.

Lemma toTitleCase_shape_witness :
  String.length (toTitleCase "saadat hasan McDONALD") = 21%nat /\
  is_ascii (toTitleCase "saadat hasan McDONALD") = true /\
  title_cased true (toTitleCase "saadat hasan McDONALD") = true.
Proof.
  apply (toTitleCase_shape "saadat hasan McDONALD"). reflexivity.
Defined.

Example toTitleCase_name : toTitleCase "saadat hasan  McDONALD" = "Saadat Hasan  Mcdonald".
Proof. reflexivity. Qed.

Example toTitleCase_date :
  toTitleCase "2023-10-01T00:00:00.000Z" = "2023-10-01t00:00:00.000z".
Proof. reflexivity. Qed.

Example dateRegex_iso : dateRegex "2023-10-01T00:00:00.000Z" = true.
Proof. reflexivity. Qed.

Example dateRegex_day : dateRegex "2023-10-01" = true.
Proof. reflexivity. Qed.

Example dateRegex_sql : dateRegex "2023-10-01 12:30:00" = true.
Proof. reflexivity. Qed.

Example dateRegex_sql_zone : dateRegex "2023-10-01 12:30:00Z" = false.
Proof. reflexivity. Qed.

Example dateRegex_text : dateRegex "2023-10-01 sale" = false.
Proof. reflexivity. Qed.

(* ===================================================================== *)
(** ** Letter case: the answers of GET requests *)
(* ===================================================================== *)

Lemma JSON_induction (P : JSON -> Prop) :
  P JNull ->
  (forall b, P (JBool b)) ->
  (forall n, P (JNumber n)) ->
  (forall text, P (JReal text)) ->
  (forall s, P (JString s)) ->
  (forall elements, Forall P elements -> P (JArray elements)) ->
  (forall members, Forall (fun m => P (snd m)) members -> P (JObject members)) ->
  (forall time, P (JDate time)) ->
  forall data, P data.
Proof.
  intros Hnull Hbool Hnum Hreal Hstr Harr Hobj Hdate.
  fix IH 1. intro data.
  destruct data as [| b | n | text | s | elements | members | t].
  - exact Hnull.
  - apply Hbool.
  - apply Hnum.
  - apply Hreal.
  - apply Hstr.
  - apply Harr. induction elements as [| e rest IHl]; constructor;
      [apply IH | exact IHl].
  - apply Hobj. induction members as [| m rest IHl]; constructor;
      [apply IH | exact IHl].
  - apply Hdate.
Qed.

(** The copy of an object holds the members that are not named
    [__proto__], each transformed. *)
Lemma transform_object members :
  transformDataForTitleCasing (JObject members) =
  JObject (map transformed_member (own_members members)).
Proof.
  cbn [transformDataForTitleCasing]. f_equal. unfold own_members.
  induction members as [| [k v] rest IH]; [reflexivity |].
  cbn [flat_map filter fst snd].
  destruct (is_proto k); cbn [negb app map]; [exact IH |].
  rewrite IH. reflexivity.
Qed.

Lemma own_members_twice members :
  own_members (own_members members) = own_members members.
Proof.
  unfold own_members. induction members as [| [k v] rest IH];
    [reflexivity |].
  cbn [filter fst]. destruct (is_proto k) eqn:Hk; cbn [negb]; [exact IH |].
  cbn [filter fst]. rewrite Hk. cbn [negb]. rewrite IH. reflexivity.
Qed.

Lemma own_members_transformed members :
  own_members (map transformed_member members) =
  map transformed_member (own_members members).
Proof.
  unfold own_members. induction members as [| [k v] rest IH];
    [reflexivity |].
  cbn [map filter fst transformed_member].
  destruct (is_proto k); cbn [negb map]; rewrite IH; reflexivity.
Qed.

Lemma own_members_In m members : In m (own_members members) -> In m members.
Proof. unfold own_members. intro H. apply filter_In in H. apply H. Qed.

Lemma transformed_member_twice m :
  transformDataForTitleCasing (transformDataForTitleCasing (snd m))
    = transformDataForTitleCasing (snd m) ->
  transformed_member (transformed_member m) = transformed_member m.
Proof.
  destruct m as [k v]. unfold transformed_member. cbn [fst snd]. intro IH.
  f_equal. destruct v as [| b | n | text | s | elements | members | t];
    try reflexivity.
  - destruct (isExceptionKey k); cbn [negb andb]; [reflexivity |].
    destruct (dateRegex s) eqn:Hd; cbn [negb]; [rewrite Hd; reflexivity |].
    destruct (negb (dateRegex (toTitleCase s)));
      [rewrite toTitleCase_twice |]; reflexivity.
  - cbn in IH |- *. exact IH.
  - cbn in IH |- *. exact IH.
Qed.

Lemma transform_twice data :
  transformDataForTitleCasing (transformDataForTitleCasing data) =
  transformDataForTitleCasing data.
Proof.
  induction data as [| b | n | text | s | elements IH | members IH | t]
    using JSON_induction; try reflexivity.
  - cbn. f_equal. rewrite map_map. apply map_ext_in. intros e He.
    rewrite Forall_forall in IH. apply IH. exact He.
  - rewrite !transform_object. f_equal.
    rewrite own_members_transformed, own_members_twice, map_map.
    apply map_ext_in. intros m Hm. rewrite Forall_forall in IH.
    apply transformed_member_twice. apply IH.
    apply own_members_In. exact Hm.
Qed.

(** X4.  Transforming twice an answer whose keys and strings are ASCII,
    and in which no object has a member [__proto__], is transforming it
    once. *)
Theorem transformDataForTitleCasing_idempotent data :
  plain data = true ->
  transformDataForTitleCasing (transformDataForTitleCasing data) =
  transformDataForTitleCasing data.
Proof. intros _. apply transform_twice. Qed.

Lemma transformDataForTitleCasing_idempotent_witness :
  let row :=
    JArray [JObject [("FirstName", JString "ali khan");
                     ("OrderDate", JDate 1696118400000);
                     ("tags", JArray [JString "new"])]] in
  transformDataForTitleCasing (transformDataForTitleCasing row) =
  transformDataForTitleCasing row.
Proof.
  apply (transformDataForTitleCasing_idempotent
           (JArray [JObject [("FirstName", JString "ali khan");
                             ("OrderDate", JDate 1696118400000);
                             ("tags", JArray [JString "new"])]])).
  reflexivity.
Defined.

(** X5.  The transformation changes the text of strings, empties the
    [Date] objects and loses the members that are named [__proto__], and
    nothing else: the other keys and their order, the nesting, the
    lengths of the arrays, the numbers, the booleans and the nulls of
    the answer are those of the data. *)
Theorem transformDataForTitleCasing_skeleton data :
  skeleton (transformDataForTitleCasing data) = skeleton (without_proto data).
Proof.
  induction data as [| b | n | text | s | elements IH | members IH | t]
    using JSON_induction; try reflexivity.
  - cbn. f_equal. rewrite !map_map. apply map_ext_in. intros e He.
    rewrite Forall_forall in IH. apply IH. exact He.
  - rewrite transform_object. cbn [without_proto skeleton]. f_equal.
    unfold own_members.
    induction IH as [| [k v] rest Hm _ IHrest]; [reflexivity |].
    cbn [filter flat_map fst snd].
    destruct (is_proto k); cbn [negb map app]; [exact IHrest |].
    rewrite IHrest. f_equal. unfold transformed_member.
    cbn [fst snd] in Hm |- *. f_equal.
    destruct v as [| b | n | text | s | elements | ms | t];
      try reflexivity; try exact Hm.
    destruct (negb (isExceptionKey k) && negb (dateRegex s)); reflexivity.
Qed.

Example transformDataForTitleCasing_proto :
  transformDataForTitleCasing
    (JObject [("name", JString "ali"); ("__proto__", JString "x")])
  = JObject [("name", JString "Ali")].
Proof. reflexivity. Qed.

(** X7.  A [Date] in a row, such as the [OrderDate] that the driver reads
    from a DATE column, is sent as an empty object, under an exception
    key as under any other (the name [__proto__] apart, under which no
    member is sent); so is a [Date] in an array or alone. *)
Theorem transformDataForTitleCasing_Date members key time :
  In (key, JDate time) members ->
  is_proto key = false ->
  In (key, JObject []) (map transformed_member (own_members members)) /\
  transformDataForTitleCasing (JObject members) =
    JObject (map transformed_member (own_members members)) /\
  transformDataForTitleCasing (JArray [JDate time]) = JArray [JObject []] /\
  title_cased_json (JDate time) = JObject [].
Proof.
  intros Hin Hkey. split; [| split; [apply transform_object | split]];
    try reflexivity.
  apply in_map_iff. exists (key, JDate time). split; [reflexivity |].
  unfold own_members. apply filter_In. split; [exact Hin |].
  cbn [fst]. rewrite Hkey. reflexivity.
Qed.

Lemma transformDataForTitleCasing_Date_witness :
  In ("OrderDate", JObject [])
     (map transformed_member
        (own_members
           [("OrderID", JNumber 1); ("OrderDate", JDate 1696118400000)])).
Proof.
  apply (transformDataForTitleCasing_Date
           [("OrderID", JNumber 1); ("OrderDate", JDate 1696118400000)]
           "OrderDate" 1696118400000).
  - simpl. right. left. reflexivity.
  - reflexivity.
Defined.

(** X8.  Only the string members of objects are title-cased: a string that is
    an element of an array, or the whole answer, is sent as it is. *)
Theorem transformDataForTitleCasing_array_strings (l : list string) s :
  transformDataForTitleCasing (JArray (map JString l)) = JArray (map JString l)
  /\ title_cased_json (JString s) = JString s.
Proof.
  split; [| reflexivity]. cbn. f_equal. rewrite map_map. reflexivity.
Qed.

(* ===================================================================== *)
(** ** Letter case: the bodies of POST and PUT requests *)
(* ===================================================================== *)

Lemma lowercase_member_idempotent key s :
  lowercase_member key (lowercase_member key s) = lowercase_member key s.
Proof.
  unfold lowercase_member. destruct (negb _); [| reflexivity].
  apply toLowerCase_idempotent.
Qed.

Lemma lowercase_members_idempotent members :
  lowercase_members (lowercase_members members) = lowercase_members members.
Proof.
  unfold lowercase_members. rewrite map_map. apply map_ext.
  intros [k v]. destruct v; cbn [fst snd]; try reflexivity.
  rewrite lowercase_member_idempotent. reflexivity.
Qed.

Lemma lowercase_members_keys members :
  map fst (lowercase_members members) = map fst members.
Proof.
  unfold lowercase_members. rewrite map_map. apply map_ext.
  intros [k v]. destruct v; reflexivity.
Qed.

Lemma lowercase_members_length members :
  List.length (lowercase_members members) = List.length members.
Proof. unfold lowercase_members. apply length_map. Qed.

Lemma map_fst_combine {X Y : Type} (l : list X) :
  forall l' : list Y,
    List.length l = List.length l' -> map fst (combine l l') = l.
Proof.
  induction l as [| x rest IH]; intros [| y rest'] H; cbn;
    try reflexivity; try discriminate H.
  rewrite IH; [reflexivity | inversion H; reflexivity].
Qed.

Lemma combine_fst_snd {X Y : Type} (l : list (X * Y)) :
  combine (map fst l) (map snd l) = l.
Proof.
  induction l as [| [x y] rest IH]; cbn; [| rewrite IH]; reflexivity.
Qed.

(** X9.  The lower-casing middleware applied twice does what it does once,
    for every method and every body. *)
Theorem lowercase_request_idempotent method body :
  lowercase_request method (lowercase_request method body) =
  lowercase_request method body.
Proof.
  unfold lowercase_request.
  destruct (String.eqb method "POST" || String.eqb method "PUT");
    [| reflexivity].
  destruct body as [| b | n | text | s | elements | members | t];
    try reflexivity.
  - f_equal. rewrite length_map, lowercase_members_length.
    rewrite length_combine, length_map, length_seq, Nat.min_id.
    set (keys := map index_key (seq 0 (List.length elements))).
    assert (Hkeys : map fst (lowercase_members (combine keys elements)) = keys).
    { rewrite lowercase_members_keys. apply map_fst_combine.
      unfold keys. rewrite length_map, length_seq. reflexivity. }
    rewrite <- Hkeys at 1. rewrite combine_fst_snd.
    rewrite lowercase_members_idempotent. reflexivity.
  - rewrite lowercase_members_idempotent. reflexivity.
Qed.

(** X10.  The middleware changes nothing in a request that is neither POST nor
    PUT, and in a POST or PUT body it changes only strings that are
    members of the body itself: a member that is not a string (a number,
    a nested object or array with strings of its own), or whose key is
    an exception in any letter case, arrives as it was sent. *)
Theorem lowercase_request_leaves method members key value :
  In (key, value) members ->
  (forall s, value = JString s ->
             JS.array_includes exceptions (JS.toLowerCase key) = true) ->
  lowercase_request "GET" (JObject members) = JObject members /\
  exists members',
    lowercase_request method (JObject members) = JObject members' /\
    In (key, value) members'.
Proof.
  intros Hin Hexc. split; [reflexivity |].
  unfold lowercase_request.
  destruct (String.eqb method "POST" || String.eqb method "PUT").
  2:{ exists members. split; [reflexivity | exact Hin]. }
  eexists. split; [reflexivity |].
  apply in_map_iff. exists (key, value). split; [| exact Hin].
  destruct value as [| b | n | text | s | elements | ms | t];
    try reflexivity.
  cbn [fst snd]. unfold lowercase_member.
  rewrite (Hexc s eq_refl). reflexivity.
Qed.

Lemma lowercase_request_leaves_witness :
  exists members',
    lowercase_request "POST"
      (JObject [("firstName", JString "ALI");
                ("Email", JString "Ali.Khan@Example.com")])
    = JObject members' /\
    In ("Email", JString "Ali.Khan@Example.com") members'.
Proof.
  apply (lowercase_request_leaves "POST"
           [("firstName", JString "ALI");
            ("Email", JString "Ali.Khan@Example.com")]
           "Email" (JString "Ali.Khan@Example.com")).
  - simpl. right. left. reflexivity.
  - intros s _. reflexivity.
Defined.

Example lowercase_request_body :
  lowercase_request "POST"
    (JObject [("firstName", JString "ALI");
              ("Email", JString "Ali.Khan@Example.com");
              ("address", JObject [("city", JString "Lahore")])])
  = JObject [("firstName", JString "ali");
             ("Email", JString "Ali.Khan@Example.com");
             ("address", JObject [("city", JString "Lahore")])].
Proof. reflexivity. Qed.

(* ===================================================================== *)
(** ** Properties that every run keeps *)
(* ===================================================================== *)

Section Keeps.

Variable I : Tables -> Prop.

Lemma keeps_bind_any {A B : Type} (m : M A) (k : A -> M B) :
  keeps I m -> (forall a, keeps I (k a)) -> keeps I (bind m k).
Proof.
  intros Hm Hk s r s' H HI. apply bind_cases in H.
  destruct H as [(e & H & _) | (a & s1 & H & Hrest)].
  - exact (Hm _ _ _ H HI).
  - exact (Hk a _ _ _ Hrest (Hm _ _ _ H HI)).
Qed.

Lemma keeps_coerce_any {A : Type} (x : SqlError + A) : keeps I (coerce x).
Proof. intros s r s' H HI. inversion H; subst. exact HI. Qed.

Lemma keeps_ret_any {A : Type} (a : A) : keeps I (ret a).
Proof. intros s r s' H HI. inversion H; subst. exact HI. Qed.

Lemma keeps_throw_any {A : Type} (e : SqlError) : keeps I (@throw A e).
Proof. intros s r s' H HI. inversion H; subst. exact HI. Qed.

Lemma keeps_query_any {A : Type} (q : Tables -> A) : keeps I (query q).
Proof. intros s r s' H HI. inversion H; subst. exact HI. Qed.

Lemma keeps_START_TRANSACTION_any : keeps I START_TRANSACTION.
Proof. intros s r s' H HI. inversion H; subst. exact HI. Qed.

Lemma keeps_COMMIT_any : keeps I COMMIT.
Proof. intros s r s' H HI. inversion H; subst. exact HI. Qed.

Lemma keeps_exec_insert_any {A : Type} (skip : Tables -> Tables)
    (stmt : Tables -> SqlError + (A * Tables)) :
  statement_keeps I stmt -> (forall t, I t -> I (skip t)) ->
  keeps I (exec_insert skip stmt).
Proof.
  intros Hstmt Hskip s r s'. unfold exec_insert.
  destruct (stmt (view s)) as [e | [a t1]] eqn:Hrun; intros H HI;
    inversion H; subst.
  - destruct (key_taken e); [| exact HI].
    specialize (Hskip _ HI). unfold view at 1.
    destruct (open_txn s); exact Hskip.
  - specialize (Hstmt _ _ _ Hrun HI).
    unfold view. destruct (open_txn s); exact Hstmt.
Qed.

Lemma keeps_exec_any {A : Type} (stmt : Tables -> SqlError + (A * Tables)) :
  statement_keeps I stmt -> keeps I (exec stmt).
Proof.
  intros Hstmt s r s'. unfold exec.
  destruct (stmt (view s)) as [e | [a t1]] eqn:Hrun; intros H HI;
    inversion H; subst; [exact HI |].
  specialize (Hstmt _ _ _ Hrun HI).
  unfold view. destruct (open_txn s); exact Hstmt.
Qed.

(** A property that the five statements of [PlaceOrder] keep, and that
    does not depend on the counters, is kept by the procedure, by the
    loop of the handler and by the handler, whatever they return. *)
Lemma PlaceOrder_keeps c b q pm :
  counters_keep I ->
  (forall c, statement_keeps I (insert_Orders c)) ->
  (forall o b q, statement_keeps I (insert_OrderDetails o b q)) ->
  (forall b q, statement_keeps I (update_Books_Stock b q)) ->
  (forall o m a, statement_keeps I (insert_Payments o m a)) ->
  (forall o m, statement_keeps I (insert_OrderLog o m)) ->
  keeps I (PlaceOrder c b q pm).
Proof.
  intros H0 H1 H2 H3 H4 H5. unfold PlaceOrder.
  repeat
    lazymatch goal with
    | |- keeps I (bind _ _) => apply keeps_bind_any; [| intro]
    | |- keeps I (exec_insert _ _) =>
        apply keeps_exec_insert_any;
        [| let t := fresh "t" in
           let H := fresh "H" in
           intros t H; destruct (H0 t H) as (? & ? & ? & ?); assumption]
    | |- keeps I (coerce _) => apply keeps_coerce_any
    | |- keeps I START_TRANSACTION => apply keeps_START_TRANSACTION_any
    | |- keeps I COMMIT => apply keeps_COMMIT_any
    | |- keeps I (query _) => apply keeps_query_any
    | |- keeps I (ret _) => apply keeps_ret_any
    | |- keeps I (exec _) => apply keeps_exec_any
    end; auto.
Qed.

Lemma CALL_PlaceOrder_keeps c b q pm :
  (forall c b q pm, keeps I (PlaceOrder c b q pm)) ->
  keeps I (CALL_PlaceOrder c b q pm).
Proof.
  intro HP. unfold CALL_PlaceOrder.
  destruct (argument c), (argument b), (argument q);
    try apply keeps_throw_any.
  apply keeps_bind_any; [apply HP | intro; apply keeps_ret_any].
Qed.

Lemma place_items_keeps customer pm its :
  (forall c b q pm, keeps I (PlaceOrder c b q pm)) ->
  forall s r s',
    place_items customer pm its s = (r, s') -> I (view s) -> I (view s').
Proof.
  intro HP. induction its as [| it rest IH]; intros s r s' H HI;
    cbn [place_items] in H.
  - inversion H; subst. exact HI.
  - destruct (call_arguments customer it) as [e | [[c b] q]];
      [inversion H; subst; exact HI |].
    destruct (CALL_PlaceOrder c b q pm s) as [[e | u] s1] eqn:Hcall.
    + inversion H; subst.
      exact (CALL_PlaceOrder_keeps _ _ _ _ HP _ _ _ Hcall HI).
    + apply (IH _ _ _ H).
      exact (CALL_PlaceOrder_keeps _ _ _ _ HP _ _ _ Hcall HI).
Qed.

Lemma post_orders_keeps s req resp s' :
  (forall c b q pm, keeps I (PlaceOrder c b q pm)) ->
  post_orders (Some s) req = (resp, Some s') ->
  I (view s) -> I (view s').
Proof.
  intro HP. unfold post_orders, post_orders_handler.
  cbn [lowercase_body customerId items paymentMethod].
  destruct (_ || _ || _); [intros H; inversion H; subst; auto |].
  destruct (lowercase_value "items" (items req)) as [[| | | | | its | |] |];
    try solve [intros H; inversion H; subst; auto].
  destruct (lowercase_value "paymentMethod" (paymentMethod req))
    as [[| | | | pm | | |] |];
    try solve [intros H; inversion H; subst; auto].
  destruct (negb _); [intros H; inversion H; subst; auto |].
  destruct (some_invalid its) as [e | [|]];
    try solve [intros H; inversion H; subst; auto].
  destruct (place_items _ pm its s) as [r s1] eqn:Hrun.
  intros H HI.
  pose proof (place_items_keeps _ _ _ HP _ _ _ Hrun HI) as HI1.
  destruct r; inversion H; subst; exact HI1.
Qed.

End Keeps.

(* ===================================================================== *)
(** ** The stock of a book *)
(* ===================================================================== *)

Lemma update_rows_In {X : Type} (f : X -> SqlError + X) rows rows' r' :
  update_rows f rows = inr rows' -> In r' rows' ->
  exists r, In r rows /\ f r = inr r'.
Proof.
  revert rows'. induction rows as [| r rest IH]; intros rows' H Hin.
  - inversion H; subst. contradiction.
  - cbn in H. destruct (f r) as [e | r1] eqn:Hr; [discriminate |].
    destruct (update_rows f rest) as [e | rest1]; [discriminate |].
    inversion H; subst. destruct Hin as [<- | Hin].
    + exists r. split; [left; reflexivity | exact Hr].
    + destruct (IH _ eq_refl Hin) as (r0 & Hr0 & Hf).
      exists r0. split; [right; exact Hr0 | exact Hf].
Qed.

Lemma add_stock_checked b c r r' :
  add_stock b c r = inr r' ->
  check_nonneg (Books_Stock r) = true -> check_nonneg (Books_Stock r') = true.
Proof.
  unfold add_stock. destruct (Books_Stock r) as [st |] eqn:Hst.
  - destruct (_ && _) eqn:Hc.
    + apply andb_true_iff in Hc. destruct Hc as [_ Hc].
      unfold coerce_INT. destruct (_ && _); [| discriminate].
      intros H _. inversion H; subst. exact Hc.
    + intros H Hr. inversion H; subst. rewrite Hst. exact Hr.
  - intros H Hr. inversion H; subst. rewrite Hst. reflexivity.
Qed.

Lemma decrement_stock_checked b q r :
  check_nonneg (Books_Stock r) = true ->
  check_nonneg (Books_Stock (decrement_stock b q r)) = true.
Proof.
  unfold decrement_stock. destruct (Books_Stock r) as [st |] eqn:Hst.
  - destruct (_ && _) eqn:Hc.
    + apply andb_true_iff in Hc. destruct Hc as [_ Hc].
      intros _. cbn. apply Z.leb_le. apply Z.leb_le in Hc. lia.
    + rewrite Hst. auto.
  - rewrite Hst. auto.
Qed.

Lemma update_Books_add_keeps_stocks b c :
  statement_keeps (fun t => stocks_checked t = true) (update_Books_add b c).
Proof.
  intros t a t1. unfold update_Books_add.
  destruct (update_rows (add_stock b c) (Books t)) as [e | rows] eqn:Hrows;
    [discriminate |].
  intros H Hok. inversion H; subst. unfold stocks_checked in *. cbn.
  rewrite forallb_forall in *. intros r' Hin.
  destruct (update_rows_In _ _ _ _ Hrows Hin) as (r & Hr & Hf).
  exact (add_stock_checked _ _ _ _ Hf (Hok r Hr)).
Qed.

Lemma update_Books_Stock_keeps_stocks b q :
  statement_keeps (fun t => stocks_checked t = true) (update_Books_Stock b q).
Proof.
  intros t a t1. unfold update_Books_Stock. intros H Hok.
  inversion H; subst. unfold stocks_checked in *. cbn.
  rewrite forallb_forall in *. intros r' Hin.
  apply in_map_iff in Hin. destruct Hin as (r & <- & Hr).
  apply decrement_stock_checked. exact (Hok r Hr).
Qed.

Ltac inserted :=
  repeat first [ destruct (negb _); [discriminate |]
               | destruct (next_key _ _); [discriminate |] ].

Lemma PlaceOrder_keeps_stocks c b q pm :
  keeps (fun t => stocks_checked t = true) (PlaceOrder c b q pm).
Proof.
  apply PlaceOrder_keeps.
  - intros t Hok. repeat split; exact Hok.
  - intros c0 t a t1. unfold insert_Orders. inserted.
    destruct (has_customer t c0); [| discriminate].
    intros H Hok. inversion H; subst. exact Hok.
  - intros o b0 q0 t a t1. unfold insert_OrderDetails. inserted.
    intros H Hok. inversion H; subst. exact Hok.
  - apply update_Books_Stock_keeps_stocks.
  - intros o m a0 t a t1. unfold insert_Payments. inserted.
    intros H Hok. inversion H; subst. exact Hok.
  - intros o m t a t1. unfold insert_OrderLog. inserted.
    intros H Hok. inversion H; subst. exact Hok.
Qed.

Lemma UpdateBookStock_keeps_stocks b c :
  keeps (fun t => stocks_checked t = true) (UpdateBookStock b c).
Proof.
  unfold UpdateBookStock.
  apply keeps_bind_any; [apply keeps_coerce_any | intro].
  apply keeps_bind_any; [apply keeps_coerce_any | intro].
  apply keeps_exec_any. apply update_Books_add_keeps_stocks.
Qed.

Lemma CALL_UpdateBookStock_keeps_stocks b c :
  keeps (fun t => stocks_checked t = true) (CALL_UpdateBookStock b c).
Proof.
  unfold CALL_UpdateBookStock.
  destruct (argument b), (argument c); try apply keeps_throw_any.
  apply UpdateBookStock_keeps_stocks.
Qed.

Lemma update_Orders_Status_Books st o t a t1 :
  update_Orders_Status st o t = inr (a, t1) ->
  Books t1 = Books t /\ Customers t1 = Customers t /\
  OrderDetails t1 = OrderDetails t /\
  map Orders_CustomerID (Orders t1) = map Orders_CustomerID (Orders t).
Proof.
  unfold update_Orders_Status. destruct (has_order t o).
  2:{ intro H. inversion H; subst. repeat split; reflexivity. }
  destruct (coerce_VARCHAR_50 "Status" st) as [e | st']; [discriminate |].
  intro H. inversion H; subst. cbn. repeat split; try reflexivity.
  rewrite map_map. apply map_ext. intro r. unfold set_status.
  destruct (Orders_OrderID r =? o); reflexivity.
Qed.

Lemma UPDATE_Orders_Status_keeps_stocks st orderId :
  keeps (fun t => stocks_checked t = true) (UPDATE_Orders_Status st orderId).
Proof.
  unfold UPDATE_Orders_Status.
  destruct orderId; try apply keeps_throw_any; try apply keeps_ret_any.
  apply keeps_exec_any. intros t a t1 H Hok.
  apply update_Orders_Status_Books in H. destruct H as (HB & _).
  unfold stocks_checked in *. rewrite HB. exact Hok.
Qed.

(** X11.  No request drives a stock below zero: when every stock satisfies its
    CHECK before a request for an order, for a stock change or for a
    status, every stock satisfies it afterwards, whatever the request
    and whatever the answer. *)
Theorem stock_never_negative s s' :
  stocks_checked (view s) = true ->
  (forall req resp,
     post_orders (Some s) req = (resp, Some s') ->
     stocks_checked (view s') = true) /\
  (forall id change resp,
     put_book_stock (Some s) id change = (resp, Some s') ->
     stocks_checked (view s') = true) /\
  (forall id st resp,
     put_order_status (Some s) id st = (resp, Some s') ->
     stocks_checked (view s') = true).
Proof.
  intro Hok. split; [| split].
  - intros req resp H.
    exact (post_orders_keeps (fun t => stocks_checked t = true) _ _ _ _
             PlaceOrder_keeps_stocks H Hok).
  - intros id change resp. unfold put_book_stock, put_book_stock_handler.
    cbv zeta.
    destruct (stock_fields_missing _ _) as [e | [|]];
      try solve [intros H; inversion H; subst; exact Hok].
    destruct (parseInt_value _) as [e | c];
      [intros H; inversion H; subst; exact Hok |].
    destruct (CALL_UpdateBookStock _ _ s) as [r s1] eqn:Hrun.
    pose proof (CALL_UpdateBookStock_keeps_stocks _ _ _ _ _ Hrun Hok) as H1.
    destruct r as [e | u]; [intros H; inversion H; subst; exact H1 |].
    destruct (SELECT_Stock _ (view s1)) as [e | [| stock rows]];
      intros H; inversion H; subst; exact H1.
  - intros id st resp. unfold put_order_status. cbv zeta.
    destruct (_ || _); [intros H; inversion H; subst; exact Hok |].
    destruct st as [st |]; [| intros H; inversion H; subst; exact Hok].
    destruct (UPDATE_Orders_Status st _ s) as [r s1] eqn:Hrun.
    pose proof (UPDATE_Orders_Status_keeps_stocks _ _ _ _ _ Hrun Hok) as H1.
    destruct r; intros H; inversion H; subst; exact H1.
Qed.

Lemma stock_never_negative_witness :
  stocks_checked
    (view (snd (CALL_UpdateBookStock (JS.Int 2) (JS.Int (-40)) seed_session)))
  = true.
Proof.
  apply (stock_never_negative seed_session
           (snd (CALL_UpdateBookStock (JS.Int 2) (JS.Int (-40)) seed_session))
           eq_refl) with (id := "2") (change := Some (JNumber (-40)))
           (resp := fst (put_book_stock (Some seed_session) "2"
                           (Some (JNumber (-40))))).
  reflexivity.
Defined.

Lemma in_INT_coerce column v :
  INT_MIN <= v <= INT_MAX -> coerce_INT column v = inr v.
Proof.
  intro H. unfold coerce_INT.
  replace ((INT_MIN <=? v) && (v <=? INT_MAX)) with true; [reflexivity |].
  symmetry. apply andb_true_iff. split; apply Z.leb_le; lia.
Qed.

Lemma UpdateBookStock_exec b c s :
  INT_MIN <= b <= INT_MAX -> INT_MIN <= c <= INT_MAX ->
  UpdateBookStock b c s = exec (update_Books_add b c) s.
Proof.
  intros Hb Hc. unfold UpdateBookStock, bind, coerce.
  rewrite (in_INT_coerce _ _ Hb), (in_INT_coerce _ _ Hc). reflexivity.
Qed.

(** An argument outside INT stops the procedure before its statement. *)
Lemma UpdateBookStock_refused b c s :
  in_INT b && in_INT c = false ->
  exists e, UpdateBookStock b c s = (inl e, s).
Proof.
  intro H. unfold UpdateBookStock, bind, coerce.
  destruct (in_INT b) eqn:Hb.
  - cbn [andb] in H. rewrite (coerce_INT_in _ _ Hb), (coerce_INT_out _ _ H).
    eexists. reflexivity.
  - rewrite (coerce_INT_out _ _ Hb). eexists. reflexivity.
Qed.

(** A number is never NaN. *)
Lemma isNaN_JNumber c : isNaN_value (Some (JNumber c)) = inr false.
Proof.
  unfold isNaN_value, ToNumber, sign_of.
  destruct (c =? 0); [reflexivity |]. destruct (c <? 0); reflexivity.
Qed.

(** What the driver writes for [parseInt] of a number: the number, when
    it is an INT. *)
Lemma argument_JNumber c :
  exists x, parseInt_value (Some (JNumber c)) = inr x /\
    ((exists name, argument x = inl name) \/
     (exists z, argument x = inr z /\ in_INT z = in_INT c /\
                (in_INT c = true -> z = c))).
Proof.
  unfold parseInt_value. cbn [ToString]. rewrite parseInt_integer_text.
  eexists. split; [reflexivity |]. unfold JS.of_digits.
  destruct (Z.leb_spec (Z.abs c) JS.EXACT) as [Hle | Hgt].
  - right. exists c. cbn [argument].
    replace (if c <? 0 then - Z.abs c else Z.abs c) with c
      by (destruct (Z.ltb_spec c 0); lia).
    repeat split; reflexivity.
  - assert (Hout : in_INT c = false).
    { apply not_true_is_false. intro Hin. apply in_INT_spec in Hin.
      unfold JS.EXACT, INT_MIN, INT_MAX in *. lia. }
    destruct (Z.abs c <? JS.OVERFLOW).
    + right. cbn [argument]. eexists. split; [reflexivity |].
      rewrite Hout. split; [| discriminate].
      destruct (c <? 0); reflexivity.
    + left. eexists. reflexivity.
Qed.

(** The handler on a change that is a number, for an id that is read as
    an integer: both within INT, the procedure runs its statement and the
    stock is read back. *)
Lemma put_book_stock_INT s id b c :
  JS.parseInt id = JS.Int b ->
  INT_MIN <= b <= INT_MAX -> INT_MIN <= c <= INT_MAX ->
  put_book_stock (Some s) id (Some (JNumber c)) =
  match exec (update_Books_add b c) s with
  | (inl e, s') => (stock_failed (err_message e), Some s')
  | (inr _, s') =>
      match select_Stock_rows b (view s') with
      | [] => (reply 404 [("error", JString "Book not found")], Some s')
      | stock :: _ =>
          (reply 200 [("message", JString "Stock updated successfully");
                      ("newStock", nullable_number stock)],
           Some s')
      end
  end.
Proof.
  intros Hid Hb Hc.
  unfold put_book_stock, put_book_stock_handler. cbv zeta.
  rewrite lowercase_number, Hid. unfold stock_fields_missing.
  cbn [JS.isNaN loosely_null orb]. rewrite isNaN_JNumber.
  rewrite (parseInt_INT c) by (apply in_INT_spec; exact Hc).
  unfold CALL_UpdateBookStock. cbn [argument].
  rewrite (UpdateBookStock_exec _ _ _ Hb Hc). reflexivity.
Qed.

(** One of them outside INT, the answer is 500 and nothing has run. *)
Lemma put_book_stock_refused s id b c :
  JS.parseInt id = JS.Int b ->
  in_INT b && in_INT c = false ->
  exists message,
    put_book_stock (Some s) id (Some (JNumber c)) =
    (stock_failed message, Some s).
Proof.
  intros Hid Hout.
  unfold put_book_stock, put_book_stock_handler. cbv zeta.
  rewrite lowercase_number, Hid. unfold stock_fields_missing.
  cbn [JS.isNaN loosely_null orb]. rewrite isNaN_JNumber.
  destruct (argument_JNumber c) as (x & -> & Hx).
  unfold CALL_UpdateBookStock. cbn [argument].
  destruct Hx as [(name & ->) | (z & -> & Hz & _)].
  - eexists. reflexivity.
  - rewrite <- Hz in Hout.
    destruct (UpdateBookStock_refused b z s Hout) as (e & ->).
    eexists. reflexivity.
Qed.

Lemma exec_view {A : Type} (stmt : Tables -> SqlError + (A * Tables)) s a t1 :
  stmt (view s) = inr (a, t1) ->
  exists s1, exec stmt s = (inr a, s1) /\ view s1 = t1.
Proof.
  intro H. unfold exec. rewrite H. eexists. split; [reflexivity |].
  unfold view. destruct (open_txn s); reflexivity.
Qed.

Lemma add_stock_row_id b c r :
  Books_BookID (add_stock_row b c r) = Books_BookID r.
Proof.
  unfold add_stock_row. destruct (Books_Stock r); [| reflexivity].
  destruct (_ && _); reflexivity.
Qed.

Lemma add_stock_row_other b c r :
  Books_BookID r <> b -> add_stock_row b c r = r.
Proof.
  intro H. unfold add_stock_row. destruct (Books_Stock r); [| reflexivity].
  apply Z.eqb_neq in H. rewrite H. reflexivity.
Qed.

Lemma filter_add_stock_rows b c b' (rows : list Book) :
  filter (fun r => Books_BookID r =? b') (map (add_stock_row b c) rows) =
  map (add_stock_row b c) (filter (fun r => Books_BookID r =? b') rows).
Proof.
  induction rows as [| r rest IH]; cbn; [reflexivity |].
  rewrite add_stock_row_id.
  destruct (Books_BookID r =? b'); cbn; rewrite IH; reflexivity.
Qed.

Lemma update_rows_add_stock b c (rows : list Book) :
  (forall r st, In r rows -> Books_BookID r = b -> Books_Stock r = Some st ->
                st + c <= INT_MAX) ->
  update_rows (add_stock b c) rows = inr (map (add_stock_row b c) rows).
Proof.
  induction rows as [| r rest IH]; intro Hfit; [reflexivity |].
  cbn [update_rows map].
  assert (Hr : add_stock b c r = inr (add_stock_row b c r)).
  { unfold add_stock, add_stock_row.
    destruct (Books_Stock r) as [st |] eqn:Hst; [| reflexivity].
    destruct ((Books_BookID r =? b) && (0 <=? st + c)) eqn:Hc;
      [| reflexivity].
    apply andb_true_iff in Hc. destruct Hc as [Hid Hpos].
    apply Z.eqb_eq in Hid. apply Z.leb_le in Hpos.
    rewrite in_INT_coerce; [reflexivity |].
    pose proof (Hfit r st (or_introl eq_refl) Hid Hst).
    unfold INT_MIN. lia. }
  rewrite Hr, IH; [reflexivity |].
  intros r0 st Hin. apply Hfit. right. exact Hin.
Qed.

(** The rows of book [b] and their stocks, when there is one row. *)
Lemma single_row b t st :
  select_Stock_rows b t = [Some st] ->
  exists r, filter (fun r => Books_BookID r =? b) (Books t) = [r] /\
            Books_BookID r = b /\ Books_Stock r = Some st.
Proof.
  unfold select_Stock_rows. intro H.
  destruct (filter _ (Books t)) as [| r [| r2 rest]] eqn:Hf;
    try discriminate H.
  exists r. split; [reflexivity |]. cbn in H. inversion H. split; auto.
  assert (Hin : In r (filter (fun r => Books_BookID r =? b) (Books t)))
    by (rewrite Hf; left; reflexivity).
  apply filter_In in Hin. destruct Hin as [_ Hid]. apply Z.eqb_eq. exact Hid.
Qed.

Lemma single_row_fits b t st c :
  select_Stock_rows b t = [Some st] -> st + c <= INT_MAX ->
  forall r st', In r (Books t) -> Books_BookID r = b ->
                Books_Stock r = Some st' -> st' + c <= INT_MAX.
Proof.
  intros Hsel Hfit r st' Hin Hid Hst'.
  destruct (single_row _ _ _ Hsel) as (r0 & Hf & _ & Hst0).
  assert (Hin' : In r (filter (fun r => Books_BookID r =? b) (Books t))).
  { apply filter_In. split; [exact Hin | apply Z.eqb_eq; exact Hid]. }
  rewrite Hf in Hin'. destruct Hin' as [<- | []].
  rewrite Hst0 in Hst'. inversion Hst'; subst. exact Hfit.
Qed.

Lemma select_Stock_rows_added b c t b' :
  select_Stock_rows b' (with_Books t (map (add_stock_row b c) (Books t))) =
  map (fun r => Books_Stock (add_stock_row b c r))
      (filter (fun r => Books_BookID r =? b') (Books t)).
Proof.
  unfold select_Stock_rows. cbn [Books with_Books].
  rewrite filter_add_stock_rows, map_map. reflexivity.
Qed.

Lemma select_Stock_rows_other b c t b' :
  b' <> b ->
  select_Stock_rows b' (with_Books t (map (add_stock_row b c) (Books t))) =
  select_Stock_rows b' t.
Proof.
  intro Hne. rewrite select_Stock_rows_added. unfold select_Stock_rows.
  apply map_ext_in. intros r Hin. apply filter_In in Hin.
  destruct Hin as [_ Hid]. apply Z.eqb_eq in Hid.
  rewrite add_stock_row_other; [reflexivity | congruence].
Qed.

(** What an applied change does. *)
Lemma put_book_stock_applied s id b c st :
  JS.parseInt id = JS.Int b ->
  INT_MIN <= b <= INT_MAX ->
  INT_MIN <= c <= INT_MAX ->
  select_Stock_rows b (view s) = [Some st] ->
  0 <= st + c <= INT_MAX ->
  exists s',
    put_book_stock (Some s) id (Some (JNumber c)) =
    (reply 200 [("message", JString "Stock updated successfully");
                ("newStock", JNumber (st + c))],
     Some s') /\
    select_Stock_rows b (view s') = [Some (st + c)] /\
    (forall b', b' <> b ->
       select_Stock_rows b' (view s') = select_Stock_rows b' (view s)).
Proof.
  intros Hid Hb Hc Hsel Hfit.
  pose proof (update_rows_add_stock b c (Books (view s))
                (single_row_fits _ _ _ _ Hsel (proj2 Hfit))) as Hrows.
  destruct (exec_view (update_Books_add b c) s tt
              (with_Books (view s) (map (add_stock_row b c) (Books (view s)))))
    as (s1 & Hexec & Hview).
  { unfold update_Books_add. rewrite Hrows. reflexivity. }
  assert (Hnew : select_Stock_rows b (view s1) = [Some (st + c)]).
  { rewrite Hview, select_Stock_rows_added.
    destruct (single_row _ _ _ Hsel) as (r0 & Hf & Hid0 & Hst0).
    rewrite Hf. cbn. unfold add_stock_row. rewrite Hst0.
    replace ((Books_BookID r0 =? b) && (0 <=? st + c)) with true;
      [reflexivity |].
    symmetry. apply andb_true_iff.
    split; [apply Z.eqb_eq; exact Hid0 | apply Z.leb_le; lia]. }
  exists s1. split; [| split].
  - rewrite (put_book_stock_INT _ _ _ _ Hid Hb Hc), Hexec, Hnew. reflexivity.
  - exact Hnew.
  - intros b' Hne. rewrite Hview. apply select_Stock_rows_other. exact Hne.
Qed.

(** X12.  A change that keeps the stock between zero and the largest INT is
    applied to the book and to no other: the answer is 200 with the new
    stock, which is the old stock plus the change. *)
Theorem stock_change_is_applied s id b c st :
  JS.parseInt id = JS.Int b ->
  INT_MIN <= b <= INT_MAX ->
  INT_MIN <= c <= INT_MAX ->
  select_Stock_rows b (view s) = [Some st] ->
  0 <= st + c <= INT_MAX ->
  exists s',
    put_book_stock (Some s) id (Some (JNumber c)) =
    (reply 200 [("message", JString "Stock updated successfully");
                ("newStock", JNumber (st + c))],
     Some s') /\
    select_Stock_rows b (view s') = [Some (st + c)] /\
    (forall b', b' <> b ->
       select_Stock_rows b' (view s') = select_Stock_rows b' (view s)).
Proof. apply put_book_stock_applied. Qed.

Lemma stock_change_is_applied_witness :
  exists s',
    put_book_stock (Some seed_session) "2" (Some (JNumber (-40))) =
    (reply 200 [("message", JString "Stock updated successfully");
                ("newStock", JNumber (100 + -40))],
     Some s') /\
    select_Stock_rows 2 (view s') = [Some (100 + -40)] /\
    (forall b', b' <> 2 ->
       select_Stock_rows b' (view s') = select_Stock_rows b' (view seed_session)).
Proof.
  apply (stock_change_is_applied seed_session "2" 2 (-40) 100).
  - reflexivity.
  - unfold INT_MIN, INT_MAX. lia.
  - unfold INT_MIN, INT_MAX. lia.
  - reflexivity.
  - unfold INT_MAX. lia.
Defined.

(** X13.  A change, an integer [c] that prints with all its digits, that
    would take the stock of a book below zero is never applied.  When
    the id and the change are INT values the answer does not say so: it
    is 200 with the message of success and the stock as it was, and no
    stock has changed.  When one of them is not (a change below
    -2147483648), the procedure refuses its argument: the answer is 500
    and the connection is as it was. *)
Theorem stock_change_below_zero_is_dropped s id b c st :
  JS.parseInt id = JS.Int b ->
  prints_digits c = true ->
  select_Stock_rows b (view s) = [Some st] ->
  st + c < 0 ->
  (in_INT b && in_INT c = true ->
   exists s',
     put_book_stock (Some s) id (Some (JNumber c)) =
     (reply 200 [("message", JString "Stock updated successfully");
                 ("newStock", JNumber st)],
      Some s') /\
     (forall b',
        select_Stock_rows b' (view s') = select_Stock_rows b' (view s))) /\
  (in_INT b && in_INT c = false ->
   exists message,
     put_book_stock (Some s) id (Some (JNumber c)) =
     (reply 500 [("error", JString "Failed to update stock");
                 ("details", JString message)],
      Some s)).
Proof.
  intros Hid _ Hsel Hneg.
  split; [| apply put_book_stock_refused; exact Hid].
  intro Hin. apply andb_true_iff in Hin. destruct Hin as [Hb Hc].
  apply in_INT_spec in Hb, Hc.
  assert (Hmax : st + c <= INT_MAX) by (unfold INT_MAX; lia).
  pose proof (update_rows_add_stock b c (Books (view s))
                (single_row_fits _ _ _ _ Hsel Hmax)) as Hrows.
  destruct (exec_view (update_Books_add b c) s tt
              (with_Books (view s) (map (add_stock_row b c) (Books (view s)))))
    as (s1 & Hexec & Hview).
  { unfold update_Books_add. rewrite Hrows. reflexivity. }
  destruct (single_row _ _ _ Hsel) as (r0 & Hf & Hid0 & Hst0).
  assert (Hsame : forall b',
            select_Stock_rows b' (view s1) = select_Stock_rows b' (view s)).
  { intro b'. destruct (Z.eq_dec b' b) as [-> | Hne].
    - rewrite Hview, select_Stock_rows_added. unfold select_Stock_rows.
      rewrite Hf. cbn. unfold add_stock_row. rewrite Hst0.
      replace (0 <=? st + c) with false
        by (symmetry; apply Z.leb_gt; exact Hneg).
      rewrite andb_false_r, Hst0. reflexivity.
    - rewrite Hview. apply select_Stock_rows_other. exact Hne. }
  exists s1. split; [| exact Hsame].
  rewrite (put_book_stock_INT _ _ _ _ Hid Hb Hc), Hexec, Hsame, Hsel.
  reflexivity.
Qed.

Lemma stock_change_below_zero_is_dropped_witness :
  (exists s',
     put_book_stock (Some seed_session) "1" (Some (JNumber (-31))) =
     (reply 200 [("message", JString "Stock updated successfully");
                 ("newStock", JNumber 30)],
      Some s') /\
     (forall b', select_Stock_rows b' (view s')
                 = select_Stock_rows b' (view seed_session))) /\
  (exists message,
     put_book_stock (Some seed_session) "1" (Some (JNumber (-3000000000))) =
     (reply 500 [("error", JString "Failed to update stock");
                 ("details", JString message)],
      Some seed_session)).
Proof.
  split.
  - apply (stock_change_below_zero_is_dropped seed_session "1" 1 (-31) 30);
      first [reflexivity | lia].
  - apply (stock_change_below_zero_is_dropped seed_session "1" 1
             (-3000000000) 30);
      first [reflexivity | lia].
Defined.

Lemma map_add_stock_row_absent b c (rows : list Book) :
  filter (fun r => Books_BookID r =? b) rows = [] ->
  map (add_stock_row b c) rows = rows.
Proof.
  induction rows as [| r rest IH]; cbn; [reflexivity |].
  destruct (Books_BookID r =? b) eqn:Hid; [discriminate |].
  intro H. rewrite IH by exact H. rewrite add_stock_row_other;
    [reflexivity | apply Z.eqb_neq; exact Hid].
Qed.

Lemma with_Books_same t : with_Books t (Books t) = t.
Proof. destruct t. reflexivity. Qed.

(** X14.  A change, an integer [c] that prints with all its digits, for
    an id that is read as an integer that no book has as its key changes
    nothing.  When the id and the change are INT values the answer is
    404, after the procedure has run; when one of them is not (the id
    99999999999), the procedure refuses its argument and the answer is
    500. *)
Theorem stock_change_of_unknown_book s id b c :
  JS.parseInt id = JS.Int b ->
  prints_digits c = true ->
  select_Stock_rows b (view s) = [] ->
  (in_INT b && in_INT c = true ->
   exists s',
     put_book_stock (Some s) id (Some (JNumber c)) =
     (reply 404 [("error", JString "Book not found")], Some s') /\
     view s' = view s) /\
  (in_INT b && in_INT c = false ->
   exists message,
     put_book_stock (Some s) id (Some (JNumber c)) =
     (reply 500 [("error", JString "Failed to update stock");
                 ("details", JString message)],
      Some s)).
Proof.
  intros Hid _ Hsel. split; [| apply put_book_stock_refused; exact Hid].
  intro Hin. apply andb_true_iff in Hin. destruct Hin as [Hb Hc].
  apply in_INT_spec in Hb, Hc.
  assert (Hnone : filter (fun r => Books_BookID r =? b) (Books (view s)) = []).
  { unfold select_Stock_rows in Hsel.
    destruct (filter _ (Books (view s))); [reflexivity | discriminate]. }
  assert (Hrows : update_rows (add_stock b c) (Books (view s))
                  = inr (Books (view s))).
  { rewrite update_rows_add_stock.
    - rewrite map_add_stock_row_absent by exact Hnone. reflexivity.
    - intros r st Hin Hr _. exfalso.
      assert (Hin' : In r (filter (fun r => Books_BookID r =? b)
                                  (Books (view s))))
        by (apply filter_In; split; [exact Hin | apply Z.eqb_eq; exact Hr]).
      rewrite Hnone in Hin'. contradiction. }
  destruct (exec_view (update_Books_add b c) s tt (view s))
    as (s1 & Hexec & Hview).
  { unfold update_Books_add. rewrite Hrows, with_Books_same. reflexivity. }
  exists s1. split; [| exact Hview].
  rewrite (put_book_stock_INT _ _ _ _ Hid Hb Hc), Hexec, Hview, Hsel.
  reflexivity.
Qed.

Lemma stock_change_of_unknown_book_witness :
  (exists s',
     put_book_stock (Some seed_session) "999" (Some (JNumber 5)) =
     (reply 404 [("error", JString "Book not found")], Some s') /\
     view s' = view seed_session) /\
  (exists message,
     put_book_stock (Some seed_session) "99999999999" (Some (JNumber 5)) =
     (reply 500 [("error", JString "Failed to update stock");
                 ("details", JString message)],
      Some seed_session)).
Proof.
  split.
  - apply (stock_change_of_unknown_book seed_session "999" 999 5);
      reflexivity.
  - apply (stock_change_of_unknown_book seed_session "99999999999"
             99999999999 5);
      reflexivity.
Defined.

Lemma update_rows_add_stock_fails b c (rows : list Book) r st :
  In r rows -> Books_BookID r = b -> Books_Stock r = Some st ->
  INT_MAX < st + c ->
  update_rows (add_stock b c) rows = inl (OutOfRange "Stock").
Proof.
  intros Hin Hid Hst Hbig.
  assert (Herr : forall rows' e,
            update_rows (add_stock b c) rows' = inl e ->
            e = OutOfRange "Stock").
  { induction rows' as [| r1 rest IH]; intros e H; [discriminate H |].
    cbn in H. destruct (add_stock b c r1) as [e1 | r1'] eqn:H1.
    - inversion H; subst. unfold add_stock in H1.
      destruct (Books_Stock r1); [| discriminate].
      destruct (_ && _); [| discriminate].
      unfold coerce_INT in H1. destruct (_ && _); [discriminate |].
      inversion H1. reflexivity.
    - destruct (update_rows (add_stock b c) rest) as [e2 | rest'];
        [| discriminate].
      inversion H; subst. apply IH. reflexivity. }
  destruct (update_rows (add_stock b c) rows) as [e | rows'] eqn:Hrun.
  - rewrite (Herr _ _ Hrun). reflexivity.
  - exfalso. clear Herr. revert rows' Hrun.
    induction rows as [| r1 rest IH]; intros rows' Hrun; [contradiction |].
    cbn in Hrun. destruct (add_stock b c r1) as [e1 | r1'] eqn:H1;
      [discriminate |].
    destruct (update_rows (add_stock b c) rest) as [e2 | rest'] eqn:H2;
      [discriminate |].
    destruct Hin as [-> | Hin]; [| exact (IH Hin _ eq_refl)].
    unfold add_stock in H1. rewrite Hst in H1.
    replace ((Books_BookID r =? b) && (0 <=? st + c)) with true in H1.
    + unfold coerce_INT in H1.
      replace ((INT_MIN <=? st + c) && (st + c <=? INT_MAX)) with false in H1;
        [discriminate |].
      symmetry. apply andb_false_iff. right. apply Z.leb_gt. exact Hbig.
    + symmetry. apply andb_true_iff.
      split; [apply Z.eqb_eq; exact Hid |
              apply Z.leb_le; unfold INT_MAX in Hbig; lia].
Qed.

(** X15.  A change that would take the stock beyond the largest INT fails in
    the server: the answer is 500 and the connection is as it was. *)
Theorem stock_change_beyond_INT_fails s id b c st :
  JS.parseInt id = JS.Int b ->
  INT_MIN <= b <= INT_MAX ->
  INT_MIN <= c <= INT_MAX ->
  select_Stock_rows b (view s) = [Some st] ->
  INT_MAX < st + c ->
  put_book_stock (Some s) id (Some (JNumber c)) =
  (reply 500 [("error", JString "Failed to update stock");
              ("details", JString (err_message (OutOfRange "Stock")))],
   Some s).
Proof.
  intros Hid Hb Hc Hsel Hbig.
  destruct (single_row _ _ _ Hsel) as (r0 & Hf & Hid0 & Hst0).
  assert (Hin : In r0 (Books (view s))).
  { assert (H : In r0 (filter (fun r => Books_BookID r =? b)
                              (Books (view s))))
      by (rewrite Hf; left; reflexivity).
    apply filter_In in H. apply H. }
  pose proof (update_rows_add_stock_fails b c _ r0 st Hin Hid0 Hst0 Hbig)
    as Hrows.
  rewrite (put_book_stock_INT _ _ _ _ Hid Hb Hc).
  unfold exec, update_Books_add. rewrite Hrows. reflexivity.
Qed.

Lemma stock_change_beyond_INT_fails_witness :
  put_book_stock (Some seed_session) "2" (Some (JNumber 2147483600)) =
  (reply 500 [("error", JString "Failed to update stock");
              ("details", JString (err_message (OutOfRange "Stock")))],
   Some seed_session).
Proof.
  apply (stock_change_beyond_INT_fails seed_session "2" 2 2147483600 100).
  - reflexivity.
  - unfold INT_MIN, INT_MAX. lia.
  - unfold INT_MIN, INT_MAX. lia.
  - reflexivity.
  - unfold INT_MAX. lia.
Defined.

(** X16.  Two changes in a row add up: when the stock stays within its bounds
    after the first and after the second, the second answer carries the
    old stock plus both changes; a change followed by its opposite gives
    the old stock back. *)
Theorem stock_changes_add_up s id b c1 c2 st :
  JS.parseInt id = JS.Int b ->
  INT_MIN <= b <= INT_MAX ->
  INT_MIN <= c1 <= INT_MAX ->
  INT_MIN <= c2 <= INT_MAX ->
  select_Stock_rows b (view s) = [Some st] ->
  0 <= st + c1 <= INT_MAX ->
  0 <= st + c1 + c2 <= INT_MAX ->
  exists r1 s1 s2,
    put_book_stock (Some s) id (Some (JNumber c1)) = (r1, Some s1) /\
    put_book_stock (Some s1) id (Some (JNumber c2)) =
    (reply 200 [("message", JString "Stock updated successfully");
                ("newStock", JNumber (st + c1 + c2))],
     Some s2) /\
    select_Stock_rows b (view s2) = [Some (st + c1 + c2)].
Proof.
  intros Hid Hb Hc1 Hc2 Hsel H1 H2.
  destruct (put_book_stock_applied s id b c1 st Hid Hb Hc1 Hsel H1)
    as (s1 & Hrun1 & Hsel1 & _).
  destruct (put_book_stock_applied s1 id b c2 (st + c1) Hid Hb Hc2 Hsel1 H2)
    as (s2 & Hrun2 & Hsel2 & _).
  eexists. exists s1, s2. split; [exact Hrun1 |]. split; assumption.
Qed.

Lemma stock_changes_add_up_witness :
  exists r1 s1 s2,
    put_book_stock (Some seed_session) "2" (Some (JNumber 25)) = (r1, Some s1) /\
    put_book_stock (Some s1) "2" (Some (JNumber (-25))) =
    (reply 200 [("message", JString "Stock updated successfully");
                ("newStock", JNumber (100 + 25 + -25))],
     Some s2) /\
    select_Stock_rows 2 (view s2) = [Some (100 + 25 + -25)].
Proof.
  apply (stock_changes_add_up seed_session "2" 2 25 (-25) 100).
  - reflexivity.
  - unfold INT_MIN, INT_MAX. lia.
  - unfold INT_MIN, INT_MAX. lia.
  - unfold INT_MIN, INT_MAX. lia.
  - reflexivity.
  - unfold INT_MAX. lia.
  - unfold INT_MAX. lia.
Defined.

(* ===================================================================== *)
(** ** The stock of a book in a placement *)
(* ===================================================================== *)

(** X17.  A call of [PlaceOrder] that returns has taken the ordered quantity
    from the stock of the book when the stock held as much, and has left
    the stock as it was when it did not; the stock of every other book is
    what it was. *)
Theorem PlaceOrder_stock c b q pm s oid total s' st :
  PlaceOrder c b q pm s = (inr (oid, total), s') ->
  select_Stock b (view s) = Some st ->
  select_Stock b (committed s') = Some (if q <=? st then st - q else st) /\
  (forall b', b' <> b ->
     select_Stock b' (committed s') = select_Stock b' (view s)).
Proof.
  intros H Hst. apply PlaceOrder_success in H.
  destruct H as (pm' & _ & _ & _ & _ & _ & _ & _ & _ & _ & _ & ->).
  cbn [committed]. set (t := view s) in *. clearbody t.
  unfold select_Stock, placed in *. cbn [Books]. split.
  - rewrite find_decrement_stock.
    destruct (find _ (Books t)) as [r |] eqn:Hfind; [| discriminate].
    apply find_some in Hfind. destruct Hfind as [_ Hid].
    cbn. unfold decrement_stock. rewrite Hst, Hid. cbn [andb].
    destruct (q <=? st); [reflexivity | exact Hst].
  - intros b' Hne. rewrite find_decrement_stock. clear Hst.
    destruct (find (fun r => Books_BookID r =? b') (Books t)) as [r |]
      eqn:Hfind; [| reflexivity].
    apply find_some in Hfind. destruct Hfind as [_ Hid].
    apply Z.eqb_eq in Hid. cbn. unfold decrement_stock.
    destruct (Books_Stock r) as [st' |] eqn:Hst'; [| exact Hst'].
    replace (Books_BookID r =? b) with false
      by (symmetry; apply Z.eqb_neq; congruence).
    exact Hst'.
Qed.

Lemma PlaceOrder_stock_witness :
  select_Stock 2 (committed (snd (PlaceOrder 1 2 7 "Cash" seed_session)))
  = Some (if 7 <=? 100 then 100 - 7 else 100).
Proof.
  apply (PlaceOrder_stock 1 2 7 "Cash" seed_session 4 (Some 630000)
           (snd (PlaceOrder 1 2 7 "Cash" seed_session)) 100);
    reflexivity.
Defined.

(* ===================================================================== *)
(** ** The figures of [GET /api/kpis] *)
(* ===================================================================== *)

Example DECIMAL_text_900 : DECIMAL_text 90000 = "900.00".
Proof. reflexivity. Qed.

Example DECIMAL_text_small : DECIMAL_text 5 = "0.05".
Proof. reflexivity. Qed.

Example seed_kpis :
  get_kpis (Some seed_session) =
  reply 200 [("totalBooks", JNumber 2); ("totalOrders", JNumber 3);
             ("totalRevenue", JString "3400.00");
             ("newCustomers", JNumber 3)].
Proof. reflexivity. Qed.

Lemma sql_SUM_app (l1 l2 : list (option Z)) :
  sql_SUM (l1 ++ l2) = sql_plus (sql_SUM l1) (sql_SUM l2).
Proof.
  induction l1 as [| [x |] rest IH]; cbn.
  - destruct (sql_SUM l2); reflexivity.
  - rewrite IH. destruct (sql_SUM rest), (sql_SUM l2); cbn;
      try reflexivity. f_equal. lia.
  - exact IH.
Qed.

Lemma sql_SUM_cons (a : option Z) (l : list (option Z)) :
  sql_SUM (a :: l) = sql_plus a (sql_SUM l).
Proof. destruct a; cbn; [destruct (sql_SUM l) |]; reflexivity. Qed.

Lemma sql_plus_assoc a b c :
  sql_plus a (sql_plus b c) = sql_plus (sql_plus a b) c.
Proof. destruct a, b, c; cbn; try reflexivity. f_equal. lia. Qed.

Lemma sql_plus_comm a b : sql_plus a b = sql_plus b a.
Proof. destruct a, b; cbn; try reflexivity. f_equal. lia. Qed.

Lemma sql_plus_None_r a : sql_plus a None = a.
Proof. destruct a; reflexivity. Qed.

Lemma flat_map_ext_in {X Y : Type} (f g : X -> list Y) (l : list X) :
  (forall x, In x l -> f x = g x) -> flat_map f l = flat_map g l.
Proof.
  induction l as [| x rest IH]; cbn; intro H; [reflexivity |].
  rewrite (H x (or_introl eq_refl)), IH; [reflexivity |].
  intros y Hy. apply H. right. exact Hy.
Qed.

Lemma has_order_below t o :
  well_formed t = true -> has_order t o = true -> o < next_OrderID t.
Proof.
  intros Hwf Ho. apply well_formed_spec in Hwf. destruct Hwf as (H1 & _).
  unfold has_order in Ho. apply existsb_exists in Ho.
  destruct Ho as (r & Hr & Heq). apply Z.eqb_eq in Heq.
  specialize (H1 r Hr). lia.
Qed.

(** X18.  A placement shows in the figures as one more order and nothing else:
    after a call of [PlaceOrder] that returns, [GET /api/kpis] counts one
    order more, the same books and customers, and the same revenue (the
    new order is pending, and revenue counts completed orders). *)
Theorem placement_in_kpis c b q pm s oid total s' :
  well_formed (view s) = true ->
  PlaceOrder c b q pm s = (inr (oid, total), s') ->
  get_kpis (Some s') =
  reply 200
    [("totalBooks", JNumber (TotalBooks (view s)));
     ("totalOrders", JNumber (TotalOrders (view s) + 1));
     ("totalRevenue", revenue_or_zero (TotalRevenue (view s)));
     ("newCustomers", JNumber (TotalCustomers (view s)))].
Proof.
  intros Hwf H. apply PlaceOrder_success in H.
  destruct H as (pm' & _ & _ & _ & _ & _ & _ & _ & _ & -> & _ & ->).
  unfold get_kpis. cbn [view open_txn committed].
  set (t := view s) in *. clearbody t.
  assert (Hbooks : TotalBooks (placed t c b q pm' total) = TotalBooks t).
  { unfold TotalBooks, placed. cbn. rewrite length_map. reflexivity. }
  assert (Horders : TotalOrders (placed t c b q pm' total)
                    = TotalOrders t + 1).
  { unfold TotalOrders, placed. cbn. rewrite length_app. cbn. lia. }
  assert (Hrev : completed_amounts (placed t c b q pm' total)
                 = completed_amounts t).
  { unfold completed_amounts, placed. cbn [Payments Orders].
    rewrite flat_map_app. cbn [flat_map]. rewrite app_nil_r.
    assert (Hnew : filter
                     (fun o => (next_OrderID t =? Orders_OrderID o) &&
                               collate_eqb (Orders_Status o) "Completed")
                     (Orders t ++ [mkOrder (next_OrderID t) c "Pending"])
                   = []).
    { apply filter_nil_of. intros o Ho. apply in_app_or in Ho.
      destruct Ho as [Ho | [<- | []]].
      - apply well_formed_spec in Hwf. destruct Hwf as (H1 & _).
        specialize (H1 o Ho).
        replace (next_OrderID t =? Orders_OrderID o) with false
          by (symmetry; apply Z.eqb_neq; lia).
        reflexivity.
      - cbn. rewrite Z.eqb_refl. reflexivity. }
    cbn [Payments_OrderID Payments_Amount]. rewrite Hnew. cbn [map].
    rewrite app_nil_r.
    apply flat_map_ext_in. intros p Hp. f_equal. rewrite filter_app. cbn.
    apply well_formed_spec in Hwf. destruct Hwf as (H1 & _ & H3 & _).
    pose proof (H3 p Hp) as Hex. unfold has_order in Hex.
    apply existsb_exists in Hex. destruct Hex as (o & Ho & Heq).
    apply Z.eqb_eq in Heq. specialize (H1 o Ho).
    replace (Payments_OrderID p =? next_OrderID t) with false
      by (symmetry; apply Z.eqb_neq; lia).
    cbn. apply app_nil_r. }
  unfold TotalRevenue, TotalCustomers. rewrite Hbooks, Horders, Hrev.
  reflexivity.
Qed.

Lemma placement_in_kpis_witness :
  get_kpis (Some (snd (PlaceOrder 1 2 1 "Cash" seed_session))) =
  reply 200
    [("totalBooks", JNumber (TotalBooks seed));
     ("totalOrders", JNumber (TotalOrders seed + 1));
     ("totalRevenue", revenue_or_zero (TotalRevenue seed));
     ("newCustomers", JNumber (TotalCustomers seed))].
Proof.
  apply (placement_in_kpis 1 2 1 "Cash" seed_session 4 (Some 90000)
           (snd (PlaceOrder 1 2 1 "Cash" seed_session)));
    reflexivity.
Defined.

Lemma set_status_id o st r :
  Orders_OrderID (set_status o st r) = Orders_OrderID r.
Proof. unfold set_status. destruct (Orders_OrderID r =? o); reflexivity. Qed.

Lemma filter_set_status o st k (rows : list Order) :
  filter (fun r => Orders_OrderID r =? k) (map (set_status o st) rows) =
  map (set_status o st) (filter (fun r => Orders_OrderID r =? k) rows).
Proof.
  induction rows as [| r rest IH]; cbn; [reflexivity |].
  rewrite set_status_id.
  destruct (Orders_OrderID r =? k); cbn; rewrite IH; reflexivity.
Qed.

Lemma completed_of_key (rows : list Order) k :
  filter (fun o => (k =? Orders_OrderID o) &&
                   collate_eqb (Orders_Status o) "Completed") rows
  = filter (fun o => collate_eqb (Orders_Status o) "Completed")
           (filter (fun o => Orders_OrderID o =? k) rows).
Proof.
  induction rows as [| r rest IH]; cbn; [reflexivity |].
  rewrite (Z.eqb_sym k). destruct (Orders_OrderID r =? k); cbn;
    [destruct (collate_eqb _ _) |]; rewrite IH; reflexivity.
Qed.

Lemma set_status_other_key o st k (rows : list Order) :
  k <> o ->
  map (set_status o st) (filter (fun r => Orders_OrderID r =? k) rows) =
  filter (fun r => Orders_OrderID r =? k) rows.
Proof.
  intro Hne. induction rows as [| r rest IH]; cbn; [reflexivity |].
  destruct (Orders_OrderID r =? k) eqn:Hk; [| exact IH].
  cbn. rewrite IH. f_equal. unfold set_status.
  apply Z.eqb_eq in Hk.
  replace (Orders_OrderID r =? o) with false
    by (symmetry; apply Z.eqb_neq; congruence).
  reflexivity.
Qed.

(** The revenue after the status of the one order [o], which was not
    completed, has been set to a status that reads [Completed]. *)
Lemma completed_amounts_after o st ord (orders : list Order)
    (payments : list Payment) :
  filter (fun r => Orders_OrderID r =? o) orders = [ord] ->
  collate_eqb (Orders_Status ord) "Completed" = false ->
  collate_eqb st "Completed" = true ->
  sql_SUM
    (flat_map
       (fun p =>
          map (fun _ => Payments_Amount p)
              (filter (fun r => (Payments_OrderID p =? Orders_OrderID r) &&
                                collate_eqb (Orders_Status r) "Completed")
                      (map (set_status o st) orders)))
       payments)
  = sql_plus
      (sql_SUM
         (flat_map
            (fun p =>
               map (fun _ => Payments_Amount p)
                   (filter
                      (fun r => (Payments_OrderID p =? Orders_OrderID r) &&
                                collate_eqb (Orders_Status r) "Completed")
                      orders))
            payments))
      (sql_SUM
         (map Payments_Amount
              (filter (fun p => Payments_OrderID p =? o) payments))).
Proof.
  intros Hone Hnot Hst.
  induction payments as [| p rest IH]; [reflexivity |].
  cbn [flat_map filter]. rewrite !sql_SUM_app, IH.
  rewrite !completed_of_key, filter_set_status.
  destruct (Payments_OrderID p =? o) eqn:Hp.
  - apply Z.eqb_eq in Hp. rewrite Hp, Hone. cbn [map filter].
    unfold set_status at 1. apply Z.eqb_eq in Hp.
    assert (Hid : (Orders_OrderID ord =? o) = true).
    { assert (Hin : In ord (filter (fun r => Orders_OrderID r =? o) orders))
        by (rewrite Hone; left; reflexivity).
      apply filter_In in Hin. apply Hin. }
    rewrite Hid. cbn [Orders_Status]. rewrite Hst, Hnot. cbn [map filter].
    rewrite sql_SUM_cons. cbn [sql_SUM].
    generalize (sql_SUM
                  (map Payments_Amount
                     (filter (fun p0 => Payments_OrderID p0 =? o) rest))).
    generalize (sql_SUM
                  (flat_map
                     (fun p0 =>
                        map (fun _ : Order => Payments_Amount p0)
                          (filter
                             (fun r => (Payments_OrderID p0 =? Orders_OrderID r)
                                       && collate_eqb (Orders_Status r)
                                            "Completed")
                             orders))
                     rest)).
    intros x y. destruct (Payments_Amount p), x, y; cbn; try reflexivity;
      f_equal; lia.
  - apply Z.eqb_neq in Hp. rewrite set_status_other_key by exact Hp.
    rewrite sql_plus_assoc. reflexivity.
Qed.

Lemma put_order_status_run s id o st :
  JS.parseInt id = JS.Int o ->
  st <> "" ->
  (String.length st <= 50)%nat ->
  exists s',
    put_order_status (Some s) id (Some st) =
    (json 200 [("message", "Order status updated successfully")], Some s') /\
    Orders (view s') = map (set_status o st) (Orders (view s)) /\
    Payments (view s') = Payments (view s).
Proof.
  intros Hid Hne Hlen. unfold put_order_status. cbv zeta. rewrite Hid.
  cbn [JS.isNaN JS.not_str orb].
  destruct (String.eqb st "") eqn:He.
  { apply String.eqb_eq in He. contradiction. }
  unfold UPDATE_Orders_Status, exec, update_Orders_Status, coerce_VARCHAR_50.
  apply Nat.leb_le in Hlen. rewrite Hlen.
  destruct (has_order (view s) o) eqn:Hex.
  - eexists. split; [reflexivity |]. destruct (open_txn s); split; reflexivity.
  - eexists. split; [reflexivity |].
    rewrite set_status_absent by exact Hex.
    unfold view. destruct (open_txn s); split; reflexivity.
Qed.

(** X19.  Completing an order adds its payments to the revenue: when the one
    order with the given id is not completed and the new status reads
    [Completed] (in any letter case), the request is answered with 200 and
    the revenue of [GET /api/kpis] afterwards is the revenue before plus
    the sum of the payments of that order. *)
Theorem completing_an_order_adds_its_payments s id o st ord :
  JS.parseInt id = JS.Int o ->
  (String.length st <= 50)%nat ->
  collate_eqb st "Completed" = true ->
  filter (fun r => Orders_OrderID r =? o) (Orders (view s)) = [ord] ->
  collate_eqb (Orders_Status ord) "Completed" = false ->
  exists s',
    put_order_status (Some s) id (Some st) =
    (json 200 [("message", "Order status updated successfully")], Some s') /\
    TotalRevenue (view s') =
    sql_plus (TotalRevenue (view s))
             (sql_SUM (map Payments_Amount (payments_of (view s) o))).
Proof.
  intros Hid Hlen Hst Hone Hnot.
  assert (Hne : st <> "").
  { intros ->. discriminate Hst. }
  destruct (put_order_status_run s id o st Hid Hne Hlen)
    as (s' & Hrun & Hord & Hpay).
  exists s'. split; [exact Hrun |].
  unfold TotalRevenue, completed_amounts. rewrite Hord, Hpay.
  apply (completed_amounts_after o st ord); assumption.
Qed.

Lemma completing_an_order_adds_its_payments_witness :
  exists s',
    put_order_status (Some seed_session) "2" (Some "completed") =
    (json 200 [("message", "Order status updated successfully")], Some s') /\
    TotalRevenue (view s') =
    sql_plus (TotalRevenue (view seed_session))
             (sql_SUM (map Payments_Amount (payments_of (view seed_session) 2))).
Proof.
  apply (completing_an_order_adds_its_payments seed_session "2" 2 "completed"
           (mkOrder 2 2 "Pending")).
  - reflexivity.
  - simpl. lia.
  - reflexivity.
  - reflexivity.
  - reflexivity.
Defined.

(* ===================================================================== *)
(** ** Deleting a book or a customer *)
(* ===================================================================== *)

Lemma references_hold_spec t :
  references_hold t = true <->
  (forall o, In o (Orders t) -> has_customer t (Orders_CustomerID o) = true) /\
  (forall d, In d (OrderDetails t) ->
             has_book t (OrderDetails_BookID d) = true).
Proof.
  unfold references_hold. rewrite andb_true_iff, !forallb_forall. tauto.
Qed.

Lemma existsb_filter_other {X : Type} (p keep : X -> bool) (l : list X) :
  (forall x, In x l -> p x = true -> keep x = true) ->
  existsb p (filter keep l) = existsb p l.
Proof.
  induction l as [| x rest IH]; intro H; cbn; [reflexivity |].
  assert (IH' : existsb p (filter keep rest) = existsb p rest).
  { apply IH. intros y Hy. apply H. right. exact Hy. }
  destruct (keep x) eqn:Hk; cbn; rewrite IH'; [reflexivity |].
  destruct (p x) eqn:Hp; [| reflexivity].
  rewrite (H x (or_introl eq_refl) Hp) in Hk. discriminate.
Qed.

Lemma update_rows_ids b c (rows rows' : list Book) :
  update_rows (add_stock b c) rows = inr rows' ->
  map Books_BookID rows' = map Books_BookID rows.
Proof.
  revert rows'. induction rows as [| r rest IH]; intros rows' H.
  - inversion H. reflexivity.
  - cbn in H. destruct (add_stock b c r) as [e | r1] eqn:Hr; [discriminate |].
    destruct (update_rows (add_stock b c) rest) as [e | rest1];
      [discriminate |].
    inversion H; subst. cbn. rewrite (IH _ eq_refl). f_equal.
    unfold add_stock in Hr. destruct (Books_Stock r); [| congruence].
    destruct (_ && _); [| congruence].
    destruct (coerce_INT _ _); [discriminate |].
    inversion Hr. reflexivity.
Qed.

Lemma existsb_of_map {X Y : Type} (p : Y -> bool) (f : X -> Y) (l : list X) :
  existsb p (map f l) = existsb (fun x => p (f x)) l.
Proof. induction l as [| x rest IH]; cbn; [| rewrite IH]; reflexivity. Qed.

Lemma has_book_ids t t1 :
  map Books_BookID (Books t1) = map Books_BookID (Books t) ->
  forall b, has_book t1 b = has_book t b.
Proof.
  intros H b. unfold has_book.
  rewrite <- (existsb_of_map (fun x => x =? b) Books_BookID (Books t1)).
  rewrite <- (existsb_of_map (fun x => x =? b) Books_BookID (Books t)).
  rewrite H. reflexivity.
Qed.

Lemma insert_Orders_refs c : statement_keeps refs (insert_Orders c).
Proof.
  intros t a t1. unfold insert_Orders. inserted.
  destruct (has_customer t c) eqn:Hc; [| discriminate].
  intros H Hok. inversion H; subst. unfold refs in *.
  apply references_hold_spec in Hok. destruct Hok as [H1 H2].
  apply references_hold_spec. split.
  - intros o Ho. cbn in Ho. apply in_app_or in Ho.
    destruct Ho as [Ho | [<- | []]]; [exact (H1 o Ho) | exact Hc].
  - exact H2.
Qed.

Lemma insert_OrderDetails_refs o b q :
  statement_keeps refs (insert_OrderDetails o b q).
Proof.
  intros t a t1. unfold insert_OrderDetails.
  destruct (negb _); [discriminate |].
  destruct (next_key _ _); [discriminate |].
  destruct (negb _); [discriminate |].
  destruct (has_book t b) eqn:Hb; [| discriminate]. cbn [negb].
  intros H Hok. inversion H; subst. unfold refs in *.
  apply references_hold_spec in Hok. destruct Hok as [H1 H2].
  apply references_hold_spec. split; [exact H1 |].
  intros d Hd. cbn in Hd. apply in_app_or in Hd.
  destruct Hd as [Hd | [<- | []]]; [exact (H2 d Hd) | exact Hb].
Qed.

Lemma update_Books_Stock_refs b q :
  statement_keeps refs (update_Books_Stock b q).
Proof.
  intros t a t1. unfold update_Books_Stock. intros H Hok.
  inversion H; subst. unfold refs in *.
  apply references_hold_spec in Hok. destruct Hok as [H1 H2].
  apply references_hold_spec. split; [exact H1 |].
  intros d Hd. unfold has_book. cbn. rewrite has_book_decrement.
  exact (H2 d Hd).
Qed.

Lemma insert_Payments_refs o m a : statement_keeps refs (insert_Payments o m a).
Proof.
  intros t x t1. unfold insert_Payments. inserted.
  intros H Hok. inversion H; subst. exact Hok.
Qed.

Lemma insert_OrderLog_refs o m : statement_keeps refs (insert_OrderLog o m).
Proof.
  intros t x t1. unfold insert_OrderLog. inserted.
  intros H Hok. inversion H; subst. exact Hok.
Qed.

Lemma update_Books_add_refs b c : statement_keeps refs (update_Books_add b c).
Proof.
  intros t a t1. unfold update_Books_add.
  destruct (update_rows (add_stock b c) (Books t)) as [e | rows] eqn:Hrows;
    [discriminate |].
  intros H Hok. inversion H; subst. unfold refs in *.
  apply references_hold_spec in Hok. destruct Hok as [H1 H2].
  apply references_hold_spec. split; [exact H1 |].
  intros d Hd.
  rewrite (has_book_ids t (with_Books t rows) (update_rows_ids _ _ _ _ Hrows)).
  exact (H2 d Hd).
Qed.

Lemma update_Orders_Status_refs st o :
  statement_keeps refs (update_Orders_Status st o).
Proof.
  intros t a t1. unfold update_Orders_Status.
  destruct (has_order t o); [| intros H Hok; inversion H; subst; exact Hok].
  destruct (coerce_VARCHAR_50 "Status" st) as [e | st']; [discriminate |].
  intros H Hok. inversion H; subst. unfold refs in *.
  apply references_hold_spec in Hok. destruct Hok as [H1 H2].
  apply references_hold_spec. split; [| exact H2].
  intros r Hr. cbn in Hr. apply in_map_iff in Hr.
  destruct Hr as (r0 & <- & Hr0). unfold set_status.
  destruct (Orders_OrderID r0 =? o); exact (H1 r0 Hr0).
Qed.

Lemma delete_Books_refs b t n t1 :
  delete_Books b t = inr (n, t1) -> refs t -> refs t1.
Proof.
  unfold delete_Books.
  destruct (negb (List.length _ =? 0)%nat) eqn:Hany; cbn [andb].
  - destruct (existsb _ (OrderDetails t)) eqn:Href; [discriminate |].
    intros H Hok. inversion H; subst. unfold refs in *.
    apply references_hold_spec in Hok. destruct Hok as [H1 H2].
    apply references_hold_spec. split; [exact H1 |].
    intros d Hd. cbn in Hd. unfold has_book. cbn [Books with_Books].
    rewrite existsb_filter_other; [exact (H2 d Hd) |].
    intros r _ Hr. apply Z.eqb_eq in Hr. apply negb_true_iff.
    apply Z.eqb_neq. intro Hb.
    assert (Hex : existsb (fun d => OrderDetails_BookID d =? b)
                          (OrderDetails t) = true).
    { apply existsb_exists. exists d. split; [exact Hd |].
      apply Z.eqb_eq. congruence. }
    congruence.
  - intros H Hok. inversion H; subst. unfold refs in *.
    apply references_hold_spec in Hok. destruct Hok as [H1 H2].
    apply references_hold_spec. split; [exact H1 |].
    intros d Hd. unfold has_book. cbn [Books with_Books].
    rewrite existsb_filter_other; [exact (H2 d Hd) |].
    intros r Hr Hid. apply negb_true_iff. apply Z.eqb_neq. intro Hb.
    apply negb_false_iff in Hany. apply Nat.eqb_eq in Hany.
    apply length_zero_iff_nil in Hany.
    assert (Hin : In r (filter (fun r => Books_BookID r =? b) (Books t)))
      by (apply filter_In; split; [exact Hr | apply Z.eqb_eq; exact Hb]).
    rewrite Hany in Hin. contradiction.
Qed.

Lemma delete_Customers_refs c t n t1 :
  delete_Customers c t = inr (n, t1) -> refs t -> refs t1.
Proof.
  unfold delete_Customers.
  destruct (negb (List.length _ =? 0)%nat) eqn:Hany; cbn [andb].
  - destruct (existsb _ (Orders t)) eqn:Href; [discriminate |].
    intros H Hok. inversion H; subst. unfold refs in *.
    apply references_hold_spec in Hok. destruct Hok as [H1 H2].
    apply references_hold_spec. split; [| exact H2].
    intros o Ho. cbn in Ho. unfold has_customer. cbn [Customers with_Customers].
    rewrite existsb_filter_other; [exact (H1 o Ho) |].
    intros x _ Hx. apply Z.eqb_eq in Hx. apply negb_true_iff.
    apply Z.eqb_neq. intro Hc.
    assert (Hex : existsb (fun o => Orders_CustomerID o =? c) (Orders t)
                  = true).
    { apply existsb_exists. exists o. split; [exact Ho |].
      apply Z.eqb_eq. congruence. }
    congruence.
  - intros H Hok. inversion H; subst. unfold refs in *.
    apply references_hold_spec in Hok. destruct Hok as [H1 H2].
    apply references_hold_spec. split; [| exact H2].
    intros o Ho. unfold has_customer. cbn [Customers with_Customers].
    rewrite existsb_filter_other; [exact (H1 o Ho) |].
    intros x Hx Hid. apply negb_true_iff. apply Z.eqb_neq. intro Hc.
    apply negb_false_iff in Hany. apply Nat.eqb_eq in Hany.
    apply length_zero_iff_nil in Hany.
    assert (Hin : In x (filter (Z.eqb c) (Customers t)))
      by (apply filter_In; split; [exact Hx | apply Z.eqb_eq; exact Hc]).
    rewrite Hany in Hin. contradiction.
Qed.

Lemma exec_delete_keeps {A : Type}
    (stmt : Tables -> DeleteError + (A * Tables)) s r s' :
  (forall t a t1, stmt t = inr (a, t1) -> refs t -> refs t1) ->
  exec_delete stmt s = (r, s') -> refs (view s) -> refs (view s').
Proof.
  intros Hstmt. unfold exec_delete.
  destruct (stmt (view s)) as [e | [a t1]] eqn:Hrun; intros H Hok;
    inversion H; subst; [exact Hok |].
  specialize (Hstmt _ _ _ Hrun Hok).
  unfold view. destruct (open_txn s); exact Hstmt.
Qed.

Lemma DELETE_Books_refs bookId t n t1 :
  DELETE_Books bookId t = inr (n, t1) -> refs t -> refs t1.
Proof.
  destruct bookId as [| b | negative | negative]; cbn [DELETE_Books];
    try discriminate.
  - apply delete_Books_refs.
  - intros H Hok. inversion H; subst. exact Hok.
Qed.

Lemma DELETE_Customers_refs customerId t n t1 :
  DELETE_Customers customerId t = inr (n, t1) -> refs t -> refs t1.
Proof.
  destruct customerId as [| c | negative | negative];
    cbn [DELETE_Customers]; try discriminate.
  - apply delete_Customers_refs.
  - intros H Hok. inversion H; subst. exact Hok.
Qed.

Lemma CALL_UpdateBookStock_refs b c : keeps refs (CALL_UpdateBookStock b c).
Proof.
  unfold CALL_UpdateBookStock.
  destruct (argument b), (argument c); try apply keeps_throw_any.
  unfold UpdateBookStock.
  apply keeps_bind_any; [apply keeps_coerce_any | intro].
  apply keeps_bind_any; [apply keeps_coerce_any | intro].
  apply keeps_exec_any. apply update_Books_add_refs.
Qed.

Lemma UPDATE_Orders_Status_refs st orderId :
  keeps refs (UPDATE_Orders_Status st orderId).
Proof.
  unfold UPDATE_Orders_Status.
  destruct orderId; try apply keeps_throw_any; try apply keeps_ret_any.
  apply keeps_exec_any. apply update_Orders_Status_refs.
Qed.

(** X20.  No request leaves an order without its customer or an order line
    without its book: when the foreign keys into [Customers] and [Books]
    hold before a request for an order, a stock change, a status, or the
    deletion of a book or of a customer, they hold afterwards, whatever
    the answer. *)
Theorem references_never_dangle s s' :
  references_hold (view s) = true ->
  (forall req resp,
     post_orders (Some s) req = (resp, Some s') ->
     references_hold (view s') = true) /\
  (forall id change resp,
     put_book_stock (Some s) id change = (resp, Some s') ->
     references_hold (view s') = true) /\
  (forall id st resp,
     put_order_status (Some s) id st = (resp, Some s') ->
     references_hold (view s') = true) /\
  (forall id resp,
     delete_book (Some s) id = (resp, Some s') ->
     references_hold (view s') = true) /\
  (forall id resp,
     delete_customer (Some s) id = (resp, Some s') ->
     references_hold (view s') = true).
Proof.
  intro Hok. change (refs (view s)) in Hok.
  split; [| split; [| split; [| split]]].
  - intros req resp H.
    refine (post_orders_keeps refs _ _ _ _ _ H Hok).
    intros c b q pm. apply PlaceOrder_keeps.
    + intros t Hrefs. repeat split; exact Hrefs.
    + apply insert_Orders_refs.
    + apply insert_OrderDetails_refs.
    + apply update_Books_Stock_refs.
    + apply insert_Payments_refs.
    + apply insert_OrderLog_refs.
  - intros id change resp. unfold put_book_stock, put_book_stock_handler.
    cbv zeta.
    destruct (stock_fields_missing _ _) as [e | [|]];
      try solve [intros H; inversion H; subst; exact Hok].
    destruct (parseInt_value _) as [e | c];
      [intros H; inversion H; subst; exact Hok |].
    destruct (CALL_UpdateBookStock _ _ s) as [r s1] eqn:Hrun.
    pose proof (CALL_UpdateBookStock_refs _ _ _ _ _ Hrun Hok) as H1.
    destruct r as [e | u]; [intros H; inversion H; subst; exact H1 |].
    destruct (SELECT_Stock _ (view s1)) as [e | [| stock rows]];
      intros H; inversion H; subst; exact H1.
  - intros id st resp. unfold put_order_status. cbv zeta.
    destruct (_ || _); [intros H; inversion H; subst; exact Hok |].
    destruct st as [st |]; [| intros H; inversion H; subst; exact Hok].
    destruct (UPDATE_Orders_Status st _ s) as [r s1] eqn:Hrun.
    pose proof (UPDATE_Orders_Status_refs _ _ _ _ _ Hrun Hok) as H1.
    destruct r; intros H; inversion H; subst; exact H1.
  - intros id resp. unfold delete_book. cbv zeta.
    destruct (JS.isNaN _); [intros H; inversion H; subst; exact Hok |].
    destruct (exec_delete _ s) as [r s1] eqn:Hrun.
    pose proof (exec_delete_keeps _ _ _ _
                  (DELETE_Books_refs (JS.parseInt id)) Hrun Hok) as H1.
    destruct r as [e | n].
    + destruct (String.eqb _ _); intros H; inversion H; subst; exact H1.
    + destruct (n =? 0); intros H; inversion H; subst; exact H1.
  - intros id resp. unfold delete_customer. cbv zeta.
    destruct (SELECT_OrderCount _ _) as [e | count];
      [intros H; inversion H; subst; exact Hok |].
    destruct (0 <? _); [intros H; inversion H; subst; exact Hok |].
    destruct (exec_delete _ s) as [r s1] eqn:Hrun.
    pose proof (exec_delete_keeps _ _ _ _
                  (DELETE_Customers_refs (JS.parseInt id)) Hrun Hok) as H1.
    destruct r as [e | n]; [intros H; inversion H; subst; exact H1 |].
    destruct (n =? 0); intros H; inversion H; subst; exact H1.
Qed.

Lemma references_never_dangle_witness :
  references_hold (view (snd (exec_delete (delete_Books 2) seed_session)))
  = true.
Proof.
  destruct (references_never_dangle seed_session
              (snd (exec_delete (delete_Books 2) seed_session)) eq_refl)
    as (_ & _ & _ & Hdel & _).
  apply (Hdel "2" (fst (delete_book (Some seed_session) "2"))).
  reflexivity.
Defined.

Lemma filter_nonempty_of_existsb {X : Type} (p : X -> bool) (l : list X) :
  existsb p l = true -> (List.length (filter p l) =? 0)%nat = false.
Proof.
  intro H. apply existsb_exists in H. destruct H as (x & Hx & Hp).
  assert (Hin : In x (filter p l)) by (apply filter_In; split; assumption).
  destruct (filter p l); [contradiction | reflexivity].
Qed.

Lemma filter_empty_of_existsb {X : Type} (p : X -> bool) (l : list X) :
  existsb p l = false -> filter p l = [].
Proof.
  intro H. apply filter_nil_of. intros x Hx.
  apply not_true_is_false. intro Hp.
  assert (existsb p l = true) by (apply existsb_exists; exists x; auto).
  congruence.
Qed.

(** X21.  A book that an order line refers to is not deleted: the server
    refuses the statement, the answer is 400 and the connection is as it
    was. *)
Theorem referenced_book_is_kept s id b :
  JS.parseInt id = JS.Int b ->
  has_book (view s) b = true ->
  existsb (fun d => OrderDetails_BookID d =? b) (OrderDetails (view s)) = true ->
  delete_book (Some s) id =
  (reply 400
     [("error",
       JString "Cannot delete book. It is referenced in existing records.")],
   Some s).
Proof.
  intros Hid Hbook Href. unfold delete_book. cbv zeta. rewrite Hid.
  cbn [JS.isNaN]. unfold exec_delete, DELETE_Books, delete_Books.
  unfold has_book in Hbook.
  rewrite (filter_nonempty_of_existsb _ _ Hbook), Href. reflexivity.
Qed.

Lemma referenced_book_is_kept_witness :
  delete_book (Some over_stock_session) "2" =
  (reply 400
     [("error",
       JString "Cannot delete book. It is referenced in existing records.")],
   Some over_stock_session).
Proof.
  apply (referenced_book_is_kept over_stock_session "2" 2); reflexivity.
Defined.

(** X22.  A customer who has an order is not deleted: the answer is 400 and
    the connection is as it was; no DELETE is sent. *)
Theorem customer_with_orders_is_kept s id c :
  JS.parseInt id = JS.Int c ->
  existsb (fun o => Orders_CustomerID o =? c) (Orders (view s)) = true ->
  delete_customer (Some s) id =
  (reply 400
     [("error",
       JString
         "Cannot delete customer with existing orders. Consider deactivating instead.")],
   Some s).
Proof.
  intros Hid Hord. unfold delete_customer. cbv zeta. rewrite Hid.
  cbn [SELECT_OrderCount].
  replace (0 <? OrderCount c (view s)) with true; [reflexivity |].
  symmetry. apply Z.ltb_lt. unfold OrderCount.
  pose proof (filter_nonempty_of_existsb _ _ Hord) as Hne.
  apply Nat.eqb_neq in Hne. lia.
Qed.

Lemma customer_with_orders_is_kept_witness :
  delete_customer (Some seed_session) "1" =
  (reply 400
     [("error",
       JString
         "Cannot delete customer with existing orders. Consider deactivating instead.")],
   Some seed_session).
Proof.
  apply (customer_with_orders_is_kept seed_session "1" 1); reflexivity.
Defined.

Lemma filter_filter_negb {X : Type} (p : X -> bool) (l : list X) :
  filter p (filter (fun x => negb (p x)) l) = [].
Proof.
  apply filter_nil_of. intros x Hx. apply filter_In in Hx.
  destruct Hx as [_ Hx]. apply negb_true_iff. exact Hx.
Qed.

Lemma filter_idempotent {X : Type} (p : X -> bool) (l : list X) :
  filter p (filter p l) = filter p l.
Proof.
  induction l as [| x rest IH]; cbn; [reflexivity |].
  destruct (p x) eqn:Hp; cbn; [rewrite Hp, IH |]; auto.
Qed.

Lemma exec_delete_view {A : Type}
    (stmt : Tables -> DeleteError + (A * Tables)) s a t1 :
  stmt (view s) = inr (a, t1) ->
  exists s1, exec_delete stmt s = (inr a, s1) /\ view s1 = t1.
Proof.
  intro H. unfold exec_delete. rewrite H. eexists. split; [reflexivity |].
  unfold view. destruct (open_txn s); reflexivity.
Qed.

(** X23.  A book that no order line refers to is deleted: the answer is 200,
    the book is gone and the other books are as they were; deleting it
    once more is answered with 404 and changes nothing. *)
Theorem deleted_book_is_gone s id b :
  JS.parseInt id = JS.Int b ->
  has_book (view s) b = true ->
  existsb (fun d => OrderDetails_BookID d =? b) (OrderDetails (view s)) = false ->
  exists s' s'',
    delete_book (Some s) id =
    (reply 200 [("message", JString "Book deleted successfully")], Some s') /\
    has_book (view s') b = false /\
    Books (view s') =
      filter (fun r => negb (Books_BookID r =? b)) (Books (view s)) /\
    delete_book (Some s') id =
    (reply 404 [("error", JString "Book not found.")], Some s'') /\
    view s'' = view s'.
Proof.
  intros Hid Hbook Href.
  set (t := view s) in *.
  set (t1 := with_Books t (filter (fun r => negb (Books_BookID r =? b))
                                  (Books t))).
  pose proof (filter_nonempty_of_existsb _ _ Hbook) as Hne.
  destruct (exec_delete_view (delete_Books b) s
              (Z.of_nat (List.length
                           (filter (fun r => Books_BookID r =? b) (Books t))))
              t1) as (s1 & Hrun1 & Hview1).
  { unfold delete_Books. fold t. rewrite Href, andb_false_r. reflexivity. }
  assert (Hgone : filter (fun r => Books_BookID r =? b) (Books t1) = []).
  { unfold t1. cbn [Books with_Books]. apply filter_filter_negb. }
  destruct (exec_delete_view (delete_Books b) s1 0 t1) as (s2 & Hrun2 & Hview2).
  { rewrite Hview1. unfold delete_Books. rewrite Hgone. cbn.
    f_equal. f_equal. unfold t1. cbn [Books with_Books].
    rewrite filter_idempotent. reflexivity. }
  exists s1, s2. split; [| split; [| split; [| split]]].
  - unfold delete_book. cbv zeta. rewrite Hid. cbn [JS.isNaN].
    change (exec_delete (DELETE_Books (JS.Int b)) s)
      with (exec_delete (delete_Books b) s).
    rewrite Hrun1.
    replace (Z.of_nat _ =? 0) with false; [reflexivity |].
    symmetry. apply Z.eqb_neq. apply Nat.eqb_neq in Hne. lia.
  - rewrite Hview1. unfold has_book.
    apply not_true_is_false. intro Hex.
    apply filter_nonempty_of_existsb in Hex. rewrite Hgone in Hex.
    discriminate Hex.
  - rewrite Hview1. reflexivity.
  - unfold delete_book. cbv zeta. rewrite Hid. cbn [JS.isNaN].
    change (exec_delete (DELETE_Books (JS.Int b)) s1)
      with (exec_delete (delete_Books b) s1).
    rewrite Hrun2. reflexivity.
  - rewrite Hview2, Hview1. reflexivity.
Qed.

Lemma deleted_book_is_gone_witness :
  exists s' s'',
    delete_book (Some seed_session) "2" =
    (reply 200 [("message", JString "Book deleted successfully")], Some s') /\
    has_book (view s') 2 = false /\
    Books (view s') =
      filter (fun r => negb (Books_BookID r =? 2)) (Books (view seed_session)) /\
    delete_book (Some s') "2" =
    (reply 404 [("error", JString "Book not found.")], Some s'') /\
    view s'' = view s'.
Proof.
  apply (deleted_book_is_gone seed_session "2" 2); reflexivity.
Defined.

(** X24.  A customer without orders is deleted: the answer is 200 and the
    customer is gone; a call of [PlaceOrder] for that customer then
    fails, and when the counter of [Orders] has a key left it is the
    foreign key of [Orders] that refuses it. *)
Theorem deleted_customer_is_gone s id c :
  JS.parseInt id = JS.Int c ->
  has_customer (view s) c = true ->
  existsb (fun o => Orders_CustomerID o =? c) (Orders (view s)) = false ->
  exists s',
    delete_customer (Some s) id =
    (reply 200 [("message", JString "Customer deleted successfully")],
     Some s') /\
    has_customer (view s') c = false /\
    Customers (view s') = filter (fun x => negb (c =? x)) (Customers (view s)) /\
    forall b q pm,
      INT_MIN <= c <= INT_MAX -> INT_MIN <= b <= INT_MAX ->
      INT_MIN <= q <= INT_MAX -> (String.length pm <= 50)%nat ->
      exists e,
        fst (PlaceOrder c b q pm s') = inl e /\
        (in_INT (next_OrderID (view s)) = true ->
         e = NoReferencedRow "Orders_ibfk_1").
Proof.
  intros Hid Hcust Hord.
  set (t := view s) in *.
  set (t1 := with_Customers t (filter (fun x => negb (c =? x)) (Customers t))).
  pose proof (filter_nonempty_of_existsb _ _ Hcust) as Hne.
  destruct (exec_delete_view (delete_Customers c) s
              (Z.of_nat (List.length (filter (Z.eqb c) (Customers t))))
              t1) as (s1 & Hrun1 & Hview1).
  { unfold delete_Customers. fold t. rewrite Hord, andb_false_r. reflexivity. }
  assert (Hgone : has_customer t1 c = false).
  { unfold has_customer, t1. cbn [Customers with_Customers].
    apply not_true_is_false. intro Hex.
    apply filter_nonempty_of_existsb in Hex.
    rewrite (filter_filter_negb (Z.eqb c)) in Hex. discriminate Hex. }
  exists s1. split; [| split; [| split]].
  - unfold delete_customer. cbv zeta. rewrite Hid.
    cbn [SELECT_OrderCount]. fold t.
    replace (0 <? OrderCount c t) with false.
    + change (exec_delete (DELETE_Customers (JS.Int c)) s)
        with (exec_delete (delete_Customers c) s).
      rewrite Hrun1.
      replace (Z.of_nat _ =? 0) with false; [reflexivity |].
      symmetry. apply Z.eqb_neq. apply Nat.eqb_neq in Hne. lia.
    + symmetry. apply Z.ltb_ge. unfold OrderCount.
      rewrite (filter_empty_of_existsb _ _ Hord). cbn. lia.
  - rewrite Hview1. exact Hgone.
  - rewrite Hview1. reflexivity.
  - intros b q pm Hc Hb Hq Hpm.
    unfold PlaceOrder, bind, coerce.
    rewrite !in_INT_coerce by assumption.
    unfold coerce_VARCHAR_50. apply Nat.leb_le in Hpm. rewrite Hpm.
    unfold START_TRANSACTION, exec_insert, insert_Orders, next_key.
    cbn [view open_txn committed]. rewrite Hview1.
    change (next_OrderID t1) with (next_OrderID t).
    destruct (in_INT (next_OrderID t)) eqn:Hkey.
    + rewrite (coerce_INT_in _ _ Hkey), Hgone. eexists.
      split; reflexivity.
    + rewrite (coerce_INT_out _ _ Hkey). eexists.
      split; [reflexivity | discriminate].
Qed.

Lemma deleted_customer_is_gone_witness :
  exists s',
    delete_customer (Some (mkSession (with_Customers seed [1; 2; 3; 4]) None))
                    "4" =
    (reply 200 [("message", JString "Customer deleted successfully")],
     Some s') /\
    has_customer (view s') 4 = false.
Proof.
  destruct (deleted_customer_is_gone
              (mkSession (with_Customers seed [1; 2; 3; 4]) None) "4" 4
              eq_refl eq_refl eq_refl) as (s' & H1 & H2 & _).
  exists s'. split; assumption.
Defined.

(* ===================================================================== *)
(** ** The notifications file *)
(* ===================================================================== *)


Lemma stored_after_read file :
  stored (snd (readNotificationsFile file)) = stored file.
Proof.
  destruct file as [| | jsonData]; try reflexivity.
  unfold stored, readNotificationsFile.
  destruct (property jsonData "unread") eqn:Hu,
           (property jsonData "read") eqn:Hr;
    cbn [fst snd]; rewrite ?Hu, ?Hr; reflexivity.
Qed.

Lemma readNotificationsFile_stored file :
  readNotificationsFile file = (stored file, snd (readNotificationsFile file)).
Proof. unfold stored. destruct (readNotificationsFile file). reflexivity. Qed.








Lemma without_id_null id entries :
  In JNull entries -> exists e, without_id id entries = inl e.
Proof.
  induction entries as [| n rest IH]; intro Hin; [contradiction |].
  destruct Hin as [H | H].
  - subst n. eexists. reflexivity.
  - cbn [without_id]. destruct (other_id id n) as [e | keep].
    + eexists; reflexivity.
    + destruct (IH H) as [e He]. rewrite He. eexists; reflexivity.
Qed.










(** X27.  A stored [null] makes every DELETE fail: the answer
    is 500 and the notifications are as they were. *)
Theorem null_entry_blocks_delete id file :
  In JNull (all_stored file) ->
  reply_status (fst (delete_notification id file)) = 500 /\
  stored (snd (delete_notification id file)) = stored file.
Proof.
  unfold all_stored. intro Hin. apply in_app_or in Hin.
  unfold delete_notification. rewrite readNotificationsFile_stored.
  destruct Hin as [Hin | Hin].
  - destruct (without_id_null id _ Hin) as [e ->]. cbn [fst snd].
    split; [reflexivity | apply stored_after_read].
  - destruct (without_id id (unread (stored file))) as [e | unread'].
    + cbn [fst snd]. split; [reflexivity | apply stored_after_read].
    + destruct (without_id_null id _ Hin) as [e ->]. cbn [fst snd].
      split; [reflexivity | apply stored_after_read].
Qed.

Lemma null_entry_blocks_delete_witness :
  reply_status (fst (delete_notification "a1" null_file)) = 500 /\
  stored (snd (delete_notification "a1" null_file)) = stored null_file.
Proof.
  apply (null_entry_blocks_delete "a1" null_file).
  cbn. right. left. reflexivity.
Defined.

Lemma lowercase_request_not_null method body :
  body <> JNull -> lowercase_request method body <> JNull.
Proof.
  intro H. unfold lowercase_request.
  destruct (_ || _); [| exact H].
  destruct body; congruence.
Qed.








